(** * Hydraulic erosion on a heightmap: a shallow embedding of the simulation

    The C program works on [double] values, [int] indices and a heightmap
    that every function reaches through a flat pointer.  The embedding is
    written once, over an interface [DoubleOps] for the arithmetic of
    [double], and is used at two instances:

    - [binary64], the IEEE 754 double precision numbers of the machine
      (Rocq's primitive floats), at which every definition evaluates: this
      is what the program computes;
    - [exact], the real numbers: the arithmetic that the formulas of the
      program are written for.  It rounds nothing, has no overflow and no
      NaN, and its cast to [int] has no range.

    What depends on control flow only (position checks, the rounds a loop
    takes, the cells a loop writes, what is added to which double) is
    proved for every instance.  A statement is proved at [exact] only where
    double arithmetic gives the same statement, because it rests on orders
    and signs that rounding keeps, on values that are computed without
    rounding, or on whether a loop ends; the theorem says on what.  Where
    rounding changes the statement (the amount that a deposit returns, the
    total that an erosion credits, the range of a random number) the file
    gives what holds for every instance and evaluates a call at [binary64]
    that shows the rounding.

    [int] values are integers of [Z]; signed overflow is undefined in C and
    every index of the program stays far below 2^31, so no wrap-around is
    written for them.  [uint32_t] wraps and its wrap-around is written out.

    Of the part of the program that writes images, the pixel buffer, the
    moments at which an image is saved and the names of the directories are
    modelled; the encoding of the PNG file, the calls that create
    directories and the driver that sweeps the parameters are not. *)

From Stdlib Require Import ZArith List Bool Lia.
From Stdlib Require Import Reals Lra.
From Stdlib Require Import Floats.
From Stdlib Require Import Ascii String.
Import ListNotations.

Open Scope Z_scope.

(* ================================================================== *)
(** * Integers                                                          *)
(* ================================================================== *)

Definition UINT32_MAX : Z := 4294967295.
Definition INT_MIN : Z := -2147483648.
Definition INT_MAX : Z := 2147483647.

(** Arithmetic of [uint32_t] is modulo 2^32. *)
Definition u32 (z : Z) : Z := z mod 2 ^ 32.

(** [static uint32_t PCG_Hash(uint32_t input)] *)
Definition PCG_Hash (input : Z) : Z :=
  let state := u32 (u32 (input * 747796405) + 2891336453) in
  let word :=
    u32 (Z.lxor (Z.shiftr state (u32 (Z.shiftr state 28 + 4))) state
         * 277803737) in
  Z.lxor (Z.shiftr word 22) word.

(** [MIN] of [simulation.h], at type [int]. *)
Definition MIN_int (a b : Z) : Z := if a <? b then a else b.

(** The values [0, 1, ..., n-1] of a loop [for (int i = 0; i < n; ++i)]. *)
Definition range (n : Z) : list Z := map Z.of_nat (seq 0 (Z.to_nat n)).

(** The values [lo, lo+1, ..., hi] of a loop
    [for (int i = lo; i <= hi; ++i)]. *)
Definition range_incl (lo hi : Z) : list Z :=
  map (fun k => lo + k) (range (hi - lo + 1)).

(* ================================================================== *)
(** * Names of directories                                              *)
(* ================================================================== *)

(** The character of a decimal digit. *)
Definition digit (n : Z) : ascii := ascii_of_nat (48 + Z.to_nat n).

(** The decimal digits of a number that is not negative; an [int] has ten
    of them at most. *)
Fixpoint digits (fuel : nat) (n : Z) : string :=
  match fuel with
  | O => EmptyString
  | S fuel' =>
      if n <? 10 then String (digit n) EmptyString
      else (digits fuel' (n / 10) ++ String (digit (n mod 10)) EmptyString)
           %string
  end.

(** What [printf] writes for [%d]. *)
Definition sprintf_d (i : Z) : string :=
  if i <? 0 then String "-"%char (digits 10 (- i)) else digits 10 i.

(** [void name_directory(char *dest, int i, char *name)].  [sprintf] writes
    the text and a final zero into [char dec[4]]; [strcat] appends to the
    array behind [dest], which has [room] bytes.  The result is [None] when
    either array is too short for what is written to it. *)
Definition name_directory (room : Z) (dest : string) (i : Z) (name : string)
  : option string :=
  let dec := ("_" ++ sprintf_d i ++ "/")%string in
  let result := (dest ++ dec ++ name)%string in
  if (Z.of_nat (String.length dec) + 1 <=? 4)
     && (Z.of_nat (String.length result) + 1 <=? room)
  then Some result else None.

(* ================================================================== *)
(** * The arithmetic of [double]                                        *)
(* ================================================================== *)

Class DoubleOps (D : Type) : Type := {
  of_int : Z -> D;            (** the conversion [(double) n]            *)
  to_int : D -> Z;            (** the conversion [(int) d], towards zero *)
  dhalf : D;                  (** the literal [0.5]                      *)
  EPSILON : D;                (** [#define EPSILON 0.00001]              *)
  dadd : D -> D -> D;
  dsub : D -> D -> D;
  dmul : D -> D -> D;
  ddiv : D -> D -> D;
  dneg : D -> D;
  dsqrt : D -> D;             (** [sqrt] of [math.h]                     *)
  dlt : D -> D -> bool;       (** [a < b]                                *)
  dle : D -> D -> bool        (** [a <= b]                               *)
}.

Declare Scope double_scope.
Delimit Scope double_scope with D.
Infix "+" := dadd : double_scope.
Infix "-" := dsub : double_scope.
Infix "*" := dmul : double_scope.
Infix "/" := ddiv : double_scope.
Notation "- a" := (dneg a) : double_scope.
Infix "<?" := dlt : double_scope.
Infix "<=?" := dle : double_scope.
Notation "a >? b" := (dlt b a) : double_scope.
Notation "a >=? b" := (dle b a) : double_scope.

(* ------------------------------------------------------------------ *)
(** ** Instance: IEEE 754 binary64                                      *)
(* ------------------------------------------------------------------ *)

Module Binary64.

(** [(int) d].  The value is truncated towards zero.  A NaN, an infinity
    or a value outside the range of [int] has no defined result in C; the
    model returns [INT_MIN], which is what the conversion instruction of
    x86-64 stores. *)
Definition to_int (d : float) : Z :=
  match Prim2SF d with
  | S754_zero _ => 0
  | S754_finite s m e =>
      let a := if 0 <=? e then Z.shiftl (Z.pos m) e
               else Z.shiftr (Z.pos m) (- e) in
      let z := if s then - a else a in
      if (INT_MIN <=? z) && (z <=? INT_MAX) then z else INT_MIN
  | _ => INT_MIN
  end.

(** [(double) n], exact for every [int] and every [uint32_t]. *)
Definition of_int (n : Z) : float :=
  if 0 <=? n then PrimFloat.of_uint63 (Uint63.of_Z n)
  else PrimFloat.opp (PrimFloat.of_uint63 (Uint63.of_Z (- n))).

End Binary64.

#[export] Instance binary64 : DoubleOps float := {|
  of_int := Binary64.of_int;
  to_int := Binary64.to_int;
  dhalf := 0.5%float;
  EPSILON := 0x1.4f8b588e368f1p-17%float;
  dadd := PrimFloat.add;
  dsub := PrimFloat.sub;
  dmul := PrimFloat.mul;
  ddiv := PrimFloat.div;
  dneg := PrimFloat.opp;
  dsqrt := PrimFloat.sqrt;
  dlt := PrimFloat.ltb;
  dle := PrimFloat.leb
|}.

(* ------------------------------------------------------------------ *)
(** ** Instance: exact real arithmetic                                  *)
(* ------------------------------------------------------------------ *)

Module Exact.

(** Truncation towards zero: the floor of a non-negative number, the
    ceiling of a negative one.  This is the cast [(int) r] wherever C
    defines the cast, that is when the truncated value is an [int]; it goes
    on beyond, where C defines nothing and [Binary64.to_int] answers
    [INT_MIN].  A statement that needs the cast to be defined bounds the
    number. *)
Definition to_int (r : R) : Z :=
  if Rle_dec 0 r then Int_part r else (- Int_part (- r))%Z.

Definition ltb (a b : R) : bool := if Rlt_dec a b then true else false.
Definition leb (a b : R) : bool := if Rle_dec a b then true else false.

End Exact.

(** The arithmetic of the real numbers.  [dsqrt] is Rocq's square root,
    which is 0 on a negative number, where the machine answers NaN.  Every
    square root of the program is taken of a sum of squares, except the one
    of the velocity, whose argument is negative only if [gravity] is: a
    statement about the velocity assumes that it is not. *)
#[export] Instance exact : DoubleOps R := {|
  of_int := IZR;
  to_int := Exact.to_int;
  dhalf := (1 / 2)%R;
  EPSILON := (1 / 100000)%R;
  dadd := Rplus;
  dsub := Rminus;
  dmul := Rmult;
  ddiv := Rdiv;
  dneg := Ropp;
  dsqrt := R_sqrt.sqrt;
  dlt := Exact.ltb;
  dle := Exact.leb
|}.

(* ================================================================== *)
(** * The program                                                       *)
(* ================================================================== *)

Section Simulation.

Context {D : Type} {ops : DoubleOps D}.

Local Open Scope double_scope.

Definition d0 : D := of_int 0.       (** the literal [0.0] *)
Definition d1 : D := of_int 1.       (** the literal [1.0] *)

(** [MIN], [MAX] and [ABS] of [simulation.h], at type [double]. *)
Definition MIN (a b : D) : D := if a <? b then a else b.
Definition MAX (a b : D) : D := if a >? b then a else b.
Definition ABS (a : D) : D := if a <? d0 then - a else a.

(** ** Data

    The fields [x] and [y] of [vec2] and the fields [x], [y] and [w] of
    [struct weight] carry the name of their structure, since projections
    share one name space. *)

(** [typedef struct _vec2 { double x; double y; } vec2;] *)
Record vec2 : Type := mk_vec2 { vec2_x : D; vec2_y : D }.

(** [struct drop] *)
Record drop : Type := mk_drop {
  position : vec2;
  direction : vec2;
  lifetime : Z;
  velocity : D;
  water : D;
  sediment : D
}.

(** [struct parameters] *)
Record parameters : Type := mk_parameters {
  inertia : D;
  slope : D;
  capacity : D;
  deposition : D;
  erosion : D;
  gravity : D;
  evaporation : D;
  radius : Z
}.

(** [struct weight] *)
Record weight : Type := mk_weight {
  used : bool;
  weight_x : Z;
  weight_y : Z;
  weight_w : D
}.

(** The heightmap is a block of [width * height] doubles that the
    functions address through a [double *]: cell [i] of the block is
    [heightmap i].  The block sits in a flat memory, so an offset outside
    [0, width * height) names memory next to the grid. *)
Definition heightmap : Type := Z -> D.

Definition store (h : heightmap) (i : Z) (v : D) : heightmap :=
  fun j => if Z.eqb j i then v else h j.

(** The macro [H(heightmap, w, x, y)] of [simulation.h]: the double at
    offset [y * w + x] from the pointer [heightmap]. *)
Definition H (h : heightmap) (w x y : Z) : D := h (y * w + x)%Z.

(** An assignment [H(h, w, x, y) = v]. *)
Definition H_set (h : heightmap) (w x y : Z) (v : D) : heightmap :=
  store h (y * w + x)%Z v.

(** The offset of [heightmap[x][y]] for a parameter declared
    [double heightmap[width][height]]: rows have [height] elements. *)
Definition at2 (height x y : Z) : Z := (x * height + y)%Z.

(** ** Random numbers *)

(** [rand()] is the generator of the C library, seeded by [random_init]
    from the clock.  The model takes the sequence of its results,
    [rand_stream], and threads the number of draws made so far. *)
Variable rand_stream : nat -> Z.

(** [double random_double(unsigned int seed)] *)
Definition random_double (seed : Z) : D :=
  let hash := PCG_Hash (u32 seed) in
  of_int hash / of_int UINT32_MAX.

(** [double random_double_min_max(unsigned int seed, double min, double max)] *)
Definition random_double_min_max (seed : Z) (min max : D) : D :=
  let normalized := random_double seed in
  min + normalized * (max - min).

(** [vec2 random_vec2(int width, int height)], from draw number [r] on. *)
Definition random_vec2 (width height : Z) (r : nat) : vec2 * nat :=
  let x := random_double_min_max (rand_stream r) d0 (of_int width) in
  let y := random_double_min_max (rand_stream (S r)) d0 (of_int height) in
  (mk_vec2 x y, S (S r)).

(** ** Gradient *)

(** [vec2 compute_gradient_central(int w, double *h, vec2 pos)] *)
Definition compute_gradient_central (w : Z) (h : heightmap) (pos : vec2)
  : vec2 :=
  let x := to_int (vec2_x pos) in
  let y := to_int (vec2_y pos) in
  if (x <? 1)%Z || (x >=? w - 1)%Z || (y <? 1)%Z || (y >=? w - 1)%Z
  then mk_vec2 d0 d0
  else
    mk_vec2 ((H h w (x + 1) y - H h w (x - 1) y) * dhalf)
            ((H h w x (y + 1) - H h w x (y - 1)) * dhalf).

(** [vec2 compute_gradient(int w, double *h, vec2 pos)] *)
Definition compute_gradient (w : Z) (h : heightmap) (pos : vec2) : vec2 :=
  let x := to_int (vec2_x pos) in
  let y := to_int (vec2_y pos) in
  let u := dhalf in
  let v := dhalf in
  mk_vec2
    ((H h w (x + 1) y - H h w x y) * (d1 - v)
     + (H h w (x + 1) (y + 1) - H h w x (y + 1)) * v)
    ((H h w x (y + 1) - H h w x y) * (d1 - u)
     + (H h w (x + 1) (y + 1) - H h w (x + 1) y) * u).

(** [int verify_drop_pos(struct drop drop, int width, int height)] *)
Definition verify_drop_pos (drop : drop) (width height : Z) : bool :=
  let x := to_int (vec2_x (position drop)) in
  let y := to_int (vec2_y (position drop)) in
  (0 <? x)%Z && (x <? width - 1)%Z && (0 <? y)%Z && (y <? height - 1)%Z.

(** ** Deposition *)

(** One of the four blocks
    [if (to_drop * w > 0.0) { dropped = to_drop * w;
                              H(heightmap, width, x, y) += dropped;
                              sum_dropped += dropped; }]
    acting on the heightmap and on [sum_dropped]. *)
Definition deposit_cell (width x y : Z) (to_drop w : D)
    (st : heightmap * D) : heightmap * D :=
  let '(h, sum_dropped) := st in
  if to_drop * w >? d0 then
    let dropped := to_drop * w in
    (H_set h width x y (H h width x y + dropped), sum_dropped + dropped)
  else (h, sum_dropped).

(** [double simulate_deposition(int width, int height,
                                double heightmap[width][height],
                                vec2 pos, double to_drop)]
    returns the heightmap it leaves and the value it returns. *)
Definition simulate_deposition (width height : Z) (h : heightmap)
    (pos : vec2) (to_drop : D) : heightmap * D :=
  let x1 := to_int (vec2_x pos) in
  let y1 := to_int (vec2_y pos) in
  let x2 := MIN_int (x1 + 1) (width - 1) in
  let y2 := MIN_int (y1 + 1) (height - 1) in
  let dx := vec2_x pos - of_int x1 in
  let dy := vec2_y pos - of_int y1 in
  let w11 := (d1 - dx) * (d1 - dy) in
  let w12 := (d1 - dx) * dy in
  let w21 := dx * (d1 - dy) in
  let w22 := dx * dy in
  let sum_w := w11 + w12 + w21 + w22 in
  if sum_w <=? EPSILON then (h, d0)
  else
    let w11 := w11 / sum_w in
    let w12 := w12 / sum_w in
    let w21 := w21 / sum_w in
    let w22 := w22 / sum_w in
    deposit_cell width x2 y2 to_drop w22
      (deposit_cell width x2 y1 to_drop w21
         (deposit_cell width x1 y2 to_drop w12
            (deposit_cell width x1 y1 to_drop w11 (h, d0)))).

(** ** One drop *)

(** What [simulate_drop] works on: the heightmap, its copy of the drop and
    the number of draws made from [rand()]. *)
Record world : Type := mk_world {
  w_map : heightmap;
  w_drop : drop;
  w_rand : nat
}.

(** The loop [while (norm <= EPSILON)] that draws a new direction.  The
    source puts no bound on it; the model runs it for at most [fuel]
    rounds and answers [None] when that is not enough. *)
Fixpoint resample (fuel : nat) (new_dir : vec2) (norm : D) (r : nat)
  : option (vec2 * D * nat) :=
  if norm <=? EPSILON then
    match fuel with
    | O => None
    | S fuel' =>
        let x := random_double (rand_stream r) in
        let y := random_double (rand_stream (S r)) in
        resample fuel' (mk_vec2 x y) (dsqrt (x * x + y * y)) (S (S r))
    end
  else Some (new_dir, norm, r).

(** [while (to_drop > EPSILON)
       to_drop -= simulate_deposition(width, height, heightmap, old_pos,
                                      drop.sediment);] *)
Fixpoint refill (fuel : nat) (width height : Z) (old_pos : vec2)
    (sed : D) (h : heightmap) (to_drop : D) : option (heightmap * D) :=
  if to_drop >? EPSILON then
    match fuel with
    | O => None
    | S fuel' =>
        let '(h', dropped) := simulate_deposition width height h old_pos sed in
        refill fuel' width height old_pos sed h' (to_drop - dropped)
    end
  else Some (h, to_drop).

(** [while (drop.sediment > EPSILON)
       drop.sediment -= simulate_deposition(width, height, heightmap,
                                            old_pos, drop.sediment);] *)
Fixpoint unload (fuel : nat) (width height : Z) (old_pos : vec2)
    (h : heightmap) (sed : D) : option (heightmap * D) :=
  if sed >? EPSILON then
    match fuel with
    | O => None
    | S fuel' =>
        let '(h', dropped) := simulate_deposition width height h old_pos sed in
        unload fuel' width height old_pos h' (sed - dropped)
    end
  else Some (h, sed).

(** *** Erosion: the [else // erode] block of [simulate_drop] *)

(** The entry of [weights] written for the offset [(dx, dy)].  An entry
    that stays unused has no other field set; the model fills them with
    zeros, which are never read. *)
Definition erosion_weight (width height : Z) (old_pos : vec2)
    (radius dx dy : Z) : weight :=
  let x := to_int (vec2_x old_pos + of_int dx) in
  let y := to_int (vec2_y old_pos + of_int dy) in
  if (0 <=? x)%Z && (x <? width)%Z && (0 <=? y)%Z && (y <? height)%Z then
    let dist := dsqrt (of_int (dx * dx + dy * dy)) in
    if dist <=? of_int radius
    then mk_weight true x y (of_int radius - dist)
    else mk_weight false 0 0 d0
  else mk_weight false 0 0 d0.

(** The array [weights] after the two nested loops over [dx] and [dy], in
    the order of [index]. *)
Definition erosion_weights (width height : Z) (old_pos : vec2)
    (radius : Z) : list weight :=
  flat_map
    (fun dx => map (erosion_weight width height old_pos radius dx)
                   (range_incl (- radius) radius))
    (range_incl (- radius) radius).

(** [total_weight] after the same loops: the weights of the used entries,
    added in the order of [index]. *)
Definition total_weight (ws : list weight) : D :=
  fold_left (fun tw wt => if used wt then tw + weight_w wt else tw) ws d0.

(** The body of [for (int i = 0; i < size_weights; ++i)].  The variable
    [taux_evap] of the source is assigned and never read. *)
Definition erode_cell (width : Z) (gain total : D)
    (st : heightmap * D) (wt : weight) : heightmap * D :=
  let '(h, sed) := st in
  if used wt then
    let quantity := gain * (weight_w wt / total) * of_int 1 in
    (H_set h width (weight_x wt) (weight_y wt)
           (H h width (weight_x wt) (weight_y wt) - quantity),
     sed + quantity)
  else (h, sed).

(** The whole block, from [total_weight = 0.0] on: the heightmap and the
    drop's sediment it leaves. *)
Definition erode (width height : Z) (h : heightmap) (old_pos : vec2)
    (radius : Z) (gain sed : D) : heightmap * D :=
  let weights := erosion_weights width height old_pos radius in
  let total := total_weight weights in
  if total >? d0
  then fold_left (erode_cell width gain total) weights (h, sed)
  else (h, sed).

(** *** The body of the [while] loop of [simulate_drop] *)

Inductive step_result : Type :=
| Next (s : world)        (** the end of the body is reached         *)
| Break (s : world)       (** a [break] is executed                  *)
| Hang.                   (** an inner loop needs more than its fuel *)

(** Steps 1 to 3 of the body: the gradient, the new direction and the new
    position, with the number of draws made from [rand()].  The field
    [direction] of the drop is read here and written nowhere. *)
Definition new_position (inner : nat) (width : Z) (param : parameters)
    (s : world) : option (vec2 * nat) :=
  let drop := w_drop s in
  (* 1 - get gradient *)
  let gradient := compute_gradient width (w_map s) (position drop) in
  (* 2 - new direction *)
  let new_dir_x := vec2_x (direction drop) * inertia param
                   - vec2_x gradient * (d1 - inertia param) in
  let new_dir_y := vec2_y (direction drop) * inertia param
                   - vec2_y gradient * (d1 - inertia param) in
  let norm := dsqrt (new_dir_x * new_dir_x + new_dir_y * new_dir_y) in
  match resample inner (mk_vec2 new_dir_x new_dir_y) norm (w_rand s) with
  | None => None
  | Some (new_dir, norm, r) =>
      let new_dir :=
        mk_vec2 (vec2_x new_dir / norm) (vec2_y new_dir / norm) in
      (* 3 - new position *)
      Some (mk_vec2 (vec2_x (position drop) + vec2_x new_dir)
                    (vec2_y (position drop) + vec2_y new_dir), r)
  end.

(** Step 4: [h_diff]. *)
Definition height_difference (width : Z) (h : heightmap) (pos old_pos : vec2)
  : D :=
  H h width (to_int (vec2_x pos)) (to_int (vec2_y pos))
  - H h width (to_int (vec2_x old_pos)) (to_int (vec2_y old_pos)).

(** The block [if (h_diff > 0.0) { ... }]: both branches end in [break]. *)
Definition uphill (inner : nat) (height width : Z) (h : heightmap)
    (old_pos : vec2) (drop : drop) (h_diff : D) (r : nat) : step_result :=
  if sediment drop >=? h_diff then
    let to_drop := h_diff in
    let '(h1, dropped) :=
      simulate_deposition width height h old_pos to_drop in
    match refill inner width height old_pos (sediment drop) h1
                 (to_drop - dropped) with
    | None => Hang
    | Some (h2, _) => Break (mk_world h2 drop r)
    end
  else
    let to_drop := sediment drop in
    let '(h1, dropped) :=
      simulate_deposition width height h old_pos to_drop in
    match unload inner width height old_pos h1 (sediment drop - dropped) with
    | None => Hang
    | Some (h2, sed) =>
        Break (mk_world h2
                 (mk_drop (position drop) (direction drop) (lifetime drop)
                          (velocity drop) (water drop) sed) r)
    end.

(** The block [else { ... }] and the steps 6 and 7 that follow it. *)
Definition downhill (height width : Z) (param : parameters) (h : heightmap)
    (old_pos : vec2) (drop : drop) (h_diff : D) (r : nat) : step_result :=
  (* 5 - new capacity c *)
  let c := MAX (- h_diff) (slope param) * velocity drop * water drop
           * capacity param in
  let '(h1, sed) :=
    if sediment drop >=? c then
      let to_drop := (sediment drop - c) * deposition param in
      let '(h1, dropped) :=
        simulate_deposition width height h old_pos to_drop in
      (h1, sediment drop - dropped)
    else
      let gain := MIN ((c - sediment drop) * erosion param) (- h_diff) in
      erode width height h old_pos (radius param) gain (sediment drop) in
  (* 6 - new velocity *)
  let velocity' :=
    dsqrt (velocity drop * velocity drop + ABS h_diff * gravity param) in
  (* 7 - new water *)
  let water' := water drop * (d1 - evaporation param) in
  Next (mk_world h1
          (mk_drop (position drop) (direction drop) (lifetime drop)
                   velocity' water' sed) r).

Definition simulate_drop_body (inner : nat) (height width : Z)
    (param : parameters) (s : world) : step_result :=
  let h := w_map s in
  let drop := w_drop s in
  (* 0 - update lifetime *)
  let lifetime' := (lifetime drop - 1)%Z in
  match new_position inner width param s with
  | None => Hang
  | Some (pos, r) =>
      let old_pos := position drop in
      let moved := mk_drop pos (direction drop) lifetime' (velocity drop)
                           (water drop) (sediment drop) in
      (* gone: went out of bound *)
      if negb (verify_drop_pos moved width height)
      then Break (mk_world h moved r)
      else
        let h_diff := height_difference width h pos old_pos in
        if h_diff >? d0
        then uphill inner height width h old_pos moved h_diff r
        else downhill height width param h old_pos moved h_diff r
  end.

(** *** [simulate_drop] *)

Inductive run : Type :=
| Returned (s : world) (steps : nat)  (** the loop is left after [steps] rounds *)
| Hung (steps : nat)                  (** an inner loop hangs in round [steps]  *)
| Exhausted.                          (** [fuel] rounds were not enough         *)

(** The condition of the [while] loop. *)
Definition simulate_drop_guard (height width : Z) (s : world) : bool :=
  (lifetime (w_drop s) >? 0)%Z
  && verify_drop_pos (w_drop s) width height
  && (water (w_drop s) >? EPSILON).

Fixpoint simulate_drop_loop (fuel inner : nat) (height width : Z)
    (param : parameters) (s : world) (steps : nat) : run :=
  if simulate_drop_guard height width s then
    match fuel with
    | O => Exhausted
    | S fuel' =>
        match simulate_drop_body inner height width param s with
        | Next s' =>
            simulate_drop_loop fuel' inner height width param s' (S steps)
        | Break s' => Returned s' (S steps)
        | Hang => Hung (S steps)
        end
    end
  else Returned s steps.

(** [void simulate_drop(int height, int width,
                        double heightmap[width][height],
                        struct drop drop, struct parameters param)] *)
Definition simulate_drop (fuel inner : nat) (height width : Z)
    (h : heightmap) (drop : drop) (param : parameters) (r : nat) : run :=
  simulate_drop_loop fuel inner height width param (mk_world h drop r) 0.

(** How the [while] loop of [simulate_drop] is left. *)
Inductive leave : Type :=
| By_condition    (** the loop condition fails          *)
| By_break.       (** a [break] of the body is executed *)

(** The same loop, answering how it is left; [None] where
    [simulate_drop_loop] hangs or lacks fuel. *)
Fixpoint simulate_drop_leaves (fuel inner : nat) (height width : Z)
    (param : parameters) (s : world) : option leave :=
  if simulate_drop_guard height width s then
    match fuel with
    | O => None
    | S fuel' =>
        match simulate_drop_body inner height width param s with
        | Next s' => simulate_drop_leaves fuel' inner height width param s'
        | Break _ => Some By_break
        | Hang => None
        end
    end
  else Some By_condition.

(** ** Many drops *)

(** The drop that [simulate_erosion_detailed] builds at [position]. *)
Definition new_drop (position : vec2) : drop :=
  mk_drop position (mk_vec2 d0 d0) 1000 d1 d1 d0.

(** [simulate_erosion_detailed], without the images it writes between
    drops: they read the heightmap and leave it as it is. *)
Fixpoint simulate_erosion_drops (nb_drop inner : nat) (height width : Z)
    (param : parameters) (h : heightmap) (r : nat)
  : option (heightmap * nat) :=
  match nb_drop with
  | O => Some (h, r)
  | S n =>
      let '(position, r1) := random_vec2 width height r in
      match simulate_drop 1000 inner height width h (new_drop position)
                          param r1 with
      | Returned s _ =>
          simulate_erosion_drops n inner height width param
                                 (w_map s) (w_rand s)
      | _ => None
      end
  end.

Definition simulate_erosion_detailed (inner : nat) (height width : Z)
    (h : heightmap) (param : parameters) (nb_drop : Z)
  : option (heightmap * nat) :=
  simulate_erosion_drops (Z.to_nat nb_drop) inner height width param h O.

(** ** Terrain generation *)

(** [exp2] of [math.h]. *)
Variable exp2 : D -> D.

(** The pairs [(x, y)] of
    [for (int x = 0; x < height; ++x) for (int y = 0; y < width; ++y)]
    in the order the loops visit them. *)
Definition cells (width height : Z) : list (Z * Z) :=
  flat_map (fun x => map (fun y => (x, y)) (range width)) (range height).

(** [heightmap[x][y] = 0;] *)
Definition clear_cell (height : Z) (h : heightmap) (c : Z * Z) : heightmap :=
  let '(x, y) := c in store h (at2 height x y) (of_int 0).

(** The body of the loops that add one boss. *)
Definition boss_cell (height : Z) (center : vec2)
    (gaussian_width amplitude : D) (h : heightmap) (c : Z * Z) : heightmap :=
  let '(x, y) := c in
  let distance :=
    dsqrt ((of_int x - vec2_x center) * (of_int x - vec2_x center)
           + (of_int y - vec2_y center) * (of_int y - vec2_y center)) in
  store h (at2 height x y)
    (h (at2 height x y)
     + exp2 ((- (distance * distance))
             / (of_int 2 * gaussian_width * gaussian_width))
       * amplitude).

(** The loop [for (int i = 0; i < num_bosses; ++i)]. *)
Fixpoint add_bosses (num_bosses : nat) (width height : Z)
    (width_range amplitude_range : vec2) (h : heightmap) (r : nat)
  : heightmap * nat :=
  match num_bosses with
  | O => (h, r)
  | S n =>
      let '(center, r1) := random_vec2 width height r in
      let gaussian_width :=
        random_double_min_max (rand_stream r1) (vec2_x width_range)
                              (vec2_y width_range) in
      let amplitude :=
        random_double_min_max (rand_stream (S r1)) (vec2_x amplitude_range)
                              (vec2_y amplitude_range) in
      add_bosses n width height width_range amplitude_range
        (fold_left (boss_cell height center gaussian_width amplitude)
                   (cells width height) h)
        (S (S r1))
  end.

(** The body of the loops that scale and look for [min] and [max]; the
    state is the heightmap, [min] and [max]. *)
Definition scale_cell (height scale : Z) (st : heightmap * D * D)
    (c : Z * Z) : heightmap * D * D :=
  let '(h, min, max) := st in
  let '(x, y) := c in
  let v := h (at2 height x y) * of_int scale in
  let max := if v >? max then v else max in
  let min := if v <? min then v else min in
  (store h (at2 height x y) v, min, max).

(** The body of the loops that normalize. *)
Definition normalize_cell (height : Z) (min max : D) (h : heightmap)
    (c : Z * Z) : heightmap :=
  let '(x, y) := c in
  let v := h (at2 height x y) - min in
  let v := v / (max - min) in
  let v := v * of_int 255 in
  store h (at2 height x y) v.

(** The last two loop nests of [generate_random_heightgaussian]. *)
Definition scale_and_normalize (width height scale : Z) (h : heightmap)
  : heightmap :=
  let min := h (at2 height 0 0) * of_int scale in
  let max := h (at2 height 0 0) * of_int scale in
  let '(h1, min, max) :=
    fold_left (scale_cell height scale) (cells width height) (h, min, max) in
  fold_left (normalize_cell height min max) (cells width height) h1.

(** [void generate_random_heightgaussian(int width, int height,
       double heightmap[width][height], int num_bosses, int scale,
       vec2 width_range, vec2 amplitude_range)].
    [rand_stream] is the sequence that follows its [random_init()]. *)
Definition generate_random_heightgaussian (width height : Z)
    (h : heightmap) (num_bosses scale : Z)
    (width_range amplitude_range : vec2) : heightmap :=
  let h0 := fold_left (clear_cell height) (cells width height) h in
  let '(h1, _) :=
    add_bosses (Z.to_nat num_bosses) width height width_range
               amplitude_range h0 O in
  scale_and_normalize width height scale h1.

(** ** Copies and images *)

(** [dest[i][j] = src[i][j];] with [double dest[w][h], src[w][h]]. *)
Definition copy_cell (h : Z) (src dest : heightmap) (c : Z * Z) : heightmap :=
  let '(i, j) := c in store dest (at2 h i j) (src (at2 h i j)).

(** [void copy_heightmap(int w, int h, double dest[w][h],
       double src[w][h])]: [i] runs below [w] and, inside, [j] below [h]. *)
Definition copy_heightmap (w h : Z) (dest src : heightmap) : heightmap :=
  fold_left (copy_cell h src) (cells h w) dest.

(** [(unsigned char) d].  The value is truncated towards zero; C defines
    the result for a value between -1 and 256, where it is [(int) d].
    Elsewhere the model keeps the low byte of [(int) d], which is what
    x86-64 stores. *)
Definition to_uchar (d : D) : Z := (to_int d mod 256)%Z.

(** The buffer [unsigned char *image]. *)
Definition bytes : Type := Z -> Z.

Definition store_byte (m : bytes) (i v : Z) : bytes :=
  fun j => if (j =? i)%Z then v else m j.

(** The body of the loops of [save_heightmap_as_image], which reads
    [heightmap[y][x]] of [double heightmap[width][height]] and writes the
    three channels of the pixel. *)
Definition pixel_cell (width height : Z) (h : heightmap) (image : bytes)
    (c : Z * Z) : bytes :=
  let '(y, x) := c in
  let value := to_uchar (h (at2 height y x)) in
  let idx := ((y * width + x) * 3)%Z in
  store_byte (store_byte (store_byte image idx value) (idx + 1)%Z value)
             (idx + 2)%Z value.

(** The loops [for (int y = 0; y < height; y++)
    for (int x = 0; x < width; x++)] of [save_heightmap_as_image]: the
    buffer that it hands to [stbi_write_png], from the buffer that [malloc]
    returned. *)
Definition image_pixels (width height : Z) (h : heightmap) (image : bytes)
  : bytes :=
  fold_left (pixel_cell width height h) (cells width height) image.

(** ** Many drops, with the images saved on the way *)

(** The loop [for (int i = 1; i <= nb_drop; ++i)] of
    [simulate_erosion_detailed] from the round [i] on, [todo] rounds before
    the end.  [saved] lists the calls of [save_heightmap_as_image] so far:
    the number [i] that names the file and the heightmap of that moment.
    [i % nb_particule_before_save] has no result when the divisor is 0. *)
Fixpoint simulate_erosion_rounds (todo inner : nat) (height width : Z)
    (param : parameters) (nb_particule_before_save : Z) (i : Z)
    (h : heightmap) (r : nat) (saved : list (Z * heightmap))
  : option (heightmap * nat * list (Z * heightmap)) :=
  match todo with
  | O => Some (h, r, saved)
  | S n =>
      if (nb_particule_before_save =? 0)%Z then None
      else
        let saved1 :=
          if (Z.rem i nb_particule_before_save =? 0)%Z
          then saved ++ [(i, h)] else saved in
        let '(position, r1) := random_vec2 width height r in
        match simulate_drop 1000 inner height width h (new_drop position)
                            param r1 with
        | Returned s _ =>
            simulate_erosion_rounds n inner height width param
              nb_particule_before_save (i + 1)%Z (w_map s) (w_rand s) saved1
        | _ => None
        end
  end.

(** [void simulate_erosion_detailed(int height, int width,
       double heightmap[width][height], struct parameters param,
       int nb_drop, char *path_name, int nb_particule_before_save)], with
    the images it saves. *)
Definition simulate_erosion_detailed_images (inner : nat) (height width : Z)
    (h : heightmap) (param : parameters) (nb_drop : Z)
    (nb_particule_before_save : Z)
  : option (heightmap * nat * list (Z * heightmap)) :=
  simulate_erosion_rounds (Z.to_nat nb_drop) inner height width param
                          nb_particule_before_save 1%Z h O [].

(** [void simulate_erosion(int height, int width,
       double heightmap[width][height], struct parameters param,
       int nb_drop)] *)
Definition simulate_erosion (inner : nat) (height width : Z)
    (h : heightmap) (param : parameters) (nb_drop : Z)
  : option (heightmap * nat * list (Z * heightmap)) :=
  simulate_erosion_detailed_images inner height width h param nb_drop nb_drop.

End Simulation.

(* ================================================================== *)
(** * The vocabulary of the statements                                  *)
(* ================================================================== *)

(** A grid of width 4 whose height at [(x, y)] is [x], in binary64. *)
Definition ramp4 : heightmap (D := float) := fun i => of_int (i mod 4).

(** The grid whose height at [(x, y)] is [x], for a width [w], in exact
    arithmetic. *)
Definition ramp (w : Z) : heightmap (D := R) := fun i => IZR (i mod w).

(** The sum of the first [n] doubles of the block. *)
Fixpoint sum_upto (n : nat) (h : heightmap (D := R)) : R :=
  match n with
  | O => 0%R
  | S k => (sum_upto k h + h (Z.of_nat k))%R
  end.

(** The sum of all heights of a grid of [width * height] cells. *)
Definition grid_total (width height : Z) (h : heightmap (D := R)) : R :=
  sum_upto (Z.to_nat (width * height)) h.

(** The positive part of an amount: what a guarded addition
    [if (a > 0.0) cell += a] adds. *)
Definition positive_part (a : R) : R := if Rlt_dec 0 a then a else 0%R.

(** The sum of the weights of the used entries. *)
Definition used_sum (ws : list (weight (D := R))) : R :=
  fold_right (fun wt acc => if used wt then (weight_w wt + acc)%R else acc)
             0%R ws.

(** A used entry names a cell of the grid and carries a weight that is not
    negative. *)
Definition sound_weight (width height : Z) (wt : weight (D := R)) : Prop :=
  used wt = true ->
  0 <= weight_x wt < width /\ 0 <= weight_y wt < height
  /\ (0 <= weight_w wt)%R.

(** A drop in the cell [(1, 1)] of the grid [ramp 4] of 4 by 4 cells, with
    three units of sediment, that heads along [x] with full inertia. *)
Definition uphill_world : world (D := R) :=
  mk_world (ramp 4)
           (mk_drop (mk_vec2 (3 / 2)%R (3 / 2)%R) (mk_vec2 1%R 0%R) 1000
                    1%R 1%R 3%R)
           0.

Definition uphill_param : parameters (D := R) :=
  mk_parameters 1%R 1%R 1%R 1%R 1%R 1%R 1%R 4.

(** A grid of 4 by 4 cells, flat but for the cell [(2, 1)], at offset 6,
    which stands [2^52 + 3] high; a drop in the cell [(1, 1)] that carries as
    much sediment and heads along [x]; parameters with full inertia.  All in
    binary64, where every number written here is exact. *)
Definition spike : heightmap (D := float) :=
  fun i => if i =? 6 then 4503599627370499%float else 0%float.

Definition loaded_drop : drop (D := float) :=
  mk_drop (mk_vec2 1.25%float 1.75%float) (mk_vec2 1%float 0%float) 1000
          1%float 1%float 4503599627370499%float.

Definition full_inertia : parameters (D := float) :=
  mk_parameters 1%float 1%float 1%float 1%float 1%float 1%float 1%float 4.

(** A grid of 4 by 4 cells, flat but for the cell [(2, 1)], which stands
    [1e12] high, and a drop in the cell [(1, 1)], at [(1.1, 1.9)] as
    binary64 has them, that heads along [x] with [3.3e11] of sediment. *)
Definition tall : heightmap (D := float) :=
  fun i => if i =? 6 then 1000000000000%float else 0%float.

Definition heavy : drop (D := float) :=
  mk_drop (mk_vec2 0x1.199999999999ap+0%float 0x1.e666666666666p+0%float)
          (mk_vec2 1%float 0%float) 1000 1%float 1%float
          330000000000%float.

(** A slope of 8 by 8 cells that rises by 10 per column, parameters that
    are exact in binary64, and a sequence of results of [rand()]. *)
Definition slope8 : heightmap (D := float) :=
  fun i => of_int (10 * (i mod 8)).

Definition half_param : parameters (D := float) :=
  mk_parameters 0.5%float 0.5%float 32%float 0.5%float 0.5%float 9.5%float
                0.5%float 4.

Definition seeds : nat -> Z := fun k => Z.of_nat k * 7919.

(** The offsets that the loops over [x < height] and [y < width] reach
    through [heightmap[x][y]]. *)
Definition visited (width height : Z) : list Z :=
  map (fun c => at2 height (fst c) (snd c)) (cells width height).

(** The bodies of the scaling loop and of the normalizing loop of
    [generate_random_heightgaussian], as functions of the offset they
    work on, in exact arithmetic. *)
Definition scale_offset (scale : Z) (st : heightmap * R * R) (i : Z)
  : heightmap * R * R :=
  let '(h, mn, mx) := st in
  let v := (h i * IZR scale)%R in
  (store h i v,
   (if Rlt_dec v mn then v else mn),
   (if Rlt_dec mx v then v else mx)).

Definition normalize_offset (mn mx : R) (h : heightmap) (i : Z) : heightmap :=
  store h i ((h i - mn) / (mx - mn) * 255)%R.

(** What the scaling loop has done after the offsets [0 .. k-1]: they are
    scaled, the others untouched, and [mn] and [mx] bound the scaled values
    and are among them or equal to the value they started from. *)
Record scaled (scale : Z) (h : heightmap) (start : R) (k : nat)
    (st : heightmap * R * R) : Prop := {
  scaled_done : forall i : Z,
    (0 <= i < Z.of_nat k)%Z -> fst (fst st) i = (h i * IZR scale)%R;
  scaled_rest : forall i : Z,
    ~ (0 <= i < Z.of_nat k)%Z -> fst (fst st) i = h i;
  scaled_bounds : forall i : Z,
    (0 <= i < Z.of_nat k)%Z ->
    (snd (fst st) <= h i * IZR scale <= snd st)%R;
  scaled_start : (snd (fst st) <= start <= snd st)%R;
  scaled_min : snd (fst st) = start
               \/ exists i : Z, (0 <= i < Z.of_nat k)%Z
                                /\ snd (fst st) = (h i * IZR scale)%R;
  scaled_max : snd st = start
               \/ exists i : Z, (0 <= i < Z.of_nat k)%Z
                                /\ snd st = (h i * IZR scale)%R
}.

(** The inverse of the xorshift [y = s ^ (s >> k)] on 32 bits, for a shift
    of 4 or more: eight rounds of [s = y ^ (s >> k)] rebuild [s] from its
    top bits down. *)
Definition unxorshift (k y : Z) : Z :=
  Nat.iter 7 (fun s => Z.lxor y (Z.shiftr s k)) y.

(** Undoes [PCG_Hash] step by step, last step first; 2897767785 and
    3425435293 are the inverses of the two multipliers modulo 2^32. *)
Definition PCG_Unhash (out : Z) : Z :=
  let word := Z.lxor out (Z.shiftr out 22) in
  let mixed := u32 (word * 2897767785) in
  let state := unxorshift (Z.shiftr mixed 28 + 4) mixed in
  u32 ((state - 2891336453) * 3425435293).

(** The plane [h(x, y) = a * x + b * y + c] on a grid of width [w], in
    exact arithmetic. *)
Definition plane (w : Z) (a b c : R) : heightmap (D := R) :=
  fun i => (a * IZR (i mod w) + b * IZR (i / w) + c)%R.


(** ** What a deposit and an erosion book, in every arithmetic *)

Section Accounts.

Context {D : Type} {ops : DoubleOps D}.

(** The sum [sum_w] of the four bilinear weights of [simulate_deposition]
    at [pos], and the four weights [w11], [w12], [w21], [w22] once they are
    divided by it. *)
Definition bilinear_sum (pos : vec2) : D :=
  let dx := (vec2_x pos - of_int (to_int (vec2_x pos)))%D in
  let dy := (vec2_y pos - of_int (to_int (vec2_y pos)))%D in
  ((d1 - dx) * (d1 - dy) + (d1 - dx) * dy + dx * (d1 - dy) + dx * dy)%D.

Definition bilinear_weights (pos : vec2) : D * D * D * D :=
  let dx := (vec2_x pos - of_int (to_int (vec2_x pos)))%D in
  let dy := (vec2_y pos - of_int (to_int (vec2_y pos)))%D in
  let sum_w := bilinear_sum pos in
  (((d1 - dx) * (d1 - dy) / sum_w)%D, ((d1 - dx) * dy / sum_w)%D,
   (dx * (d1 - dy) / sum_w)%D, (dx * dy / sum_w)%D).

(** What the cell of weight [w] receives of [to_drop]: the product
    [to_drop * w] when it is positive, nothing otherwise. *)
Definition share (to_drop w : D) : option D :=
  if (to_drop * w >? d0)%D then Some (to_drop * w)%D else None.

(** A double after one addition of a share, if there is one. *)
Definition raised (v : D) (s : option D) : D :=
  match s with
  | Some a => (v + a)%D
  | None => v
  end.


End Accounts.

(* ================================================================== *)
(** * Facts of exact arithmetic                                         *)
(* ================================================================== *)

(** Unfolds the operations of [double] at the instance [exact]. *)
Ltac exact_ops :=
  unfold d0, d1 in *;
  cbn [of_int to_int dhalf EPSILON dadd dsub dmul ddiv dneg dsqrt dlt dle
       exact] in *.

Module ExactFacts.

Local Open Scope R_scope.

(** [(int) r] is the integer part of a non-negative [r]. *)
Lemma to_int_nonneg (r : R) :
  0 <= r -> IZR (Exact.to_int r) <= r < IZR (Exact.to_int r) + 1.
Proof.
  intros Hr. unfold Exact.to_int.
  destruct (Rle_dec 0 r) as [_ | n]; [| contradiction].
  destruct (base_Int_part r) as [Hlo Hhi]. lra.
Qed.

(** [(int) r] rounds a negative [r] up, so it is never positive. *)
Lemma to_int_neg (r : R) : r < 0 -> (Exact.to_int r <= 0)%Z.
Proof.
  intros Hr. unfold Exact.to_int.
  destruct (Rle_dec 0 r) as [Hle | _]; [lra |].
  destruct (base_Int_part (- r)) as [Hlo Hhi].
  assert (Hz : (-1 < Int_part (- r))%Z).
  { apply lt_IZR. lra. }
  lia.
Qed.

(** A position with a positive cell index is itself positive. *)
Lemma to_int_pos (r : R) : (0 < Exact.to_int r)%Z -> 1 <= r.
Proof.
  intros Hz.
  destruct (Rlt_dec r 0) as [Hneg | Hpos].
  - pose proof (to_int_neg r Hneg). lia.
  - destruct (to_int_nonneg r) as [Hlo _]; [lra |].
    assert (1 <= IZR (Exact.to_int r)) by (apply (IZR_le 1); lia).
    lra.
Qed.

(** The cell of a non-negative [r] that lies in [[z, z+1)]. *)
Lemma to_int_unique (r : R) (z : Z) :
  0 <= r -> IZR z <= r < IZR z + 1 -> Exact.to_int r = z.
Proof.
  intros Hr [Hlo Hhi]. unfold Exact.to_int.
  destruct (Rle_dec 0 r) as [_ | n]; [| contradiction].
  symmetry. apply Int_part_spec. lra.
Qed.


End ExactFacts.

(* ================================================================== *)
(** * Position checks and gradient                                      *)
(* ================================================================== *)

Section Gradient.

Context {D : Type} {ops : DoubleOps D}.

(** C9.  [verify_drop_pos] accepts a drop exactly when the truncated
    coordinates of its position are strictly inside the grid on each axis:
    [0 < x < width - 1], with the width, and [0 < y < height - 1], with the
    height, whatever the two dimensions are. *)
Theorem verify_drop_pos_strict_interior (d : drop) (width height : Z) :
  verify_drop_pos d width height = true <->
  (0 < to_int (vec2_x (position d)) < width - 1
   /\ 0 < to_int (vec2_y (position d)) < height - 1).
Proof.
  unfold verify_drop_pos.
  rewrite !andb_true_iff, !Z.ltb_lt. tauto.
Qed.

(** C2, as amended.  [compute_gradient_central] returns [(0.0, 0.0)] for
    every heightmap when the truncated cell [(x, y)] of the position has
    [x < 1], [x >= w - 1], [y < 1] or [y >= w - 1]; both axes are compared
    with the width [w]. *)
Theorem compute_gradient_central_boundary (w : Z) (h : heightmap)
    (pos : vec2) :
  (to_int (vec2_x pos) < 1 \/ to_int (vec2_x pos) >= w - 1
   \/ to_int (vec2_y pos) < 1 \/ to_int (vec2_y pos) >= w - 1) ->
  compute_gradient_central w h pos = mk_vec2 d0 d0.
Proof.
  intros Hb. unfold compute_gradient_central.
  replace ((to_int (vec2_x pos) <? 1) || (to_int (vec2_x pos) >=? w - 1)
           || (to_int (vec2_y pos) <? 1) || (to_int (vec2_y pos) >=? w - 1))
    with true; [reflexivity |].
  symmetry. rewrite !orb_true_iff, !Z.ltb_lt, !Z.geb_le. lia.
Qed.

(** [compute_gradient] reads the position only through its truncated
    cell. *)
Lemma compute_gradient_same_cell (w : Z) (h : heightmap) (p q : vec2) :
  to_int (vec2_x p) = to_int (vec2_x q) ->
  to_int (vec2_y p) = to_int (vec2_y q) ->
  compute_gradient w h p = compute_gradient w h q.
Proof.
  intros Hx Hy. unfold compute_gradient. rewrite Hx, Hy. reflexivity.
Qed.

End Gradient.

(** In exact arithmetic the truncated coordinate of C9 can be read as a
    floor: the two differ on negative numbers only, where both fail the test
    [0 < x]. *)
Lemma strict_interior_floor (r : R) (m : Z) :
  0 < Exact.to_int r < m <-> 0 < Int_part r < m.
Proof.
  unfold Exact.to_int. destruct (Rle_dec 0 r) as [Hpos | Hneg]; [tauto |].
  destruct (base_Int_part r) as [Hlo _].
  destruct (base_Int_part (- r)) as [Hlo' Hhi'].
  assert (Int_part r < 0).
  { apply lt_IZR. lra. }
  assert (-1 < Int_part (- r)).
  { apply lt_IZR. lra. }
  lia.
Qed.

(** C2, as stated, fails for [compute_gradient]: on the grid [ramp4] the
    position [(0.5, 2.25)] lies in column 0, on the boundary, and the
    gradient there is [(1.0, 0.0)]. *)
Lemma compute_gradient_boundary_not_zero :
  to_int (vec2_x (mk_vec2 0.5%float 2.25%float)) = 0
  /\ compute_gradient 4 ramp4 (mk_vec2 0.5%float 2.25%float)
     = mk_vec2 1%float 0%float
  /\ compute_gradient 4 ramp4 (mk_vec2 0.5%float 2.25%float)
     <> mk_vec2 d0 d0.
Proof.
  split; [reflexivity |]. split; [vm_compute; reflexivity |].
  intros E.
  apply (f_equal (fun v => PrimFloat.ltb 0%float (vec2_x v))) in E.
  vm_compute in E. discriminate E.
Qed.

(** The position [(0.5, 2.25)] of the grid [ramp4] is in column 0. *)
Lemma compute_gradient_central_boundary_witness :
  (to_int (vec2_x (mk_vec2 0.5%float 2.25%float)) < 1
   \/ to_int (vec2_x (mk_vec2 0.5%float 2.25%float)) >= 4 - 1
   \/ to_int (vec2_y (mk_vec2 0.5%float 2.25%float)) < 1
   \/ to_int (vec2_y (mk_vec2 0.5%float 2.25%float)) >= 4 - 1)
  /\ compute_gradient_central 4 ramp4 (mk_vec2 0.5%float 2.25%float)
     = mk_vec2 d0 d0.
Proof.
  assert (Hb : to_int (vec2_x (mk_vec2 0.5%float 2.25%float)) < 1
               \/ to_int (vec2_x (mk_vec2 0.5%float 2.25%float)) >= 4 - 1
               \/ to_int (vec2_y (mk_vec2 0.5%float 2.25%float)) < 1
               \/ to_int (vec2_y (mk_vec2 0.5%float 2.25%float)) >= 4 - 1).
  { left. vm_compute. reflexivity. }
  split; [exact Hb |].
  exact (compute_gradient_central_boundary 4 ramp4
           (mk_vec2 0.5%float 2.25%float) Hb).
Defined.

Lemma H_ramp (w x y : Z) : 0 <= x < w -> H (ramp w) w x y = IZR x.
Proof.
  intros Hx. unfold H, ramp. f_equal.
  rewrite Z.add_comm, Z.mod_add by lia. apply Z.mod_small. exact Hx.
Qed.

(** C8.  In exact arithmetic [compute_gradient] returns, for every heightmap
    and every position, the blend with the fixed factors 0.5 and 0.5 of the
    forward differences around the truncated cell [(x, y)]; two positions of
    the same cell get the same gradient; and on the grid [h(x, y) = x] the
    gradient is [(1, 0)] at every interior position. *)
Theorem compute_gradient_fixed_blend (w : Z) (h : heightmap (D := R))
    (pos : vec2) :
  let x := to_int (vec2_x pos) in
  let y := to_int (vec2_y pos) in
  compute_gradient w h pos
  = mk_vec2
      ((H h w (x + 1) y - H h w x y) * (1 / 2)
       + (H h w (x + 1) (y + 1) - H h w x (y + 1)) * (1 / 2))%R
      ((H h w x (y + 1) - H h w x y) * (1 / 2)
       + (H h w (x + 1) (y + 1) - H h w (x + 1) y) * (1 / 2))%R
  /\ (forall q : vec2,
        to_int (vec2_x q) = x -> to_int (vec2_y q) = y ->
        compute_gradient w h q = compute_gradient w h pos)
  /\ (forall height : Z,
        (forall i j : Z, 0 <= i < w -> 0 <= j < height -> H h w i j = IZR i) ->
        0 < x < w - 1 -> 0 < y < height - 1 ->
        compute_gradient w h pos = mk_vec2 1%R 0%R).
Proof.
  intros x y. split; [| split].
  - unfold compute_gradient. fold x y. exact_ops. f_equal; lra.
  - intros q Hx Hy. apply compute_gradient_same_cell; assumption.
  - intros height Hh Hx Hy. unfold compute_gradient. fold x y.
    rewrite !Hh by lia. exact_ops. rewrite plus_IZR. f_equal; lra.
Qed.

(** The grid [ramp w] is such a grid, and the centre of the cell [(1, 1)] of
    a grid of 3 by 3 cells is an interior position. *)
Lemma compute_gradient_ramp_example :
  compute_gradient 3 (ramp 3) (mk_vec2 (3 / 2)%R (3 / 2)%R)
  = mk_vec2 1%R 0%R.
Proof.
  assert (E : Exact.to_int (3 / 2) = 1).
  { apply ExactFacts.to_int_unique; simpl; lra. }
  apply (proj2 (proj2 (compute_gradient_fixed_blend 3 (ramp 3)
                         (mk_vec2 (3 / 2)%R (3 / 2)%R))) 3).
  - intros i j Hi _. apply H_ramp. exact Hi.
  - exact_ops. unfold vec2_x. rewrite E. lia.
  - exact_ops. unfold vec2_y. rewrite E. lia.
Defined.

(** The same blend in binary64, where [1.0 - 0.5] is exactly [0.5]. *)
Lemma compute_gradient_fixed_blend_binary64 (w : Z)
    (h : heightmap (D := float)) (pos : vec2) :
  let x := to_int (vec2_x pos) in
  let y := to_int (vec2_y pos) in
  compute_gradient w h pos
  = mk_vec2
      ((H h w (x + 1) y - H h w x y) * 0.5
       + (H h w (x + 1) (y + 1) - H h w x (y + 1)) * 0.5)%float
      ((H h w x (y + 1) - H h w x y) * 0.5
       + (H h w (x + 1) (y + 1) - H h w (x + 1) y) * 0.5)%float.
Proof. reflexivity. Qed.

(* ================================================================== *)
(** * Termination of a drop                                             *)
(* ================================================================== *)

Section Lifetime.

Context {D : Type} {ops : DoubleOps D}.
Variable rand_stream : nat -> Z.

(** A round that reaches the end of the body has decremented [lifetime]
    once. *)
Lemma simulate_drop_body_lifetime (inner : nat) (height width : Z)
    (param : parameters) (s s' : world) :
  simulate_drop_body rand_stream inner height width param s = Next s' ->
  lifetime (w_drop s') = lifetime (w_drop s) - 1.
Proof.
  unfold simulate_drop_body.
  destruct (new_position rand_stream inner width param s) as [[pos r] |];
    [| discriminate].
  destruct (negb _); [discriminate |].
  destruct (dlt d0 _).
  - unfold uphill. destruct (dle _ _).
    + destruct (simulate_deposition _ _ _ _ _) as [h1 dropped].
      destruct (refill _ _ _ _ _ _ _) as [[h2 t] |]; discriminate.
    + destruct (simulate_deposition _ _ _ _ _) as [h1 dropped].
      destruct (unload _ _ _ _ _ _) as [[h2 t] |]; discriminate.
  - unfold downhill.
    match goal with
    | |- context [let '(a, b) := ?e in _] => destruct e as [h1 sed]
    end.
    intros E. injection E as <-. reflexivity.
Qed.

(** The loop leaves after at most [lifetime] rounds when it is given that
    much fuel: it never runs out of it. *)
Lemma simulate_drop_loop_bound (inner : nat) (height width : Z)
    (param : parameters) (fuel : nat) :
  forall (s : world) (steps : nat),
    lifetime (w_drop s) <= Z.of_nat fuel ->
    exists n : nat,
      (n <= steps + Z.to_nat (lifetime (w_drop s)))%nat
      /\ ((exists s' : world,
             simulate_drop_loop rand_stream fuel inner height width param
                                s steps = Returned s' n)
          \/ simulate_drop_loop rand_stream fuel inner height width param
                                s steps = Hung n).
Proof.
  induction fuel as [| fuel IH]; intros s steps Hfuel.
  - simpl. destruct (simulate_drop_guard height width s) eqn:G.
    + unfold simulate_drop_guard in G.
      rewrite !andb_true_iff, Z.gtb_lt in G. lia.
    + exists steps. split; [lia | left; eexists; reflexivity].
  - simpl. destruct (simulate_drop_guard height width s) eqn:G.
    + assert (Hpos : 0 < lifetime (w_drop s)).
      { unfold simulate_drop_guard in G.
        rewrite !andb_true_iff, Z.gtb_lt in G. tauto. }
      destruct (simulate_drop_body rand_stream inner height width param s)
        as [s1 | s1 |] eqn:B.
      * apply simulate_drop_body_lifetime in B.
        destruct (IH s1 (S steps)) as [n [Hn Hrun]]; [lia |].
        exists n. split; [lia | exact Hrun].
      * exists (S steps). split; [lia | left; eexists; reflexivity].
      * exists (S steps). split; [lia | right; reflexivity].
    + exists steps. split; [lia | left; eexists; reflexivity].
Qed.

(** The bound on the rounds, for every arithmetic.  A drop built by
    [simulate_erosion_detailed] starts with [lifetime = 1000]; a round that
    reaches the end of the body has decremented [lifetime] once; the loop
    goes on only while [lifetime > 0], the position is valid and
    [water > EPSILON]; and so the loop of [simulate_drop] takes at most
    1000 rounds: with fuel for 1000 rounds or more the run never lacks
    fuel, and the number of rounds it reports is at most 1000.  Whether a
    round itself ends is another matter: [Hung] is the case where a loop
    inside the body, which the source does not bound, needs more than
    [inner] rounds.  [simulate_drop_can_spin] shows that it happens and
    [simulate_drop_returns] when it does not. *)
Theorem simulate_drop_within_lifetime (fuel inner : nat) (height width : Z)
    (h : heightmap) (pos : vec2) (param : parameters) (r : nat) :
  (1000 <= fuel)%nat ->
  lifetime (new_drop pos) = 1000
  /\ (forall s s' : world,
        simulate_drop_body rand_stream inner height width param s = Next s' ->
        lifetime (w_drop s') = lifetime (w_drop s) - 1)
  /\ (forall s : world,
        simulate_drop_guard height width s = true <->
        (0 < lifetime (w_drop s)
         /\ verify_drop_pos (w_drop s) width height = true
         /\ dlt EPSILON (water (w_drop s)) = true))
  /\ exists n : nat,
       (n <= 1000)%nat
       /\ ((exists s' : world,
              simulate_drop rand_stream fuel inner height width h
                            (new_drop pos) param r = Returned s' n)
           \/ simulate_drop rand_stream fuel inner height width h
                            (new_drop pos) param r = Hung n).
Proof.
  intros Hfuel. split; [reflexivity |]. split; [| split].
  - intros s s'. apply simulate_drop_body_lifetime.
  - intros s. unfold simulate_drop_guard.
    rewrite !andb_true_iff, Z.gtb_lt. tauto.
  - unfold simulate_drop.
    destruct (simulate_drop_loop_bound inner height width param fuel
                (mk_world h (new_drop pos) r) 0%nat) as [n [Hn Hrun]].
    + simpl. lia.
    + exists n. split; [| exact Hrun]. simpl in Hn. lia.
Qed.

End Lifetime.

(** A drop on the slope [slope8], with fuel for exactly 1000 rounds. *)
Lemma simulate_drop_within_lifetime_witness :
  (1000 <= 1000)%nat
  /\ exists n : nat,
       (n <= 1000)%nat
       /\ ((exists s' : world,
              simulate_drop seeds 1000 10 8 8 slope8
                (new_drop (mk_vec2 5.5%float 4.5%float)) half_param 0
              = Returned s' n)
           \/ simulate_drop seeds 1000 10 8 8 slope8
                (new_drop (mk_vec2 5.5%float 4.5%float)) half_param 0
              = Hung n).
Proof.
  split; [apply Nat.le_refl |].
  apply (simulate_drop_within_lifetime seeds 1000 10 8 8 slope8
           (mk_vec2 5.5%float 4.5%float) half_param 0 (Nat.le_refl 1000)).
Defined.

(** That drop, in binary64: it runs down the slope for four rounds, eroding
    as it goes, and leaves the grid in the fifth. *)
Lemma simulate_drop_example_run :
  match simulate_drop seeds 1000 10 8 8 slope8
          (new_drop (mk_vec2 5.5%float 4.5%float)) half_param 0 with
  | Returned s n =>
      n = 5%nat
      /\ lifetime (w_drop s) = 995
      /\ water (w_drop s) = 0.0625%float
      /\ verify_drop_pos (w_drop s) 8 8 = false
      /\ PrimFloat.ltb (w_map s 13) (slope8 13) = true
  | _ => False
  end.
Proof. vm_compute. repeat split; reflexivity. Qed.

(* ================================================================== *)
(** * Mass on the grid, in exact arithmetic                             *)
(* ================================================================== *)

Module Mass.

Local Open Scope R_scope.

Lemma sum_upto_store_outside (n : nat) (h : heightmap) (i : Z) (v : R) :
  (i < 0 \/ Z.of_nat n <= i)%Z -> sum_upto n (store h i v) = sum_upto n h.
Proof.
  induction n as [| n IH]; intros Hi; [reflexivity |].
  simpl. rewrite IH by lia. unfold store.
  destruct (Z.eqb_spec (Z.of_nat n) i); [lia | reflexivity].
Qed.

Lemma sum_upto_store (n : nat) (h : heightmap) (i : Z) (v : R) :
  (0 <= i < Z.of_nat n)%Z ->
  sum_upto n (store h i v) = sum_upto n h - h i + v.
Proof.
  induction n as [| n IH]; intros Hi; [lia |].
  simpl.
  destruct (Z.eq_dec (Z.of_nat n) i) as [E | N].
  - rewrite sum_upto_store_outside by lia. unfold store.
    rewrite (proj2 (Z.eqb_eq _ _) E). subst i. lra.
  - rewrite IH by lia. unfold store.
    rewrite (proj2 (Z.eqb_neq _ _) N). lra.
Qed.

(** The offset of a cell of the grid lies in the block. *)
Lemma offset_in_block (width height x y : Z) :
  (0 <= x < width)%Z -> (0 <= y < height)%Z ->
  (0 <= y * width + x < Z.of_nat (Z.to_nat (width * height)))%Z.
Proof. intros Hx Hy. rewrite Z2Nat.id by nia. nia. Qed.

Lemma grid_total_H_set (width height x y : Z) (h : heightmap) (v : R) :
  (0 <= x < width)%Z -> (0 <= y < height)%Z ->
  grid_total width height (H_set h width x y v)
  = grid_total width height h - H h width x y + v.
Proof.
  intros Hx Hy. unfold grid_total, H_set, H.
  apply sum_upto_store. apply offset_in_block; assumption.
Qed.

Lemma positive_part_nonneg (a : R) : 0 <= a -> positive_part a = a.
Proof. intros Ha. unfold positive_part. destruct (Rlt_dec 0 a); lra. Qed.

Lemma positive_part_nonpos (a : R) : a <= 0 -> positive_part a = 0.
Proof. intros Ha. unfold positive_part. destruct (Rlt_dec 0 a); lra. Qed.

(** One guarded addition on a cell of the grid: the grid gains the positive
    part of [to_drop * w], [sum_dropped] gains the same, and no other cell
    changes. *)
Lemma deposit_cell_spec (width height x y : Z) (to_drop w : R)
    (h : heightmap) (sum_dropped : R) :
  (0 <= x < width)%Z -> (0 <= y < height)%Z ->
  exists h' : heightmap,
    deposit_cell width x y to_drop w (h, sum_dropped)
    = (h', sum_dropped + positive_part (to_drop * w))
    /\ grid_total width height h'
       = grid_total width height h + positive_part (to_drop * w)
    /\ (forall i : Z, i <> (y * width + x)%Z -> h' i = h i).
Proof.
  intros Hx Hy. unfold deposit_cell, positive_part. exact_ops.
  unfold Exact.ltb. destruct (Rlt_dec 0 (to_drop * w)) as [Hpos | Hneg].
  - eexists. split; [reflexivity |]. split.
    + rewrite (grid_total_H_set width height) by assumption. lra.
    + intros i Hi. unfold H_set, store.
      destruct (Z.eqb_spec i (y * width + x)); [contradiction | reflexivity].
  - exists h. split; [f_equal; lra |]. split; [lra | reflexivity].
Qed.

(** A guarded addition whose amount is not positive does nothing at all. *)
Lemma deposit_cell_nothing (width x y : Z) (to_drop w : R)
    (st : heightmap * R) :
  to_drop * w <= 0 -> deposit_cell width x y to_drop w st = st.
Proof.
  intros Hle. destruct st as [h s]. unfold deposit_cell. exact_ops.
  unfold Exact.ltb. destruct (Rlt_dec 0 (to_drop * w)); [lra | reflexivity].
Qed.

(** The bilinear weights of [simulate_deposition] add up to one whatever the
    position, so the early return is never taken and the division by
    [sum_w] changes nothing. *)
Lemma simulate_deposition_weights (width height : Z) (h : heightmap)
    (pos : vec2) (to_drop : R) :
  let x1 := Exact.to_int (vec2_x pos) in
  let y1 := Exact.to_int (vec2_y pos) in
  let x2 := MIN_int (x1 + 1) (width - 1) in
  let y2 := MIN_int (y1 + 1) (height - 1) in
  let dx := vec2_x pos - IZR x1 in
  let dy := vec2_y pos - IZR y1 in
  simulate_deposition width height h pos to_drop
  = deposit_cell width x2 y2 to_drop (dx * dy)
      (deposit_cell width x2 y1 to_drop (dx * (1 - dy))
         (deposit_cell width x1 y2 to_drop ((1 - dx) * dy)
            (deposit_cell width x1 y1 to_drop ((1 - dx) * (1 - dy))
               (h, 0)))).
Proof.
  intros x1 y1 x2 y2 dx dy. unfold simulate_deposition. exact_ops.
  fold x1 y1. fold x2 y2. fold dx dy.
  replace ((1 - dx) * (1 - dy) + (1 - dx) * dy + dx * (1 - dy) + dx * dy)
    with 1 by ring.
  unfold Exact.leb. destruct (Rle_dec 1 (1 / 100000)) as [Hle | _]; [lra |].
  replace ((1 - dx) * (1 - dy) / 1) with ((1 - dx) * (1 - dy)) by field.
  replace ((1 - dx) * dy / 1) with ((1 - dx) * dy) by field.
  replace (dx * (1 - dy) / 1) with (dx * (1 - dy)) by field.
  replace (dx * dy / 1) with (dx * dy) by field.
  reflexivity.
Qed.

(** The fractional offsets of a position with non-negative coordinates lie
    in [[0, 1)], so the four weights are not negative. *)
Lemma fraction_bounds (r : R) :
  0 <= r -> 0 <= r - IZR (Exact.to_int r) < 1.
Proof. intros Hr. destruct (ExactFacts.to_int_nonneg r Hr). lra. Qed.

(** [simulate_deposition] at a position of non-negative coordinates whose
    cell lies in the grid: the value returned is the positive part of
    [to_drop], the grid gains exactly that value, and only the cell and its
    three neighbours change. *)
Lemma simulate_deposition_spec (width height : Z) (h : heightmap)
    (pos : vec2) (to_drop : R) :
  0 <= vec2_x pos -> 0 <= vec2_y pos ->
  (to_int (vec2_x pos) < width)%Z -> (to_int (vec2_y pos) < height)%Z ->
  let x1 := to_int (vec2_x pos) in
  let y1 := to_int (vec2_y pos) in
  let x2 := MIN_int (x1 + 1) (width - 1) in
  let y2 := MIN_int (y1 + 1) (height - 1) in
  exists h' : heightmap,
    simulate_deposition width height h pos to_drop
    = (h', positive_part to_drop)
    /\ grid_total width height h'
       = grid_total width height h + positive_part to_drop
    /\ (forall i : Z,
          i <> (y1 * width + x1)%Z -> i <> (y2 * width + x1)%Z ->
          i <> (y1 * width + x2)%Z -> i <> (y2 * width + x2)%Z ->
          h' i = h i).
Proof.
  intros Hx Hy Hw Hh x1 y1 x2 y2.
  rewrite simulate_deposition_weights. exact_ops. fold x1 y1. fold x2 y2.
  pose proof (fraction_bounds _ Hx) as Hdx.
  pose proof (fraction_bounds _ Hy) as Hdy.
  fold x1 in Hdx. fold y1 in Hdy.
  set (dx := vec2_x pos - IZR x1) in *.
  set (dy := vec2_y pos - IZR y1) in *.
  assert (Hx1 : (0 <= x1 < width)%Z).
  { split; [| exact Hw].
    destruct (ExactFacts.to_int_nonneg _ Hx) as [_ Hlt].
    fold x1 in Hlt.
    destruct (Z_le_gt_dec 0 x1) as [Hok | Hbad]; [exact Hok |].
    exfalso. assert (IZR x1 <= -1) by (apply (IZR_le x1 (-1)); lia). lra. }
  assert (Hy1 : (0 <= y1 < height)%Z).
  { split; [| exact Hh].
    destruct (ExactFacts.to_int_nonneg _ Hy) as [_ Hlt].
    fold y1 in Hlt.
    destruct (Z_le_gt_dec 0 y1) as [Hok | Hbad]; [exact Hok |].
    exfalso. assert (IZR y1 <= -1) by (apply (IZR_le y1 (-1)); lia). lra. }
  assert (Hx2 : (0 <= x2 < width)%Z).
  { unfold x2, MIN_int. destruct (Z.ltb_spec (x1 + 1) (width - 1)); lia. }
  assert (Hy2 : (0 <= y2 < height)%Z).
  { unfold y2, MIN_int. destruct (Z.ltb_spec (y1 + 1) (height - 1)); lia. }
  destruct (deposit_cell_spec width height x1 y1 to_drop
              ((1 - dx) * (1 - dy)) h 0 Hx1 Hy1) as [h1 [E1 [T1 F1]]].
  rewrite E1.
  destruct (deposit_cell_spec width height x1 y2 to_drop
              ((1 - dx) * dy) h1 (0 + positive_part (to_drop * ((1 - dx) * (1 - dy))))
              Hx1 Hy2) as [h2 [E2 [T2 F2]]].
  rewrite E2.
  destruct (deposit_cell_spec width height x2 y1 to_drop
              (dx * (1 - dy)) h2
              (0 + positive_part (to_drop * ((1 - dx) * (1 - dy)))
               + positive_part (to_drop * ((1 - dx) * dy)))
              Hx2 Hy1) as [h3 [E3 [T3 F3]]].
  rewrite E3.
  destruct (deposit_cell_spec width height x2 y2 to_drop
              (dx * dy) h3
              (0 + positive_part (to_drop * ((1 - dx) * (1 - dy)))
               + positive_part (to_drop * ((1 - dx) * dy))
               + positive_part (to_drop * (dx * (1 - dy))))
              Hx2 Hy2) as [h4 [E4 [T4 F4]]].
  rewrite E4.
  assert (Hsum :
    positive_part (to_drop * ((1 - dx) * (1 - dy)))
    + positive_part (to_drop * ((1 - dx) * dy))
    + positive_part (to_drop * (dx * (1 - dy)))
    + positive_part (to_drop * (dx * dy))
    = positive_part to_drop).
  { assert (W11 : 0 <= (1 - dx) * (1 - dy)) by (apply Rmult_le_pos; lra).
    assert (W12 : 0 <= (1 - dx) * dy) by (apply Rmult_le_pos; lra).
    assert (W21 : 0 <= dx * (1 - dy)) by (apply Rmult_le_pos; lra).
    assert (W22 : 0 <= dx * dy) by (apply Rmult_le_pos; lra).
    destruct (Rlt_dec 0 to_drop) as [Hpos | Hneg].
    - rewrite (positive_part_nonneg (to_drop * ((1 - dx) * (1 - dy)))),
        (positive_part_nonneg (to_drop * ((1 - dx) * dy))),
        (positive_part_nonneg (to_drop * (dx * (1 - dy)))),
        (positive_part_nonneg (to_drop * (dx * dy))),
        (positive_part_nonneg to_drop)
        by (try apply Rmult_le_pos; lra).
      ring.
    - rewrite (positive_part_nonpos (to_drop * ((1 - dx) * (1 - dy)))),
        (positive_part_nonpos (to_drop * ((1 - dx) * dy))),
        (positive_part_nonpos (to_drop * (dx * (1 - dy)))),
        (positive_part_nonpos (to_drop * (dx * dy))),
        (positive_part_nonpos to_drop)
        by (try nra; lra).
      ring. }
  exists h4. split; [f_equal; lra |]. split; [lra |].
  intros i N11 N12 N21 N22.
  rewrite F4, F3, F2, F1 by assumption. reflexivity.
Qed.

End Mass.

(* ================================================================== *)
(** * Deposition                                                        *)
(* ================================================================== *)

Lemma to_int_three_halves : Exact.to_int (3 / 2) = 1.
Proof. apply ExactFacts.to_int_unique; simpl; lra. Qed.

(** A deposit of ten units at [(1.25, 1.5)] in binary64, where these
    numbers round nowhere: the value returned is 10 and the four cells gain
    3.75, 1.25, 3.75 and 1.25. *)
Lemma simulate_deposition_binary64_example :
  (let '(h', returned) :=
     simulate_deposition 4 4 ramp4 (mk_vec2 1.25%float 1.5%float)
                         10%float in
   (returned, map ramp4 [5; 6; 9; 10], map h' [5; 6; 9; 10]))
  = (10, [1; 2; 1; 2], [4.75; 3.25; 4.75; 3.25])%float.
Proof. vm_compute. reflexivity. Qed.




(** The same call in binary64, and the call of the amended claim's border:
    at the coordinate [2^31 - 0.5], the largest below [2^31] that is a
    double at that size, the cast is still defined and nothing is
    dropped. *)
Lemma simulate_deposition_nothing_to_drop_binary64 :
  (let '(h', returned) :=
     simulate_deposition 4 4 ramp4 (mk_vec2 1.5%float 1.5%float)
                         (-1)%float in
   (returned, map h' [5; 6; 9; 10]))
  = (0%float, map ramp4 [5; 6; 9; 10])
  /\ to_int 2147483647.5%float = INT_MAX
  /\ (let '(h', returned) :=
        simulate_deposition 4 4 ramp4 (mk_vec2 2147483647.5%float 0.5%float)
                            (-1)%float in
      returned)
     = 0%float.
Proof. vm_compute. repeat split; reflexivity. Qed.


(* ================================================================== *)
(** * The uphill move                                                   *)
(* ================================================================== *)

Section Uphill.

Variable rand_stream : nat -> Z.

Local Open Scope R_scope.

(** The two loops that re-issue a deposit are not entered when nothing is
    left to place. *)
Lemma refill_nothing_left (fuel : nat) (width height : Z) (old_pos : vec2)
    (sed : R) (h : heightmap) (to_drop : R) :
  to_drop <= EPSILON ->
  refill fuel width height old_pos sed h to_drop = Some (h, to_drop).
Proof.
  intros Hle. exact_ops.
  destruct fuel; simpl; unfold Exact.ltb;
    destruct (Rlt_dec (1 / 100000) to_drop); try lra; reflexivity.
Qed.

Lemma unload_nothing_left (fuel : nat) (width height : Z) (old_pos : vec2)
    (h : heightmap) (sed : R) :
  sed <= EPSILON ->
  unload fuel width height old_pos h sed = Some (h, sed).
Proof.
  intros Hle. exact_ops.
  destruct fuel; simpl; unfold Exact.ltb;
    destruct (Rlt_dec (1 / 100000) sed); try lra; reflexivity.
Qed.

(** What C5 says holds in exact arithmetic.  Take a round of the loop of
    [simulate_drop] (the loop condition holds) in which the new position is
    in the grid and [h_diff > 0], for a drop whose sediment is not negative.
    The body ends in [break]; the grid has gained exactly [h_diff] if the
    sediment was at least [h_diff], and the whole sediment otherwise; only
    the cell of the old position and its three neighbours have changed; and
    the loop of [simulate_drop] returns right after this round.  The first
    deposit leaves nothing to place, so neither re-issuing loop is
    entered. *)
Lemma uphill_move_deposits_and_stops (inner : nat) (height width : Z)
    (param : parameters) (s : world (D := R)) (pos : vec2) (r : nat) :
  let d := w_drop s in
  let old_pos := position d in
  let moved := mk_drop pos (direction d) (lifetime d - 1) (velocity d)
                       (water d) (sediment d) in
  let h_diff := height_difference width (w_map s) pos old_pos in
  let x1 := to_int (vec2_x old_pos) in
  let y1 := to_int (vec2_y old_pos) in
  simulate_drop_guard height width s = true ->
  new_position rand_stream inner width param s = Some (pos, r) ->
  verify_drop_pos moved width height = true ->
  0 < h_diff ->
  0 <= sediment d ->
  exists s' : world,
    simulate_drop_body rand_stream inner height width param s = Break s'
    /\ grid_total width height (w_map s')
       = grid_total width height (w_map s)
         + (if Rle_dec h_diff (sediment d) then h_diff else sediment d)
    /\ (forall i : Z,
          i <> (y1 * width + x1)%Z -> i <> ((y1 + 1) * width + x1)%Z ->
          i <> (y1 * width + (x1 + 1))%Z ->
          i <> ((y1 + 1) * width + (x1 + 1))%Z ->
          w_map s' i = w_map s i)
    /\ (forall fuel steps : nat,
          simulate_drop_loop rand_stream (S fuel) inner height width param
                             s steps = Returned s' (S steps)).
Proof.
  intros d old_pos moved h_diff x1 y1 Hguard Hnew Hvalid Hup Hsed.
  assert (Hold : verify_drop_pos d width height = true).
  { unfold simulate_drop_guard in Hguard.
    rewrite !andb_true_iff in Hguard. tauto. }
  unfold verify_drop_pos in Hold.
  rewrite !andb_true_iff, !Z.ltb_lt in Hold.
  fold d old_pos in Hold. exact_ops. fold x1 y1 in Hold.
  assert (Hx1 : (0 < x1 < width - 1)%Z) by tauto.
  assert (Hy1 : (0 < y1 < height - 1)%Z) by tauto.
  assert (Hpx : 0 <= vec2_x old_pos).
  { pose proof (ExactFacts.to_int_pos (vec2_x old_pos)) as P.
    fold x1 in P. assert (1 <= vec2_x old_pos) by (apply P; lia). lra. }
  assert (Hpy : 0 <= vec2_y old_pos).
  { pose proof (ExactFacts.to_int_pos (vec2_y old_pos)) as P.
    fold y1 in P. assert (1 <= vec2_y old_pos) by (apply P; lia). lra. }
  assert (Hx2 : MIN_int (x1 + 1) (width - 1) = (x1 + 1)%Z).
  { unfold MIN_int. destruct (Z.ltb_spec (x1 + 1) (width - 1)); lia. }
  assert (Hy2 : MIN_int (y1 + 1) (height - 1) = (y1 + 1)%Z).
  { unfold MIN_int. destruct (Z.ltb_spec (y1 + 1) (height - 1)); lia. }
  (* what one call of [simulate_deposition] at [old_pos] does *)
  assert (Hdep : forall a : R,
    exists h' : heightmap,
      simulate_deposition width height (w_map s) old_pos a
      = (h', positive_part a)
      /\ grid_total width height h'
         = grid_total width height (w_map s) + positive_part a
      /\ (forall i : Z,
            i <> (y1 * width + x1)%Z -> i <> ((y1 + 1) * width + x1)%Z ->
            i <> (y1 * width + (x1 + 1))%Z ->
            i <> ((y1 + 1) * width + (x1 + 1))%Z ->
            h' i = w_map s i)).
  { intros a.
    destruct (Mass.simulate_deposition_spec width height (w_map s) old_pos a
                Hpx Hpy) as [h' [E [T F]]];
      [exact_ops; fold x1; lia | exact_ops; fold y1; lia |].
    exists h'. split; [exact E |]. split; [exact T |].
    intros i N1 N2 N3 N4. apply F; exact_ops; fold x1 y1;
      rewrite ?Hx2, ?Hy2; assumption. }
  (* the body *)
  assert (Hbody : exists s' : world,
    simulate_drop_body rand_stream inner height width param s = Break s'
    /\ grid_total width height (w_map s')
       = grid_total width height (w_map s)
         + (if Rle_dec h_diff (sediment d) then h_diff else sediment d)
    /\ (forall i : Z,
          i <> (y1 * width + x1)%Z -> i <> ((y1 + 1) * width + x1)%Z ->
          i <> (y1 * width + (x1 + 1))%Z ->
          i <> ((y1 + 1) * width + (x1 + 1))%Z ->
          w_map s' i = w_map s i)).
  { unfold simulate_drop_body. rewrite Hnew. fold d. fold moved.
    rewrite Hvalid. cbn [negb]. fold old_pos. fold h_diff.
    exact_ops. unfold Exact.ltb at 1.
    destruct (Rlt_dec 0 h_diff) as [_ | Hbad]; [| contradiction].
    unfold uphill. exact_ops. cbn [sediment moved]. unfold Exact.leb.
    destruct (Rle_dec h_diff (sediment d)) as [Hkeep | Hall].
    - destruct (Hdep h_diff) as [h1 [E [T F]]]. rewrite E.
      rewrite Mass.positive_part_nonneg in * by lra.
      rewrite refill_nothing_left by (exact_ops; lra).
      eexists. split; [reflexivity |]. cbn [w_map]. split; assumption.
    - destruct (Hdep (sediment d)) as [h1 [E [T F]]]. rewrite E.
      rewrite Mass.positive_part_nonneg in * by lra.
      rewrite unload_nothing_left by (exact_ops; lra).
      eexists. split; [reflexivity |]. cbn [w_map]. split; assumption. }
  destruct Hbody as [s' [Hb [Ht Hf]]].
  exists s'. split; [exact Hb |]. split; [exact Ht |]. split; [exact Hf |].
  intros fuel steps. cbn [simulate_drop_loop].
  rewrite Hguard, Hb. reflexivity.
Qed.

End Uphill.

Lemma to_int_five_halves : Exact.to_int (5 / 2) = 2.
Proof. apply ExactFacts.to_int_unique; simpl; lra. Qed.

Lemma uphill_world_guard : simulate_drop_guard 4 4 uphill_world = true.
Proof.
  unfold simulate_drop_guard, verify_drop_pos, uphill_world.
  cbn [w_drop lifetime position water vec2_x vec2_y]. exact_ops.
  rewrite to_int_three_halves. unfold Exact.ltb.
  destruct (Rlt_dec (1 / 100000) 1) as [_ | Hbad]; [reflexivity |].
  exfalso. lra.
Qed.

Lemma uphill_world_new_position :
  new_position (fun _ => 0) 0 4 uphill_param uphill_world
  = Some (mk_vec2 (5 / 2)%R (3 / 2)%R, 0%nat).
Proof.
  unfold new_position, uphill_world, uphill_param.
  cbn [w_drop w_map w_rand position direction inertia vec2_x vec2_y].
  set (g := compute_gradient 4 (ramp 4) (mk_vec2 (3 / 2)%R (3 / 2)%R)).
  exact_ops.
  replace (1 * 1 - vec2_x g * (1 - 1))%R with 1%R by ring.
  replace (0 * 1 - vec2_y g * (1 - 1))%R with 0%R by ring.
  replace (1 * 1 + 0 * 0)%R with 1%R by ring.
  rewrite sqrt_1. cbn [resample]. exact_ops. unfold Exact.leb.
  destruct (Rle_dec 1 (1 / 100000)) as [Hbad | _]; [exfalso; lra |].
  cbn [vec2_x vec2_y]. f_equal. f_equal. f_equal; lra.
Qed.

Lemma uphill_world_h_diff :
  height_difference 4 (ramp 4) (mk_vec2 (5 / 2)%R (3 / 2)%R)
                    (mk_vec2 (3 / 2)%R (3 / 2)%R) = 1%R.
Proof.
  unfold height_difference. cbn [vec2_x vec2_y]. exact_ops.
  rewrite to_int_three_halves, to_int_five_halves.
  rewrite !H_ramp by lia. lra.
Qed.

(** The drop of [uphill_world] climbs from height 1 to height 2 with three
    units of sediment: the grid gains one unit and the loop returns after
    this one round. *)
Lemma uphill_move_deposits_and_stops_example :
  exists s' : world,
    simulate_drop_loop (fun _ => 0) 1 0 4 4 uphill_param uphill_world 0
    = Returned s' 1
    /\ grid_total 4 4 (w_map s') = (grid_total 4 4 (ramp 4) + 1)%R.
Proof.
  assert (Hv : verify_drop_pos
                 (mk_drop (mk_vec2 (5 / 2)%R (3 / 2)%R)
                          (direction (w_drop uphill_world))
                          (lifetime (w_drop uphill_world) - 1)
                          (velocity (w_drop uphill_world))
                          (water (w_drop uphill_world))
                          (sediment (w_drop uphill_world))) 4 4 = true).
  { unfold verify_drop_pos. cbn [position vec2_x vec2_y]. exact_ops.
    rewrite to_int_three_halves, to_int_five_halves. reflexivity. }
  assert (Hu : (0 < height_difference 4 (w_map uphill_world)
                      (mk_vec2 (5 / 2)%R (3 / 2)%R)
                      (position (w_drop uphill_world)))%R).
  { cbn [uphill_world w_map w_drop position].
    rewrite uphill_world_h_diff. lra. }
  assert (Hs : (0 <= sediment (w_drop uphill_world))%R).
  { cbn [uphill_world w_drop sediment]. lra. }
  destruct (uphill_move_deposits_and_stops (fun _ => 0) 0 4 4 uphill_param
              uphill_world (mk_vec2 (5 / 2)%R (3 / 2)%R) 0
              uphill_world_guard uphill_world_new_position Hv Hu Hs)
    as [s' [_ [Ht [_ Hl]]]].
  exists s'. split; [apply Hl |].
  rewrite Ht. cbn [uphill_world w_map w_drop position sediment].
  rewrite uphill_world_h_diff.
  destruct (Rle_dec 1 3) as [_ | Hbad]; [reflexivity | exfalso; lra].
Defined.

(** C5.  In binary64 the branch [sediment >= h_diff] deposits more than
    [h_diff] once rounding leaves a residue above [EPSILON]: its loop
    re-issues [drop.sediment], not the residue [to_drop], whereas the loop
    of the other branch re-issues what is left.  The drop [loaded_drop]
    moves from the cell [(1, 1)] to the cell [(2, 1)] of [spike], with
    [h_diff = 2^52 + 3] and as much sediment.  The weights at
    [(1.25, 1.75)] are 3/16, 9/16, 1/16 and 3/16; the four products round
    to [3 * 2^48 + 1/2], [9 * 2^48 + 3/2], [2^48 + 3/16] and
    [3 * 2^48 + 1/2], and their sum to [2^52 + 2], which the first deposit
    returns; the residue 1 is above [EPSILON]; the loop deposits the whole
    sediment a second time; then the body breaks.  The four cells
    around the old position have gained [2^53 + 5] in all, one less than
    twice [h_diff]. *)
Theorem uphill_refill_deposits_sediment_again :
  new_position (fun _ => 0) 1 4 full_inertia (mk_world spike loaded_drop 0)
  = Some (mk_vec2 2.25%float 1.75%float, 0%nat)
  /\ height_difference 4 spike (mk_vec2 2.25%float 1.75%float)
                       (mk_vec2 1.25%float 1.75%float)
     = 4503599627370499%float
  /\ snd (simulate_deposition 4 4 spike (mk_vec2 1.25%float 1.75%float)
                              4503599627370499%float)
     = 4503599627370498%float
  /\ (4503599627370499 - 4503599627370498)%float = 1%float
  /\ dlt EPSILON 1%float = true
  /\ match simulate_drop (fun _ => 0) 1000 1 4 4 spike loaded_drop
                         full_inertia 0 with
     | Returned s n =>
         n = 1%nat
         /\ map spike [5; 6; 9; 10]
            = [0; 4503599627370499; 0; 0]%float
         /\ map (w_map s) [5; 6; 9; 10]
            = [1688849860263937; 5066549580791811;
               5066549580791811; 1688849860263937]%float
         /\ (1688849860263937 + (5066549580791811 - 4503599627370499)
             + 5066549580791811 + 1688849860263937
             = 2 * 4503599627370499 - 1)%Z
     | _ => False
     end.
Proof. vm_compute. repeat split; reflexivity. Qed.

(* ================================================================== *)
(** * Erosion                                                           *)
(* ================================================================== *)

Module Erosion.

Local Open Scope R_scope.

Lemma erosion_weight_sound (width height : Z) (old_pos : vec2)
    (radius dx dy : Z) :
  sound_weight width height
    (erosion_weight width height old_pos radius dx dy).
Proof.
  unfold sound_weight, erosion_weight.
  destruct (_ && _) eqn:B; [| discriminate].
  exact_ops. unfold Exact.leb.
  destruct (Rle_dec _ _) as [Hle | _]; [| discriminate].
  intros _. cbn [weight_x weight_y weight_w].
  rewrite !andb_true_iff, !Z.leb_le, !Z.ltb_lt in B.
  repeat split; try lia. lra.
Qed.

Lemma erosion_weights_sound (width height : Z) (old_pos : vec2) (radius : Z) :
  Forall (sound_weight width height)
         (erosion_weights width height old_pos radius).
Proof.
  unfold erosion_weights. apply Forall_flat_map. apply Forall_forall.
  intros dx _. apply Forall_map. apply Forall_forall.
  intros dy _. apply erosion_weight_sound.
Qed.

Lemma total_weight_from (ws : list weight) (start : R) :
  fold_left (fun tw wt => if used wt then dadd tw (weight_w wt) else tw)
            ws start
  = start + used_sum ws.
Proof.
  revert start. induction ws as [| wt ws IH]; intros start.
  - simpl. lra.
  - simpl. rewrite IH. exact_ops. destruct (used wt); lra.
Qed.

Lemma total_weight_used_sum (ws : list weight) :
  total_weight ws = used_sum ws.
Proof.
  unfold total_weight. rewrite total_weight_from. exact_ops. lra.
Qed.

Lemma used_sum_nonneg (width height : Z) (ws : list weight) :
  Forall (sound_weight width height) ws -> 0 <= used_sum ws.
Proof.
  induction 1 as [| wt ws Hwt _ IH]; simpl; [lra |].
  destruct (used wt) eqn:U; [| exact IH].
  destruct (Hwt U) as [_ [_ Hw]]. lra.
Qed.

(** The loop that applies the erosion takes, in all,
    [gain * (used_sum ws / total)] from the grid and credits the same to
    the sediment of the drop. *)
Lemma erode_cells_total (width height : Z) (gain total : R)
    (ws : list weight) :
  Forall (sound_weight width height) ws ->
  forall (h : heightmap) (sed : R),
    grid_total width height
      (fst (fold_left (erode_cell width gain total) ws (h, sed)))
    = grid_total width height h - gain * (used_sum ws / total)
    /\ snd (fold_left (erode_cell width gain total) ws (h, sed))
       = sed + gain * (used_sum ws / total).
Proof.
  induction 1 as [| wt ws Hwt _ IH]; intros h sed.
  - simpl. unfold Rdiv. split; ring.
  - cbn [fold_left]. unfold erode_cell at 2 4.
    destruct (used wt) eqn:U.
    + destruct (Hwt U) as [Hx [Hy _]].
      destruct (IH (H_set h width (weight_x wt) (weight_y wt)
                      (dsub (H h width (weight_x wt) (weight_y wt))
                            (dmul (dmul gain (ddiv (weight_w wt) total))
                                  (of_int 1))))
                   (dadd sed (dmul (dmul gain (ddiv (weight_w wt) total))
                                   (of_int 1))))
        as [IHt IHs].
      rewrite IHt, IHs.
      rewrite (Mass.grid_total_H_set width height) by assumption.
      exact_ops. simpl used_sum. rewrite U. unfold Rdiv. split; ring.
    + destruct (IH h sed) as [IHt IHs]. rewrite IHt, IHs.
      simpl used_sum. rewrite U. split; reflexivity.
Qed.

End Erosion.

(** Where [erode] sits in [simulate_drop]: in a round that does not climb
    and whose drop is under capacity, the heightmap and the sediment that
    the round leaves are those of [erode], for the gain
    [MIN((c - sediment) * erosion, -h_diff)]. *)
Lemma downhill_under_capacity {D : Type} {ops : DoubleOps D}
    (height width : Z) (param : parameters) (h : heightmap) (old_pos : vec2)
    (drop : drop) (h_diff : D) (r : nat) :
  let c := dmul (dmul (dmul (MAX (dneg h_diff) (slope param)) (velocity drop))
                      (water drop))
                (capacity param) in
  let gain := MIN (dmul (dsub c (sediment drop)) (erosion param))
                  (dneg h_diff) in
  dle c (sediment drop) = false ->
  exists s' : world,
    downhill height width param h old_pos drop h_diff r = Next s'
    /\ w_map s'
       = fst (erode width height h old_pos (radius param) gain
                    (sediment drop))
    /\ sediment (w_drop s')
       = snd (erode width height h old_pos (radius param) gain
                    (sediment drop)).
Proof.
  intros c gain Hunder. unfold downhill. fold c. rewrite Hunder. fold gain.
  destruct (erode width height h old_pos (radius param) gain (sediment drop))
    as [h1 sed].
  eexists. split; [reflexivity |]. split; reflexivity.
Qed.

Lemma In_range_incl (lo hi k : Z) : lo <= k <= hi -> In k (range_incl lo hi).
Proof.
  intros Hk. unfold range_incl, range.
  apply in_map_iff. exists (k - lo). split; [lia |].
  apply in_map_iff. exists (Z.to_nat (k - lo)). split; [lia |].
  apply in_seq. lia.
Qed.

Lemma used_sum_member (width height : Z) (ws : list (weight (D := R)))
    (wt : weight) :
  Forall (sound_weight width height) ws -> In wt ws -> used wt = true ->
  (weight_w wt <= used_sum ws)%R.
Proof.
  induction 1 as [| wt' ws Hwt Hws IH]; intros Hin U; [contradiction |].
  simpl. destruct Hin as [-> | Hin].
  - rewrite U. pose proof (Erosion.used_sum_nonneg width height ws Hws). lra.
  - specialize (IH Hin U). destruct (used wt') eqn:U'; [| exact IH].
    destruct (Hwt U') as [_ [_ Hw]]. lra.
Qed.

(** The disc always has weight when the old position is in the grid and the
    radius is at least 1: the entry of the offset [(0, 0)] is used and
    weighs [radius].  This is the situation of every erosion in
    [simulate_drop], whose loop condition keeps the position inside. *)
Lemma total_weight_positive (width height : Z) (old_pos : vec2 (D := R))
    (radius : Z) :
  (0 <= vec2_x old_pos)%R -> (0 <= vec2_y old_pos)%R ->
  to_int (vec2_x old_pos) < width -> to_int (vec2_y old_pos) < height ->
  1 <= radius ->
  (0 < total_weight (erosion_weights width height old_pos radius))%R.
Proof.
  intros Hx Hy Hw Hh Hr. exact_ops.
  rewrite Erosion.total_weight_used_sum.
  set (wt := erosion_weight width height old_pos radius 0 0).
  assert (Hin : In wt (erosion_weights width height old_pos radius)).
  { unfold erosion_weights. apply in_flat_map. exists 0.
    split; [apply In_range_incl; lia |].
    apply in_map. apply In_range_incl. lia. }
  assert (Hwt : used wt = true /\ weight_w wt = IZR radius).
  { unfold wt, erosion_weight. exact_ops.
    replace (vec2_x old_pos + 0)%R with (vec2_x old_pos) by ring.
    replace (vec2_y old_pos + 0)%R with (vec2_y old_pos) by ring.
    destruct (ExactFacts.to_int_nonneg _ Hx) as [_ Hxlt].
    destruct (ExactFacts.to_int_nonneg _ Hy) as [_ Hylt].
    assert (0 <= Exact.to_int (vec2_x old_pos)).
    { destruct (Z_le_gt_dec 0 (Exact.to_int (vec2_x old_pos))) as [? | Hbad];
        [assumption |].
      exfalso.
      assert (IZR (Exact.to_int (vec2_x old_pos)) <= -1)%R
        by (apply (IZR_le _ (-1)); lia).
      lra. }
    assert (0 <= Exact.to_int (vec2_y old_pos)).
    { destruct (Z_le_gt_dec 0 (Exact.to_int (vec2_y old_pos))) as [? | Hbad];
        [assumption |].
      exfalso.
      assert (IZR (Exact.to_int (vec2_y old_pos)) <= -1)%R
        by (apply (IZR_le _ (-1)); lia).
      lra. }
    replace ((0 <=? Exact.to_int (vec2_x old_pos))
             && (Exact.to_int (vec2_x old_pos) <? width)
             && (0 <=? Exact.to_int (vec2_y old_pos))
             && (Exact.to_int (vec2_y old_pos) <? height)) with true
      by (symmetry; rewrite !andb_true_iff, !Z.leb_le, !Z.ltb_lt; lia).
    change (0 * 0 + 0 * 0) with 0. rewrite sqrt_0. unfold Exact.leb.
    assert (1 <= IZR radius)%R by (apply (IZR_le 1); exact Hr).
    destruct (Rle_dec 0 (IZR radius)) as [_ | Hbad]; [| exfalso; lra].
    cbn [used weight_w]. split; [reflexivity | lra]. }
  destruct Hwt as [U W].
  pose proof (used_sum_member width height _ wt
                (Erosion.erosion_weights_sound width height old_pos radius)
                Hin U) as Hge.
  assert (1 <= IZR radius)%R by (apply (IZR_le 1); exact Hr).
  lra.
Qed.

(** The erosion of one unit with radius 1 in binary64: the cell of the
    drop weighs 1, its four neighbours lie at distance 1 and weigh 0, the
    diagonal cells are outside the disc; the cell of the drop, at offset 5,
    loses the whole unit, which the drop gains. *)
Lemma erode_binary64_example :
  (let '(h', sed) :=
     erode 4 4 ramp4 (mk_vec2 1.5%float 1.5%float) 1 1%float 0%float in
   (sed,
    total_weight (erosion_weights 4 4 (mk_vec2 1.5%float 1.5%float) 1),
    map ramp4 [1; 4; 5; 6; 9], map h' [1; 4; 5; 6; 9]))
  = (1, 1, [1; 0; 1; 2; 1], [1; 0; 0; 2; 1])%float.
Proof. vm_compute. reflexivity. Qed.

(* ================================================================== *)
(** * Terrain generation                                                *)
(* ================================================================== *)

(** C1.  With no boss the grid stays at zero, [min] and [max] are both zero,
    and the normalization divides zero by zero: in binary64 every cell of a
    grid of 2 by 2 cells ends as a NaN, whatever the generator draws.  The
    function has no test on [max - min]. *)
Theorem generate_without_boss_is_nan (rand_stream : nat -> Z)
    (exp2 : float -> float) :
  map (fun i =>
         PrimFloat.is_nan
           (generate_random_heightgaussian rand_stream exp2 2 2
              (fun _ => 0%float) 0 10
              (mk_vec2 5%float 20%float) (mk_vec2 1%float 15%float) i))
      (range 4)
  = [true; true; true; true].
Proof. vm_compute. reflexivity. Qed.

Section Frame.

Context {D : Type} {ops : DoubleOps D}.
Variable rand_stream : nat -> Z.
Variable exp2 : D -> D.

Lemma store_other (h : heightmap) (i j : Z) (v : D) :
  i <> j -> store h j v i = h i.
Proof.
  intros N. unfold store. destruct (Z.eqb_spec i j); [contradiction |].
  reflexivity.
Qed.

(** A loop over cells whose body writes the cell it visits, and nothing
    else, leaves every offset that is not visited as it was. *)
Lemma fold_cells_frame (height : Z)
    (f : heightmap (D := D) -> Z * Z -> heightmap (D := D))
    (i : Z) (cs : list (Z * Z)) :
  (forall (h : heightmap) (c : Z * Z),
      i <> at2 height (fst c) (snd c) -> f h c i = h i) ->
  ~ In i (map (fun c => at2 height (fst c) (snd c)) cs) ->
  forall h : heightmap, fold_left f cs h i = h i.
Proof.
  intros Hf. induction cs as [| c cs IH]; intros Hnot h; [reflexivity |].
  simpl in *. rewrite IH by tauto. apply Hf. intros E. apply Hnot. left.
  symmetry. exact E.
Qed.

Lemma clear_cell_frame (height : Z) (h : heightmap (D := D)) (c : Z * Z)
    (i : Z) :
  i <> at2 height (fst c) (snd c) -> clear_cell height h c i = h i.
Proof. destruct c as [x y]. intros N. apply store_other. exact N. Qed.

Lemma boss_cell_frame (height : Z) (center : vec2) (gw amp : D)
    (h : heightmap) (c : Z * Z) (i : Z) :
  i <> at2 height (fst c) (snd c) ->
  boss_cell exp2 height center gw amp h c i = h i.
Proof. destruct c as [x y]. intros N. apply store_other. exact N. Qed.

Lemma normalize_cell_frame (height : Z) (min max : D) (h : heightmap)
    (c : Z * Z) (i : Z) :
  i <> at2 height (fst c) (snd c) ->
  normalize_cell height min max h c i = h i.
Proof. destruct c as [x y]. intros N. apply store_other. exact N. Qed.

Lemma scale_cells_frame (height scale : Z) (i : Z) (cs : list (Z * Z)) :
  ~ In i (map (fun c => at2 height (fst c) (snd c)) cs) ->
  forall st : heightmap * D * D,
    fst (fst (fold_left (scale_cell height scale) cs st)) i
    = fst (fst st) i.
Proof.
  induction cs as [| c cs IH]; intros Hnot st; [reflexivity |].
  simpl in *. rewrite IH by tauto.
  destruct st as [[h mn] mx]. destruct c as [x y]. cbn [scale_cell fst snd].
  apply store_other. intros E. apply Hnot. left. symmetry. exact E.
Qed.

Lemma add_bosses_frame (width height : Z) (wr ar : vec2) (i : Z) :
  ~ In i (visited width height) ->
  forall (n : nat) (h : heightmap) (r : nat),
    fst (add_bosses rand_stream exp2 n width height wr ar h r) i = h i.
Proof.
  intros Hnot. induction n as [| n IH]; intros h r; [reflexivity |].
  cbn [add_bosses]. unfold random_vec2. rewrite IH.
  apply (fold_cells_frame height); [| exact Hnot].
  intros h0 c N. apply boss_cell_frame. exact N.
Qed.

(** [generate_random_heightgaussian] never writes an offset outside
    [visited width height]. *)
Lemma generate_frame (width height : Z) (h : heightmap)
    (num_bosses scale : Z) (wr ar : vec2) (i : Z) :
  ~ In i (visited width height) ->
  generate_random_heightgaussian rand_stream exp2 width height h num_bosses
                                 scale wr ar i
  = h i.
Proof.
  intros Hnot. unfold generate_random_heightgaussian.
  destruct (add_bosses _ _ _ _ _ _ _ _ _) as [h1 r1] eqn:B.
  unfold scale_and_normalize.
  destruct (fold_left (scale_cell height scale) _ _) as [[h2 mn] mx] eqn:S.
  rewrite (fold_cells_frame height);
    [| intros h0 c N; apply normalize_cell_frame; exact N | exact Hnot].
  change h2 with (fst (fst (h2, mn, mx))). rewrite <- S.
  rewrite scale_cells_frame by exact Hnot. cbn [fst].
  change h1 with (fst (h1, r1)). rewrite <- B.
  rewrite add_bosses_frame by exact Hnot.
  apply (fold_cells_frame height); [| exact Hnot].
  intros h0 c N. apply clear_cell_frame. exact N.
Qed.

(** C7 fails on a grid that is not square.  For [width = 3] and
    [height = 2] the loops run [x] over [0, 1] and [y] over [0, 1, 2] and
    reach [heightmap[x][y]] at the offsets [2 * x + y]: the offset 2 is
    visited twice and the offset 5, the last cell of the grid, never.  That
    cell keeps what the block held before the call, for every number of
    bosses and every draw. *)
Theorem generate_skips_a_cell (h : heightmap) (num_bosses scale : Z)
    (wr ar : vec2) :
  visited 3 2 = [0; 1; 2; 2; 3; 4]
  /\ generate_random_heightgaussian rand_stream exp2 3 2 h num_bosses scale
                                    wr ar 5
     = h 5.
Proof.
  split; [reflexivity |].
  apply generate_frame. change (visited 3 2) with [0; 1; 2; 2; 3; 4].
  intros Hin. repeat destruct Hin as [Hin | Hin]; try discriminate Hin.
  exact Hin.
Qed.

End Frame.

(** On a grid that is higher than wide the same loops leave the block: for
    [width = 2] and [height = 3] they write the offsets 6 and 7 of a block
    of 6 doubles, and never the offsets 2 and 5. *)
Lemma generate_leaves_the_block :
  visited 2 3 = [0; 1; 3; 4; 6; 7] /\ 2 * 3 = 6.
Proof. split; reflexivity. Qed.

(* ------------------------------------------------------------------ *)
(** ** Normalization on a square grid, in exact arithmetic              *)
(* ------------------------------------------------------------------ *)

Module Square.

Local Open Scope R_scope.

(** *** The offsets of a square grid are visited once each, in order *)

Lemma seq_shifted (len s t : nat) :
  map Z.of_nat (seq (s + t) len)
  = map (fun k => (Z.of_nat s + k)%Z) (map Z.of_nat (seq t len)).
Proof.
  revert t. induction len as [| len IH]; intros t; [reflexivity |].
  cbn [seq map]. f_equal; [lia |].
  replace (S (s + t)) with (s + S t)%nat by lia. apply IH.
Qed.

Lemma range_app (a b : Z) :
  (0 <= a)%Z -> (0 <= b)%Z ->
  range (a + b) = range a ++ map (fun k => (a + k)%Z) (range b).
Proof.
  intros Ha Hb. unfold range.
  rewrite Z2Nat.inj_add by assumption.
  rewrite seq_app, map_app. f_equal.
  replace (0 + Z.to_nat a)%nat with (Z.to_nat a + 0)%nat by lia.
  rewrite seq_shifted. rewrite Z2Nat.id by assumption. reflexivity.
Qed.

Lemma rows_in_order (n : Z) (k : nat) :
  (0 <= n)%Z ->
  flat_map (fun x => map (fun y => at2 n x y) (range n))
           (map Z.of_nat (seq 0 k))
  = range (Z.of_nat k * n).
Proof.
  intros Hn. induction k as [| k IH]; [reflexivity |].
  rewrite seq_S, map_app, flat_map_app, IH. cbn [map flat_map Nat.add].
  rewrite app_nil_r.
  replace (Z.of_nat (S k) * n)%Z with (Z.of_nat k * n + n)%Z by lia.
  rewrite range_app by nia. reflexivity.
Qed.

Lemma visited_square (n : Z) : (0 <= n)%Z -> visited n n = range (n * n).
Proof.
  intros Hn. unfold visited, cells.
  assert (Hrows : forall rows : list Z,
    map (fun c => at2 n (fst c) (snd c))
        (flat_map (fun x => map (fun y => (x, y)) (range n)) rows)
    = flat_map (fun x => map (fun y => at2 n x y) (range n)) rows).
  { induction rows as [| x rows IH]; [reflexivity |].
    cbn [flat_map]. rewrite map_app, IH, map_map. reflexivity. }
  rewrite Hrows. unfold range at 2.
  rewrite rows_in_order by assumption.
  rewrite Z2Nat.id by assumption. reflexivity.
Qed.

(** A loop over the cells whose body depends on the offset only is a loop
    over the visited offsets. *)
Lemma fold_cells_offsets {A : Type} (height : Z) (f : A -> Z * Z -> A)
    (g : A -> Z -> A) (cs : list (Z * Z)) :
  (forall a c, f a c = g a (at2 height (fst c) (snd c))) ->
  forall a : A,
    fold_left f cs a
    = fold_left g (map (fun c => at2 height (fst c) (snd c)) cs) a.
Proof.
  intros Hfg. induction cs as [| c cs IH]; intros a; [reflexivity |].
  cbn [fold_left map]. rewrite Hfg. apply IH.
Qed.

Lemma scale_cell_offset (height scale : Z) (st : heightmap * R * R)
    (c : Z * Z) :
  scale_cell height scale st c
  = scale_offset scale st (at2 height (fst c) (snd c)).
Proof.
  destruct st as [[h mn] mx]. destruct c as [x y].
  unfold scale_cell, scale_offset. exact_ops. cbn [fst snd].
  unfold Exact.ltb.
  destruct (Rlt_dec mx _), (Rlt_dec _ mn); reflexivity.
Qed.

Lemma normalize_cell_offset (height : Z) (mn mx : R) (h : heightmap)
    (c : Z * Z) :
  normalize_cell height mn mx h c
  = normalize_offset mn mx h (at2 height (fst c) (snd c)).
Proof. destruct c as [x y]. reflexivity. Qed.

Lemma scale_loop (scale : Z) (h : heightmap) (start : R) (k : nat) :
  scaled scale h start k
    (fold_left (scale_offset scale) (map Z.of_nat (seq 0 k))
               (h, start, start)).
Proof.
  induction k as [| k IH].
  - cbn [seq map fold_left]. constructor; cbn [fst snd]; intros; try lia;
      try lra; try reflexivity; left; reflexivity.
  - rewrite seq_S, map_app, fold_left_app. cbn [Nat.add map fold_left].
    destruct (fold_left (scale_offset scale) (map Z.of_nat (seq 0 k))
                        (h, start, start)) as [[h' mn] mx].
    destruct IH as [Hdone Hrest Hbounds Hstart Hmin Hmax].
    cbn [fst snd] in *. unfold scale_offset.
    assert (Hk : h' (Z.of_nat k) = h (Z.of_nat k)) by (apply Hrest; lia).
    rewrite Hk. set (v := h (Z.of_nat k) * IZR scale).
    constructor; cbn [fst snd].
    + intros i Hi. unfold store. destruct (Z.eqb_spec i (Z.of_nat k)) as [-> | N].
      * reflexivity.
      * apply Hdone. lia.
    + intros i Hi. unfold store. destruct (Z.eqb_spec i (Z.of_nat k)) as [-> | N].
      * lia.
      * apply Hrest. lia.
    + intros i Hi. destruct (Z.eq_dec i (Z.of_nat k)) as [-> | N].
      * fold v. destruct (Rlt_dec v mn), (Rlt_dec mx v); lra.
      * assert (Hi' : (0 <= i < Z.of_nat k)%Z) by lia.
        specialize (Hbounds i Hi').
        destruct (Rlt_dec v mn), (Rlt_dec mx v); lra.
    + destruct (Rlt_dec v mn), (Rlt_dec mx v); lra.
    + destruct (Rlt_dec v mn).
      * right. exists (Z.of_nat k). split; [lia | reflexivity].
      * destruct Hmin as [Hmin | [i [Hi Hmin]]]; [left; exact Hmin |].
        right. exists i. split; [lia | exact Hmin].
    + destruct (Rlt_dec mx v).
      * right. exists (Z.of_nat k). split; [lia | reflexivity].
      * destruct Hmax as [Hmax | [i [Hi Hmax]]]; [left; exact Hmax |].
        right. exists i. split; [lia | exact Hmax].
Qed.

Lemma normalize_loop (mn mx : R) (h : heightmap) (k : nat) (i : Z) :
  fold_left (normalize_offset mn mx) (map Z.of_nat (seq 0 k)) h i
  = if (0 <=? i)%Z && (i <? Z.of_nat k)%Z
    then (h i - mn) / (mx - mn) * 255
    else h i.
Proof.
  induction k as [| k IH].
  - cbn [seq map fold_left].
    destruct (Z.leb_spec 0 i), (Z.ltb_spec i (Z.of_nat 0)); cbn; try lia;
      reflexivity.
  - rewrite seq_S, map_app, fold_left_app. cbn [Nat.add map fold_left].
    unfold normalize_offset at 1. unfold store.
    destruct (Z.eqb_spec i (Z.of_nat k)) as [-> | N].
    + rewrite IH.
      destruct (Z.leb_spec 0 (Z.of_nat k)),
               (Z.ltb_spec (Z.of_nat k) (Z.of_nat k)),
               (Z.ltb_spec (Z.of_nat k) (Z.of_nat (S k)));
        cbn; try lia; reflexivity.
    + rewrite IH.
      destruct (Z.leb_spec 0 i), (Z.ltb_spec i (Z.of_nat k)),
               (Z.ltb_spec i (Z.of_nat (S k)));
        cbn; try lia; reflexivity.
Qed.

End Square.

(** The last two loop nests on a square grid of [n] by [n] cells whose
    scaled values are not all equal: every cell ends in [[0, 255]], a cell
    that held the minimum ends at 0 and a cell that held the maximum ends at
    255. *)
Lemma scale_and_normalize_square (n scale : Z) (h : heightmap (D := R)) :
  0 < n ->
  (exists i j : Z,
      0 <= i < n * n /\ 0 <= j < n * n
      /\ (h i * IZR scale)%R <> (h j * IZR scale)%R) ->
  (forall i : Z,
      0 <= i < n * n ->
      (0 <= scale_and_normalize n n scale h i <= 255)%R)
  /\ (exists i : Z,
         0 <= i < n * n /\ scale_and_normalize n n scale h i = 0%R)
  /\ (exists i : Z,
         0 <= i < n * n /\ scale_and_normalize n n scale h i = 255%R).
Proof.
  intros Hn [a [b [Ha [Hb Hab]]]].
  unfold scale_and_normalize. exact_ops.
  change (at2 n 0 0) with (0 * n + 0). replace (0 * n + 0) with 0 by lia.
  rewrite (Square.fold_cells_offsets n _ (scale_offset scale))
    by apply Square.scale_cell_offset.
  fold (visited n n). rewrite Square.visited_square by lia. unfold range.
  pose proof (Square.scale_loop scale h (h 0%Z * IZR scale)%R
                (Z.to_nat (n * n))) as Hs.
  destruct (fold_left (scale_offset scale) _ _) as [[h1 mn] mx].
  destruct Hs as [Hdone Hrest Hbounds Hstart Hmin Hmax].
  cbn [fst snd] in *. rewrite Z2Nat.id in * by nia.
  assert (Hnorm : forall i : Z,
    0 <= i < n * n ->
    fold_left (normalize_cell n mn mx) (cells n n) h1 i
    = ((h i * IZR scale - mn) / (mx - mn) * 255)%R).
  { intros i Hi.
    rewrite (Square.fold_cells_offsets n _ (normalize_offset mn mx))
      by apply Square.normalize_cell_offset.
    fold (visited n n). rewrite Square.visited_square by lia. unfold range.
    rewrite Square.normalize_loop. rewrite Z2Nat.id by nia.
    destruct (Z.leb_spec 0 i), (Z.ltb_spec i (n * n)); cbn; try lia.
    rewrite Hdone by lia. reflexivity. }
  assert (Hlt : (mn < mx)%R).
  { pose proof (Hbounds a Ha). pose proof (Hbounds b Hb).
    destruct (Rlt_dec mn mx) as [? | Hge]; [assumption |].
    exfalso. apply Hab. lra. }
  assert (H0 : 0 <= 0 < n * n) by nia.
  assert (Hmin' : exists i : Z,
             0 <= i < n * n /\ mn = (h i * IZR scale)%R).
  { destruct Hmin as [E | [i [Hi E]]];
      [exists 0; split; assumption | exists i; split; assumption]. }
  assert (Hmax' : exists i : Z,
             0 <= i < n * n /\ mx = (h i * IZR scale)%R).
  { destruct Hmax as [E | [i [Hi E]]];
      [exists 0; split; assumption | exists i; split; assumption]. }
  split; [| split].
  - intros i Hi. rewrite Hnorm by assumption.
    pose proof (Hbounds i Hi) as [Hlo Hhi].
    set (v := (h i * IZR scale)%R) in *.
    assert (Hq : (0 <= (v - mn) / (mx - mn) <= 1)%R).
    { split.
      - apply Rmult_le_pos; [lra |].
        apply Rlt_le, Rinv_0_lt_compat. lra.
      - apply (Rmult_le_reg_r (mx - mn)); [lra |].
        unfold Rdiv. rewrite Rmult_assoc, Rinv_l by lra. lra. }
    lra.
  - destruct Hmin' as [i [Hi E]]. exists i. split; [exact Hi |].
    rewrite Hnorm by assumption. rewrite <- E.
    unfold Rdiv. replace (mn - mn)%R with 0%R by ring. ring.
  - destruct Hmax' as [i [Hi E]]. exists i. split; [exact Hi |].
    rewrite Hnorm by assumption. rewrite <- E. field. lra.
Qed.

(** The grid [ramp 2] of 2 by 2 cells, scaled by 10, holds 0 and 10: it
    normalizes to 0 and 255. *)
Lemma scale_and_normalize_square_example :
  (forall i : Z,
      0 <= i < 2 * 2 -> (0 <= scale_and_normalize 2 2 10 (ramp 2) i <= 255)%R)
  /\ (exists i : Z,
         0 <= i < 2 * 2 /\ scale_and_normalize 2 2 10 (ramp 2) i = 0%R)
  /\ (exists i : Z,
         0 <= i < 2 * 2 /\ scale_and_normalize 2 2 10 (ramp 2) i = 255%R).
Proof.
  apply scale_and_normalize_square; [lia |].
  exists 0, 1. split; [lia |]. split; [lia |].
  unfold ramp. change (0 mod 2) with 0. change (1 mod 2) with 1. lra.
Defined.

(** The claim of C7 on a square grid, in exact arithmetic: after
    [generate_random_heightgaussian] on [n] by [n] cells, for any number of
    bosses, when the heights accumulated by the bosses do not all scale to
    the same value, every cell lies in [[0, 255]], some cell is 0 and some
    cell is 255. *)
Lemma generate_square_range (rand_stream : nat -> Z) (exp2 : R -> R)
    (n : Z) (h : heightmap (D := R)) (num_bosses scale : Z)
    (wr ar : vec2) :
  let bosses :=
    fst (add_bosses rand_stream exp2 (Z.to_nat num_bosses) n n wr ar
           (fold_left (clear_cell n) (cells n n) h) 0) in
  let g := generate_random_heightgaussian rand_stream exp2 n n h num_bosses
             scale wr ar in
  0 < n ->
  (exists i j : Z,
      0 <= i < n * n /\ 0 <= j < n * n
      /\ (bosses i * IZR scale)%R <> (bosses j * IZR scale)%R) ->
  (forall i : Z, 0 <= i < n * n -> (0 <= g i <= 255)%R)
  /\ (exists i : Z, 0 <= i < n * n /\ g i = 0%R)
  /\ (exists i : Z, 0 <= i < n * n /\ g i = 255%R).
Proof.
  intros bosses g Hn Hne. unfold g, generate_random_heightgaussian.
  unfold bosses in Hne.
  destruct (add_bosses _ _ _ _ _ _ _ _ _) as [h1 r1].
  cbn [fst] in Hne. apply scale_and_normalize_square; assumption.
Qed.

(* ================================================================== *)
(** * More on one drop: what a run keeps                                *)
(* ================================================================== *)

(** The cell of a position that [verify_drop_pos] accepts. *)
Lemma verify_drop_pos_cells {D : Type} {ops : DoubleOps D} (d : drop)
    (width height : Z) :
  verify_drop_pos d width height = true ->
  0 < to_int (vec2_x (position d)) < width - 1
  /\ 0 < to_int (vec2_y (position d)) < height - 1.
Proof.
  unfold verify_drop_pos. rewrite !andb_true_iff, !Z.ltb_lt. tauto.
Qed.

Section DropRun.

Context {D : Type} {ops : DoubleOps D}.
Variable rand_stream : nat -> Z.
Variables (inner : nat) (height width : Z) (param : parameters (D := D)).

(** Reasoning along the loop of [simulate_drop]: [Inv] holds before every
    round, [Post] is what the run ends with, after a [break] or when the loop
    condition fails. *)
Lemma simulate_drop_loop_rule (Inv Post : world -> nat -> Prop) :
  (forall (s s' : world) (k : nat),
      simulate_drop_guard height width s = true -> Inv s k ->
      simulate_drop_body rand_stream inner height width param s = Next s' ->
      Inv s' (S k)) ->
  (forall (s s' : world) (k : nat),
      simulate_drop_guard height width s = true -> Inv s k ->
      simulate_drop_body rand_stream inner height width param s = Break s' ->
      Post s' (S k)) ->
  (forall (s : world) (k : nat), Inv s k -> Post s k) ->
  forall (fuel : nat) (s : world) (k : nat),
    Inv s k ->
    match simulate_drop_loop rand_stream fuel inner height width param s k
    with
    | Returned s' n => Post s' n
    | _ => True
    end.
Proof.
  intros Hnext Hbreak Hend. induction fuel as [| fuel IH]; intros s k HI.
  - simpl. destruct (simulate_drop_guard height width s); [exact I |].
    apply Hend. exact HI.
  - simpl. destruct (simulate_drop_guard height width s) eqn:G.
    + destruct (simulate_drop_body rand_stream inner height width param s)
        as [s1 | s1 |] eqn:B.
      * apply IH. apply (Hnext s s1 k G HI B).
      * apply (Hbreak s s1 k G HI B).
      * exact I.
    + apply Hend. exact HI.
Qed.

(** The outcome of a round, read off the body: where it ends and with which
    drop. *)
Lemma simulate_drop_body_fields (s s' : world) :
  simulate_drop_body rand_stream inner height width param s = Next s'
  \/ simulate_drop_body rand_stream inner height width param s = Break s' ->
  direction (w_drop s') = direction (w_drop s)
  /\ lifetime (w_drop s') = lifetime (w_drop s) - 1.
Proof.
  unfold simulate_drop_body.
  destruct (new_position rand_stream inner width param s) as [[pos r] |];
    [| intros [E | E]; discriminate E].
  destruct (negb _).
  - intros [E | E]; [discriminate E |]. injection E as <-. split; reflexivity.
  - destruct (dlt d0 _).
    + unfold uphill. destruct (dle _ _).
      * destruct (simulate_deposition _ _ _ _ _) as [h1 dropped].
        destruct (refill _ _ _ _ _ _ _) as [[h2 t] |];
          intros [E | E]; try discriminate E.
        injection E as <-. split; reflexivity.
      * destruct (simulate_deposition _ _ _ _ _) as [h1 dropped].
        destruct (unload _ _ _ _ _ _) as [[h2 t] |];
          intros [E | E]; try discriminate E.
        injection E as <-. split; reflexivity.
    + unfold downhill.
      match goal with
      | |- context [let '(a, b) := ?e in _] => destruct e as [h1 sed]
      end.
      intros [E | E]; [| discriminate E]. injection E as <-.
      split; reflexivity.
Qed.

(** X1.  Whatever the arithmetic, a run of [simulate_drop] that returns
    after [n] rounds hands back a drop whose [direction] is the one it was
    given, and whose [lifetime] has gone down by exactly [n]: the body
    computes a new direction for each move and never stores it. *)
Theorem simulate_drop_keeps_direction (fuel : nat) (h : heightmap)
    (d : drop) (r : nat) :
  match simulate_drop rand_stream fuel inner height width h d param r with
  | Returned s' n =>
      direction (w_drop s') = direction d
      /\ lifetime (w_drop s') = lifetime d - Z.of_nat n
  | _ => True
  end.
Proof.
  unfold simulate_drop.
  apply (simulate_drop_loop_rule
           (fun s k => direction (w_drop s) = direction d
                       /\ lifetime (w_drop s) = lifetime d - Z.of_nat k)
           (fun s k => direction (w_drop s) = direction d
                       /\ lifetime (w_drop s) = lifetime d - Z.of_nat k)).
  - intros s s' k _ [Hd Hl] B.
    destruct (simulate_drop_body_fields s s' (or_introl B)) as [Ed El].
    split; [congruence | lia].
  - intros s s' k _ [Hd Hl] B.
    destruct (simulate_drop_body_fields s s' (or_intror B)) as [Ed El].
    split; [congruence | lia].
  - intros s k HI. exact HI.
  - cbn [w_drop]. split; [reflexivity | lia].
Qed.

(** What a round does to the water: one evaporation when it reaches the
    end of the body, nothing when it breaks. *)
Lemma simulate_drop_body_water (s s' : world) :
  (simulate_drop_body rand_stream inner height width param s = Next s' ->
   water (w_drop s') = dmul (water (w_drop s)) (dsub d1 (evaporation param)))
  /\ (simulate_drop_body rand_stream inner height width param s = Break s' ->
      water (w_drop s') = water (w_drop s)).
Proof.
  unfold simulate_drop_body.
  destruct (new_position rand_stream inner width param s) as [[pos r] |];
    [| split; intros E; discriminate E].
  destruct (negb _).
  - split; intros E; [discriminate E |]. injection E as <-. reflexivity.
  - destruct (dlt d0 _).
    + unfold uphill. destruct (dle _ _).
      * destruct (simulate_deposition _ _ _ _ _) as [h1 dropped].
        destruct (refill _ _ _ _ _ _ _) as [[h2 t] |];
          split; intros E; try discriminate E.
        injection E as <-. reflexivity.
      * destruct (simulate_deposition _ _ _ _ _) as [h1 dropped].
        destruct (unload _ _ _ _ _ _) as [[h2 t] |];
          split; intros E; try discriminate E.
        injection E as <-. reflexivity.
    + unfold downhill.
      match goal with
      | |- context [let '(a, b) := ?e in _] => destruct e as [h1 sed]
      end.
      split; intros E; [| discriminate E]. injection E as <-. reflexivity.
Qed.

Lemma simulate_drop_loop_water (w0 : D) (fuel : nat) :
  forall (s : world) (k : nat),
    water (w_drop s)
    = Nat.iter k (fun w : D => dmul w (dsub d1 (evaporation param))) w0 ->
    match simulate_drop_loop rand_stream fuel inner height width param s k,
          simulate_drop_leaves rand_stream fuel inner height width param s
    with
    | Returned s' n, Some By_condition =>
        water (w_drop s')
        = Nat.iter n (fun w : D => dmul w (dsub d1 (evaporation param))) w0
    | Returned s' n, Some By_break =>
        exists j : nat,
          n = S j
          /\ water (w_drop s')
             = Nat.iter j (fun w : D => dmul w (dsub d1 (evaporation param)))
                        w0
    | Returned _ _, None => False
    | _, Some _ => False
    | _, None => True
    end.
Proof.
  induction fuel as [| fuel IH]; intros s k Hw.
  - cbn [simulate_drop_loop simulate_drop_leaves].
    destruct (simulate_drop_guard height width s); [exact I | exact Hw].
  - cbn [simulate_drop_loop simulate_drop_leaves].
    destruct (simulate_drop_guard height width s); [| exact Hw].
    destruct (simulate_drop_body rand_stream inner height width param s)
      as [s1 | s1 |] eqn:B.
    + apply IH. rewrite (proj1 (simulate_drop_body_water s s1) B), Hw.
      reflexivity.
    + exists k. split; [reflexivity |].
      rewrite (proj2 (simulate_drop_body_water s s1) B). exact Hw.
    + exact I.
Qed.

(** X2.  Whatever the arithmetic, the water of the drop that a run of [n]
    rounds hands back is the water it started with, multiplied by
    [1.0 - evaporation] once for every round that reached the end of the
    body: [n] times when the loop was left because its condition failed,
    [n - 1] times when it was left through a [break].
    [simulate_drop_leaves] is the same loop, answering which of the two
    happened; it answers exactly when [simulate_drop] returns. *)
Theorem simulate_drop_water (fuel : nat) (h : heightmap) (d : drop)
    (r : nat) :
  let evaporate := fun w : D => dmul w (dsub d1 (evaporation param)) in
  match simulate_drop rand_stream fuel inner height width h d param r,
        simulate_drop_leaves rand_stream fuel inner height width param
                             (mk_world h d r)
  with
  | Returned s' n, Some By_condition =>
      water (w_drop s') = Nat.iter n evaporate (water d)
  | Returned s' n, Some By_break =>
      exists k : nat,
        n = S k /\ water (w_drop s') = Nat.iter k evaporate (water d)
  | Returned _ _, None => False
  | _, Some _ => False
  | _, None => True
  end.
Proof.
  intros evaporate. unfold simulate_drop.
  apply (simulate_drop_loop_water (water d) fuel (mk_world h d r) 0).
  reflexivity.
Qed.

(** *** The cells a run writes *)

Lemma deposit_cell_elsewhere (x y : Z) (to_drop w : D) (st : heightmap * D)
    (i : Z) :
  i <> y * width + x ->
  fst (deposit_cell width x y to_drop w st) i = fst st i.
Proof.
  intros N. destruct st as [h0 s0]. unfold deposit_cell.
  destruct (dlt d0 _); [| reflexivity].
  cbn [fst]. unfold H_set. apply store_other. exact N.
Qed.

(** [simulate_deposition] writes at most the four cells around the
    position. *)
Lemma simulate_deposition_elsewhere (h : heightmap) (pos : vec2)
    (to_drop : D) (i : Z) :
  let x1 := to_int (vec2_x pos) in
  let y1 := to_int (vec2_y pos) in
  let x2 := MIN_int (x1 + 1) (width - 1) in
  let y2 := MIN_int (y1 + 1) (height - 1) in
  i <> y1 * width + x1 -> i <> y2 * width + x1 ->
  i <> y1 * width + x2 -> i <> y2 * width + x2 ->
  fst (simulate_deposition width height h pos to_drop) i = h i.
Proof.
  intros x1 y1 x2 y2 N11 N12 N21 N22. unfold simulate_deposition.
  fold x1 y1. fold x2 y2.
  destruct (dle _ EPSILON); [reflexivity |].
  rewrite !deposit_cell_elsewhere by assumption. reflexivity.
Qed.

(** At a position that [verify_drop_pos] accepts the four cells lie in the
    block of the grid. *)
Lemma simulate_deposition_in_block (h : heightmap) (d : drop)
    (to_drop : D) (i : Z) :
  verify_drop_pos d width height = true ->
  ~ 0 <= i < width * height ->
  fst (simulate_deposition width height h (position d) to_drop) i = h i.
Proof.
  intros Hv Hout. apply verify_drop_pos_cells in Hv.
  destruct Hv as [Hx Hy].
  assert (Hx2 : MIN_int (to_int (vec2_x (position d)) + 1) (width - 1)
                = to_int (vec2_x (position d)) + 1).
  { unfold MIN_int. destruct (Z.ltb_spec (to_int (vec2_x (position d)) + 1)
                                         (width - 1)); lia. }
  assert (Hy2 : MIN_int (to_int (vec2_y (position d)) + 1) (height - 1)
                = to_int (vec2_y (position d)) + 1).
  { unfold MIN_int. destruct (Z.ltb_spec (to_int (vec2_y (position d)) + 1)
                                         (height - 1)); lia. }
  apply simulate_deposition_elsewhere; rewrite ?Hx2, ?Hy2;
    intros E; apply Hout; nia.
Qed.

Lemma refill_in_block (d : drop) (sed : D) :
  verify_drop_pos d width height = true ->
  forall (fuel : nat) (h h' : heightmap) (to_drop t : D) (i : Z),
    refill fuel width height (position d) sed h to_drop = Some (h', t) ->
    ~ 0 <= i < width * height -> h' i = h i.
Proof.
  intros Hv. induction fuel as [| fuel IH]; intros h h' to_drop t i E Hout.
  - simpl in E. destruct (dlt EPSILON to_drop); [discriminate E |].
    injection E as <- _. reflexivity.
  - simpl in E. destruct (dlt EPSILON to_drop).
    + destruct (simulate_deposition width height h (position d) sed)
        as [h1 dropped] eqn:S1.
      rewrite (IH _ _ _ _ i E Hout).
      change h1 with (fst (h1, dropped)). rewrite <- S1.
      apply simulate_deposition_in_block; assumption.
    + injection E as <- _. reflexivity.
Qed.

Lemma unload_in_block (d : drop) :
  verify_drop_pos d width height = true ->
  forall (fuel : nat) (h h' : heightmap) (sed t : D) (i : Z),
    unload fuel width height (position d) h sed = Some (h', t) ->
    ~ 0 <= i < width * height -> h' i = h i.
Proof.
  intros Hv. induction fuel as [| fuel IH]; intros h h' sed t i E Hout.
  - simpl in E. destruct (dlt EPSILON sed); [discriminate E |].
    injection E as <- _. reflexivity.
  - simpl in E. destruct (dlt EPSILON sed).
    + destruct (simulate_deposition width height h (position d) sed)
        as [h1 dropped] eqn:S1.
      rewrite (IH _ _ _ _ i E Hout).
      change h1 with (fst (h1, dropped)). rewrite <- S1.
      apply simulate_deposition_in_block; assumption.
    + injection E as <- _. reflexivity.
Qed.

(** The erosion tests every cell against the bounds of the grid before it
    uses it. *)
Lemma erode_in_block (h : heightmap) (old_pos : vec2) (rad : Z)
    (gain sed : D) (i : Z) :
  ~ 0 <= i < width * height ->
  fst (erode width height h old_pos rad gain sed) i = h i.
Proof.
  intros Hout. unfold erode. destruct (dlt d0 _); [| reflexivity].
  assert (Hws : Forall (fun wt => used wt = true ->
                                  0 <= weight_x wt < width
                                  /\ 0 <= weight_y wt < height)
                       (erosion_weights width height old_pos rad)).
  { unfold erosion_weights. apply Forall_flat_map. apply Forall_forall.
    intros dx _. apply Forall_map. apply Forall_forall. intros dy _.
    unfold erosion_weight.
    destruct (_ && _) eqn:B; [| discriminate].
    destruct (dle _ _); [| discriminate]. intros _.
    cbn [weight_x weight_y].
    rewrite !andb_true_iff, !Z.leb_le, !Z.ltb_lt in B. lia. }
  generalize (total_weight (erosion_weights width height old_pos rad)).
  intros total. revert h sed.
  induction Hws as [| wt ws Hwt _ IH]; intros h sed; [reflexivity |].
  cbn [fold_left]. unfold erode_cell at 2.
  destruct (used wt) eqn:U; [| apply IH].
  rewrite IH. unfold H_set. apply store_other.
  destruct (Hwt eq_refl) as [Hx Hy]. intros E. apply Hout. nia.
Qed.

(** A round writes inside the block only. *)
Lemma simulate_drop_body_in_block (s s' : world) (i : Z) :
  simulate_drop_guard height width s = true ->
  simulate_drop_body rand_stream inner height width param s = Next s'
  \/ simulate_drop_body rand_stream inner height width param s = Break s' ->
  ~ 0 <= i < width * height ->
  w_map s' i = w_map s i.
Proof.
  intros G HB Hout.
  assert (Hv : verify_drop_pos (w_drop s) width height = true).
  { unfold simulate_drop_guard in G. rewrite !andb_true_iff in G. tauto. }
  revert HB. unfold simulate_drop_body.
  destruct (new_position rand_stream inner width param s) as [[pos r] |];
    [| intros [E | E]; discriminate E].
  destruct (negb _).
  - intros [E | E]; [discriminate E |]. injection E as <-. reflexivity.
  - destruct (dlt d0 _).
    + unfold uphill. cbn [sediment]. destruct (dle _ _).
      * destruct (simulate_deposition _ _ _ _ _) as [h1 dropped] eqn:S1.
        destruct (refill _ _ _ _ _ _ _) as [[h2 t] |] eqn:R1;
          intros [E | E]; try discriminate E.
        injection E as <-. cbn [w_map].
        rewrite (refill_in_block _ _ Hv _ _ _ _ _ i R1 Hout).
        change h1 with (fst (h1, dropped)). rewrite <- S1.
        apply simulate_deposition_in_block; assumption.
      * destruct (simulate_deposition _ _ _ _ _) as [h1 dropped] eqn:S1.
        destruct (unload _ _ _ _ _ _) as [[h2 t] |] eqn:U1;
          intros [E | E]; try discriminate E.
        injection E as <-. cbn [w_map].
        rewrite (unload_in_block _ Hv _ _ _ _ _ i U1 Hout).
        change h1 with (fst (h1, dropped)). rewrite <- S1.
        apply simulate_deposition_in_block; assumption.
    + unfold downhill. cbn [sediment velocity water].
      destruct (dle _ _).
      * destruct (simulate_deposition _ _ _ _ _) as [h1 dropped] eqn:S1.
        intros [E | E]; [| discriminate E]. injection E as <-. cbn [w_map].
        change h1 with (fst (h1, dropped)). rewrite <- S1.
        apply simulate_deposition_in_block; assumption.
      * destruct (erode _ _ _ _ _ _ _) as [h1 sed] eqn:E1.
        intros [E | E]; [| discriminate E]. injection E as <-. cbn [w_map].
        change h1 with (fst (h1, sed)). rewrite <- E1.
        apply erode_in_block. exact Hout.
Qed.

(** X3.  Whatever the arithmetic, the heightmap and the drop, a run of
    [simulate_drop] that returns has written inside the block of
    [width * height] doubles only: every offset outside [0, width * height)
    holds what it held before.  Deposits happen at a position that the loop
    condition has checked, and the erosion checks each cell of its disc. *)
Theorem simulate_drop_writes_in_block (fuel : nat) (h : heightmap)
    (d : drop) (r : nat) :
  match simulate_drop rand_stream fuel inner height width h d param r with
  | Returned s' _ =>
      forall i : Z, ~ 0 <= i < width * height -> w_map s' i = h i
  | _ => True
  end.
Proof.
  unfold simulate_drop.
  apply (simulate_drop_loop_rule
           (fun s _ => forall i : Z,
                ~ 0 <= i < width * height -> w_map s i = h i)
           (fun s _ => forall i : Z,
                ~ 0 <= i < width * height -> w_map s i = h i)).
  - intros s s' k G HI B i Hout.
    rewrite (simulate_drop_body_in_block s s' i G (or_introl B) Hout).
    apply HI. exact Hout.
  - intros s s' k G HI B i Hout.
    rewrite (simulate_drop_body_in_block s s' i G (or_intror B) Hout).
    apply HI. exact Hout.
  - intros s k HI. exact HI.
  - intros i _. reflexivity.
Qed.

End DropRun.

(** Both ways of leaving, in binary64.  The drop of
    [simulate_drop_example_run] leaves the grid in its fifth round, through
    the [break], with the water of four evaporations, [0.5^4].  The same
    drop with a lifetime of 2 is stopped by the loop condition after two
    rounds, with the water of two evaporations. *)
Lemma simulate_drop_water_binary64_example :
  simulate_drop_leaves seeds 1000 10 8 8 half_param
    (mk_world slope8 (new_drop (mk_vec2 5.5%float 4.5%float)) 0)
  = Some By_break
  /\ simulate_drop_leaves seeds 1000 10 8 8 half_param
       (mk_world slope8
          (mk_drop (mk_vec2 5.5%float 4.5%float) (mk_vec2 0%float 0%float)
                   2 1%float 1%float 0%float) 0)
     = Some By_condition
  /\ match simulate_drop seeds 1000 10 8 8 slope8
             (mk_drop (mk_vec2 5.5%float 4.5%float)
                      (mk_vec2 0%float 0%float) 2 1%float 1%float 0%float)
             half_param 0 with
     | Returned s n => n = 2%nat /\ water (w_drop s) = 0.25%float
     | _ => False
     end.
Proof. vm_compute. repeat split; reflexivity. Qed.

(* ================================================================== *)
(** * Random numbers                                                    *)
(* ================================================================== *)

Lemma lxor_below (n a b : Z) :
  0 <= n -> 0 <= a < 2 ^ n -> 0 <= b < 2 ^ n -> 0 <= Z.lxor a b < 2 ^ n.
Proof.
  intros Hn Ha Hb.
  assert (Hnn : 0 <= Z.lxor a b) by (apply Z.lxor_nonneg; lia).
  split; [exact Hnn |].
  destruct (Z.eq_dec (Z.lxor a b) 0) as [E | N]; [rewrite E; lia |].
  assert (Hpos : 0 < n).
  { destruct (Z.eq_dec n 0) as [-> | Nn]; [| lia].
    exfalso. simpl in Ha, Hb. assert (a = 0) by lia. assert (b = 0) by lia.
    subst a b. apply N. reflexivity. }
  apply Z.log2_lt_pow2; [lia |].
  pose proof (Z.log2_lxor a b (proj1 Ha) (proj1 Hb)) as Hl.
  assert (Hla : Z.log2 a < n).
  { destruct (Z.eq_dec a 0) as [-> | Na]; [simpl; lia |].
    apply Z.log2_lt_pow2; lia. }
  assert (Hlb : Z.log2 b < n).
  { destruct (Z.eq_dec b 0) as [-> | Nb]; [simpl; lia |].
    apply Z.log2_lt_pow2; lia. }
  lia.
Qed.

Lemma u32_range (z : Z) : 0 <= u32 z < 2 ^ 32.
Proof. unfold u32. apply Z.mod_pos_bound. reflexivity. Qed.

(** The result of [PCG_Hash] is a [uint32_t]. *)
Lemma PCG_Hash_range (input : Z) : 0 <= PCG_Hash input <= UINT32_MAX.
Proof.
  unfold PCG_Hash.
  match goal with
  | |- context [Z.lxor (Z.shiftr ?w 22) ?w] =>
      pose proof (u32_range
                    (Z.lxor (Z.shiftr (u32 (u32 (input * 747796405)
                                            + 2891336453))
                               (u32 (Z.shiftr (u32 (u32 (input * 747796405)
                                                    + 2891336453)) 28 + 4)))
                            (u32 (u32 (input * 747796405) + 2891336453))
                     * 277803737)) as Hw;
      set (word := w) in *
  end.
  assert (Hs : 0 <= Z.shiftr word 22 < 2 ^ 32).
  { split; [apply Z.shiftr_nonneg; lia |].
    rewrite Z.shiftr_div_pow2 by lia.
    apply Z.le_lt_trans with word; [| lia].
    apply Z.div_le_upper_bound; [reflexivity |].
    change (2 ^ 22) with 4194304. lia. }
  pose proof (lxor_below 32 (Z.shiftr word 22) word ltac:(lia) Hs Hw) as Hx.
  unfold UINT32_MAX. change (2 ^ 32) with 4294967296 in Hx. lia.
Qed.

Lemma random_double_unit_range (seed : Z) :
  (0 <= random_double (D := R) seed <= 1)%R.
Proof.
  unfold random_double. exact_ops.
  pose proof (PCG_Hash_range (u32 seed)) as [Hlo Hhi].
  apply IZR_le in Hlo. apply IZR_le in Hhi.
  assert (Hmax : (0 < IZR UINT32_MAX)%R).
  { apply (IZR_lt 0). reflexivity. }
  split.
  - apply Rmult_le_pos; [exact Hlo |].
    apply Rlt_le, Rinv_0_lt_compat. exact Hmax.
  - apply (Rmult_le_reg_r (IZR UINT32_MAX)); [exact Hmax |].
    unfold Rdiv. rewrite Rmult_assoc, Rinv_l by lra. lra.
Qed.

(** The two seeds at which the hash takes its least and its greatest
    value. *)
Lemma random_double_least : random_double (D := R) 449710063 = 0%R.
Proof.
  unfold random_double. exact_ops.
  change (PCG_Hash (u32 449710063)) with 0. unfold Rdiv. ring.
Qed.

Lemma random_double_greatest : random_double (D := R) 2222045655 = 1%R.
Proof.
  unfold random_double. exact_ops.
  change (PCG_Hash (u32 2222045655)) with UINT32_MAX.
  unfold UINT32_MAX. field.
Qed.

(** X4.  In exact arithmetic [random_double] returns a number of [[0, 1]]
    for every seed, and both ends are taken: the seed 449710063 hashes to 0
    and the seed 2222045655 to [UINT32_MAX]. *)
Theorem random_double_unit_interval (seed : Z) :
  (0 <= random_double (D := R) seed <= 1)%R
  /\ random_double (D := R) 449710063 = 0%R
  /\ random_double (D := R) 2222045655 = 1%R.
Proof.
  split; [apply random_double_unit_range | split].
  - apply random_double_least.
  - apply random_double_greatest.
Qed.

(** X5.  In binary64 [random_double_min_max] does not keep the range
    [[min, max]] that its comment promises.  The seed 2222045655 is a
    [uint32_t] that hashes to [UINT32_MAX], so that [random_double] is 1;
    for [min = 0.3] and [max = 0.9], which are the doubles
    [5404319552844595 * 2^-54] and [8106479329266893 * 2^-53], the
    difference [max - min] and then the sum [min + 1.0 * (max - min)] round
    so that the result is [8106479329266894 * 2^-53], the double that
    follows [max]. *)
Theorem random_double_min_max_can_exceed_max :
  0 <= 2222045655 <= UINT32_MAX
  /\ random_double (D := float) 2222045655 = 1%float
  /\ Prim2SF 0x1.3333333333333p-2 = S754_finite false 5404319552844595 (-54)
  /\ Prim2SF 0x1.ccccccccccccdp-1 = S754_finite false 8106479329266893 (-53)
  /\ Prim2SF (random_double_min_max 2222045655 0x1.3333333333333p-2%float
                                    0x1.ccccccccccccdp-1%float)
     = S754_finite false 8106479329266894 (-53)
  /\ PrimFloat.ltb 0x1.ccccccccccccdp-1
       (random_double_min_max 2222045655 0x1.3333333333333p-2%float
                              0x1.ccccccccccccdp-1%float)
     = true.
Proof.
  split; [unfold UINT32_MAX; lia |]. vm_compute. repeat split; reflexivity.
Qed.

(** *** [PCG_Hash] has no collision *)

Lemma shiftr_beyond (s k : Z) : 0 <= s < 2 ^ 32 -> 32 <= k -> Z.shiftr s k = 0.
Proof.
  intros Hs Hk. rewrite Z.shiftr_div_pow2 by lia. apply Z.div_small.
  split; [lia |]. apply Z.lt_le_trans with (2 ^ 32); [lia |].
  apply Z.pow_le_mono_r; lia.
Qed.

Lemma lxor_cancel_r (a b : Z) : Z.lxor (Z.lxor a b) b = a.
Proof. rewrite Z.lxor_assoc, Z.lxor_nilpotent, Z.lxor_0_r. reflexivity. Qed.

Lemma unxorshift_inverse (k s : Z) :
  4 <= k -> 0 <= s < 2 ^ 32 -> unxorshift k (Z.lxor (Z.shiftr s k) s) = s.
Proof.
  intros Hk Hs. set (y := Z.lxor (Z.shiftr s k) s).
  assert (Hiter : forall n : nat,
    Z.lxor (Nat.iter n (fun t => Z.lxor y (Z.shiftr t k)) y) s
    = Z.shiftr s (k * (Z.of_nat n + 1))).
  { induction n as [| n IH].
    - change (Nat.iter 0 (fun t => Z.lxor y (Z.shiftr t k)) y) with y.
      unfold y. rewrite lxor_cancel_r. f_equal. lia.
    - change (Nat.iter (S n) (fun t => Z.lxor y (Z.shiftr t k)) y)
        with (Z.lxor y (Z.shiftr
                          (Nat.iter n (fun t => Z.lxor y (Z.shiftr t k)) y)
                          k)).
      set (t := Nat.iter n (fun t => Z.lxor y (Z.shiftr t k)) y) in *.
      rewrite (Z.lxor_comm y), Z.lxor_assoc. unfold y at 1.
      rewrite lxor_cancel_r, <- Z.shiftr_lxor, IH.
      rewrite Z.shiftr_shiftr by lia. f_equal. lia. }
  unfold unxorshift. apply Z.lxor_eq. fold y. rewrite Hiter.
  apply shiftr_beyond; [exact Hs | lia].
Qed.

(** [PCG_Unhash] undoes [PCG_Hash] on every [uint32_t]. *)
Lemma PCG_Unhash_Hash (x : Z) :
  0 <= x < 2 ^ 32 -> PCG_Unhash (PCG_Hash x) = x.
Proof.
  intros Hx. unfold PCG_Hash.
  set (s := u32 (u32 (x * 747796405) + 2891336453)).
  assert (Hs : 0 <= s < 2 ^ 32) by apply u32_range.
  assert (Hk : u32 (Z.shiftr s 28 + 4) = Z.shiftr s 28 + 4).
  { unfold u32. apply Z.mod_small.
    assert (0 <= Z.shiftr s 28 < 16); [| lia].
    rewrite Z.shiftr_div_pow2 by lia. split.
    - apply Z.div_pos; lia.
    - apply Z.div_lt_upper_bound; [reflexivity |].
      change (2 ^ 28 * 16) with (2 ^ 32). lia. }
  rewrite Hk. set (k := Z.shiftr s 28 + 4).
  assert (Hk4 : 4 <= k).
  { unfold k. assert (0 <= Z.shiftr s 28) by (apply Z.shiftr_nonneg; lia).
    lia. }
  set (t := Z.lxor (Z.shiftr s k) s).
  assert (Ht : 0 <= t < 2 ^ 32).
  { apply lxor_below; [lia | | exact Hs]. split.
    - apply Z.shiftr_nonneg. lia.
    - rewrite Z.shiftr_div_pow2 by lia.
      apply Z.le_lt_trans with s; [| lia].
      apply Z.div_le_upper_bound; [lia |].
      assert (1 <= 2 ^ k) by (apply (Z.pow_le_mono_r 2 0 k); lia). nia. }
  set (word := u32 (t * 277803737)).
  assert (Hw : 0 <= word < 2 ^ 32) by apply u32_range.
  unfold PCG_Unhash.
  (* the last xorshift *)
  assert (E4 : Z.lxor (Z.lxor (Z.shiftr word 22) word)
                      (Z.shiftr (Z.lxor (Z.shiftr word 22) word) 22)
               = word).
  { rewrite Z.shiftr_lxor, Z.shiftr_shiftr by lia.
    rewrite (shiftr_beyond word (22 + 22)) by (try exact Hw; lia).
    rewrite Z.lxor_0_l, (Z.lxor_comm (Z.shiftr word 22) word).
    apply lxor_cancel_r. }
  rewrite E4.
  (* the second multiplication *)
  assert (E3 : u32 (word * 2897767785) = t).
  { unfold word, u32. rewrite Z.mul_mod_idemp_l by lia.
    rewrite <- Z.mul_assoc, <- Z.mul_mod_idemp_r by lia.
    change ((277803737 * 2897767785) mod 2 ^ 32) with 1.
    rewrite Z.mul_1_r. apply Z.mod_small. exact Ht. }
  rewrite E3.
  (* the xorshift by the top four bits *)
  assert (Etop : Z.shiftr t 28 + 4 = k).
  { unfold t. rewrite Z.shiftr_lxor, Z.shiftr_shiftr by lia.
    rewrite (shiftr_beyond s (k + 28)) by (try exact Hs; lia).
    rewrite Z.lxor_0_l. reflexivity. }
  rewrite Etop. unfold t. rewrite unxorshift_inverse by assumption.
  (* the first multiplication *)
  unfold s, u32.
  rewrite <- Z.mul_mod_idemp_l by lia.
  rewrite Zminus_mod_idemp_l.
  replace (x * 747796405 mod 2 ^ 32 + 2891336453 - 2891336453)
    with (x * 747796405 mod 2 ^ 32) by lia.
  rewrite Z.mod_mod by lia. rewrite Z.mul_mod_idemp_l by lia.
  rewrite <- Z.mul_assoc, <- Z.mul_mod_idemp_r by lia.
  change ((747796405 * 3425435293) mod 2 ^ 32) with 1.
  rewrite Z.mul_1_r. apply Z.mod_small. exact Hx.
Qed.

(** X7.  [PCG_Hash] is injective on [uint32_t]: two different inputs of
    [0, 2^32) never hash to the same value, so [random_double] takes 2^32
    different values. *)
Theorem PCG_Hash_injective (x y : Z) :
  0 <= x < 2 ^ 32 -> 0 <= y < 2 ^ 32 -> PCG_Hash x = PCG_Hash y -> x = y.
Proof.
  intros Hx Hy E.
  rewrite <- (PCG_Unhash_Hash x Hx), <- (PCG_Unhash_Hash y Hy), E.
  reflexivity.
Qed.

Lemma PCG_Hash_injective_witness :
  0 <= 1 < 2 ^ 32 /\ PCG_Hash 1 = PCG_Hash (3 - 2) /\ 1 = 3 - 2.
Proof.
  assert (H1 : 0 <= 1 < 2 ^ 32) by (split; [lia | reflexivity]).
  assert (H2 : 0 <= 3 - 2 < 2 ^ 32) by (split; [lia | reflexivity]).
  assert (E : PCG_Hash 1 = PCG_Hash (3 - 2)) by reflexivity.
  exact (conj H1 (conj E (PCG_Hash_injective 1 (3 - 2) H1 H2 E))).
Defined.

(** *** Where a drop starts *)

(** A result of [rand()], which is an [int] that is not negative, never
    hashes to [UINT32_MAX]: the one [uint32_t] that does is 2222045655,
    above [INT_MAX]. *)
Lemma PCG_Hash_of_rand (seed : Z) :
  0 <= seed <= INT_MAX -> 0 <= PCG_Hash (u32 seed) < UINT32_MAX.
Proof.
  intros Hs. unfold INT_MAX in Hs.
  assert (Hu : u32 seed = seed).
  { unfold u32. apply Z.mod_small. lia. }
  rewrite Hu. pose proof (PCG_Hash_range seed) as [Hlo Hhi].
  split; [exact Hlo |].
  destruct (Z.eq_dec (PCG_Hash seed) UINT32_MAX) as [E | N]; [| lia].
  exfalso.
  assert (Es : seed = 2222045655).
  { rewrite <- (PCG_Unhash_Hash seed) by lia. rewrite E.
    vm_compute. reflexivity. }
  lia.
Qed.

(** X6.  When [rand()] returns what the C library allows, an [int] from 0
    to [INT_MAX], and the grid has at least one cell, [random_vec2] makes
    exactly two draws and returns a position inside the grid: both
    coordinates are at least 0 and strictly below the width and the height,
    so the cell of the position, given by the two casts to [int], is a cell
    of the grid.  The far edge is never drawn, because no result of
    [rand()] hashes to [UINT32_MAX]. *)
Theorem random_vec2_in_the_grid (rand_stream : nat -> Z) (width height : Z)
    (r : nat) :
  (forall k : nat, 0 <= rand_stream k <= INT_MAX) ->
  0 < width -> 0 < height ->
  let '(pos, r') := random_vec2 (D := R) rand_stream width height r in
  (0 <= vec2_x pos < IZR width)%R
  /\ (0 <= vec2_y pos < IZR height)%R
  /\ 0 <= to_int (vec2_x pos) < width
  /\ 0 <= to_int (vec2_y pos) < height
  /\ r' = S (S r).
Proof.
  intros Hrand Hw Hh. unfold random_vec2.
  assert (Hunit : forall k : nat,
             (0 <= random_double (D := R) (rand_stream k) < 1)%R).
  { intros k. unfold random_double. exact_ops.
    destruct (PCG_Hash_of_rand (rand_stream k) (Hrand k)) as [Hlo Hhi].
    apply IZR_le in Hlo. apply IZR_lt in Hhi.
    assert (Hmax : (0 < IZR UINT32_MAX)%R)
      by (apply (IZR_lt 0); reflexivity).
    split.
    - apply Rmult_le_pos; [exact Hlo |].
      apply Rlt_le, Rinv_0_lt_compat. exact Hmax.
    - apply (Rmult_lt_reg_r (IZR UINT32_MAX)); [exact Hmax |].
      unfold Rdiv. rewrite Rmult_assoc, Rinv_l by lra. lra. }
  assert (Hin : forall (k : nat) (n : Z),
             0 < n ->
             (0 <= random_double_min_max (rand_stream k) 0 (IZR n)
              < IZR n)%R).
  { intros k n Hn. unfold random_double_min_max. exact_ops.
    destruct (Hunit k) as [Hlo Hhi]. apply IZR_lt in Hn.
    set (u := random_double (rand_stream k)) in *.
    split; [| nra].
    assert (0 <= u * (IZR n - 0))%R by (apply Rmult_le_pos; lra). lra. }
  assert (Hcell : forall (v : R) (n : Z),
             (0 <= v < IZR n)%R -> 0 <= Exact.to_int v < n).
  { intros v n [Hlo Hhi].
    destruct (ExactFacts.to_int_nonneg v Hlo) as [Hfloor Hceil]. split.
    - apply Z.lt_succ_r. apply lt_IZR. rewrite succ_IZR. lra.
    - apply lt_IZR. lra. }
  pose proof (Hin r width Hw) as Hx.
  pose proof (Hin (S r) height Hh) as Hy.
  revert Hx Hy. exact_ops. intros Hx Hy. cbn [vec2_x vec2_y].
  split; [exact Hx |]. split; [exact Hy |].
  split; [apply Hcell; exact Hx |]. split; [apply Hcell; exact Hy |].
  reflexivity.
Qed.

(** A grid of 4 by 4 cells and a [rand()] that returns 1. *)
Lemma random_vec2_in_the_grid_witness :
  (forall k : nat, 0 <= (fun _ : nat => 1) k <= INT_MAX)
  /\ 0 < 4 /\ 0 < 4
  /\ (let '(pos, r') := random_vec2 (D := R) (fun _ => 1) 4 4 0 in
      (0 <= vec2_x pos < IZR 4)%R
      /\ (0 <= vec2_y pos < IZR 4)%R
      /\ 0 <= to_int (vec2_x pos) < 4
      /\ 0 <= to_int (vec2_y pos) < 4
      /\ r' = 2%nat).
Proof.
  assert (Hr : forall k : nat, 0 <= (fun _ : nat => 1) k <= INT_MAX)
    by (intros k; unfold INT_MAX; lia).
  assert (H4 : 0 < 4) by lia.
  exact (conj Hr (conj H4 (conj H4
           (random_vec2_in_the_grid (fun _ => 1) 4 4 0 Hr H4 H4)))).
Defined.

(* ================================================================== *)
(** * More on the gradient                                              *)
(* ================================================================== *)

Lemma H_plane (w x y : Z) (a b c : R) :
  0 <= x < w -> H (plane w a b c) w x y = (a * IZR x + b * IZR y + c)%R.
Proof.
  intros Hx. unfold H, plane.
  rewrite (Z.add_comm (y * w) x), Z.mod_add, Z.div_add by lia.
  rewrite Z.mod_small, Z.div_small by exact Hx. rewrite Z.add_0_l.
  reflexivity.
Qed.

(** X8.  In exact arithmetic, on a grid whose heights are those of a plane
    [a * x + b * y + c], [compute_gradient] returns the slope [(a, b)] of the
    plane at every interior position, and so does
    [compute_gradient_central] when the grid is not higher than wide (its
    test on [y] uses the width). *)
Theorem gradients_of_a_plane (w height : Z) (h : heightmap (D := R))
    (a b c : R) (pos : vec2) :
  (forall i j : Z,
      0 <= i < w -> 0 <= j < height ->
      H h w i j = (a * IZR i + b * IZR j + c)%R) ->
  0 < to_int (vec2_x pos) < w - 1 ->
  0 < to_int (vec2_y pos) < height - 1 ->
  compute_gradient w h pos = mk_vec2 a b
  /\ (height <= w -> compute_gradient_central w h pos = mk_vec2 a b).
Proof.
  intros Hh Hx Hy. split.
  - unfold compute_gradient. rewrite !Hh by lia. exact_ops.
    rewrite !plus_IZR. f_equal; lra.
  - intros Hsq. unfold compute_gradient_central.
    replace ((to_int (vec2_x pos) <? 1) || (to_int (vec2_x pos) >=? w - 1)
             || (to_int (vec2_y pos) <? 1) || (to_int (vec2_y pos) >=? w - 1))
      with false.
    + rewrite !Hh by lia. exact_ops. rewrite !plus_IZR, !minus_IZR.
      f_equal; lra.
    + symmetry. rewrite !orb_false_iff, !Z.ltb_ge, !Z.geb_leb, !Z.leb_gt.
      lia.
Qed.

(** The plane [2 x + 3 y + 1] on a grid of 4 by 4 cells, at the centre of
    the cell [(1, 1)]. *)
Lemma gradients_of_a_plane_witness :
  compute_gradient 4 (plane 4 2 3 1) (mk_vec2 (3 / 2)%R (3 / 2)%R)
  = mk_vec2 2%R 3%R
  /\ (4 <= 4 ->
      compute_gradient_central 4 (plane 4 2 3 1)
                               (mk_vec2 (3 / 2)%R (3 / 2)%R)
      = mk_vec2 2%R 3%R).
Proof.
  apply (gradients_of_a_plane 4 4 (plane 4 2 3 1) 2 3 1).
  - intros i j Hi _. apply H_plane. exact Hi.
  - cbn [vec2_x]. exact_ops. rewrite to_int_three_halves. lia.
  - cbn [vec2_y]. exact_ops. rewrite to_int_three_halves. lia.
Defined.

(* ================================================================== *)
(** * More on deposition                                                *)
(* ================================================================== *)

Lemma to_int_IZR (i : Z) : 0 <= i -> Exact.to_int (IZR i) = i.
Proof.
  intros Hi. apply ExactFacts.to_int_unique.
  - apply (IZR_le 0). exact Hi.
  - lra.
Qed.

(** X10.  In exact arithmetic, a positive amount dropped at a position with
    integer coordinates [(i, j)] lands in the cell [(i, j)] alone: that
    cell rises by the amount, every other double is left as it was, and the
    amount is returned. *)
Theorem simulate_deposition_on_a_cell_corner (width height : Z)
    (h : heightmap (D := R)) (i j : Z) (amount : R) :
  0 <= i -> 0 <= j -> (0 < amount)%R ->
  let '(h', returned) :=
    simulate_deposition width height h (mk_vec2 (IZR i) (IZR j)) amount in
  returned = amount
  /\ h' (j * width + i) = (h (j * width + i)%Z + amount)%R
  /\ forall k : Z, k <> j * width + i -> h' k = h k.
Proof.
  intros Hi Hj Hpos. rewrite Mass.simulate_deposition_weights.
  cbn [vec2_x vec2_y]. rewrite !to_int_IZR by assumption.
  replace (IZR i - IZR i)%R with 0%R by ring.
  replace (IZR j - IZR j)%R with 0%R by ring.
  rewrite (Mass.deposit_cell_nothing _ _ _ amount (0 * 0)%R) by lra.
  rewrite (Mass.deposit_cell_nothing _ _ _ amount (0 * (1 - 0))%R) by lra.
  rewrite (Mass.deposit_cell_nothing _ _ _ amount ((1 - 0) * 0)%R) by lra.
  unfold deposit_cell. exact_ops. unfold Exact.ltb.
  destruct (Rlt_dec 0 (amount * ((1 - 0) * (1 - 0)))) as [_ | Hbad];
    [| exfalso; lra].
  split; [lra |]. unfold H_set, H, store. split.
  - rewrite Z.eqb_refl. lra.
  - intros k Hk. destruct (Z.eqb_spec k (j * width + i)); [contradiction |].
    reflexivity.
Qed.

(** The corner [(0, 0)] of a grid of 4 by 4 cells. *)
Lemma simulate_deposition_on_a_cell_corner_witness :
  0 <= 0 /\ (0 < 10)%R
  /\ (let '(h', returned) :=
        simulate_deposition 4 4 (ramp 4) (mk_vec2 (IZR 0) (IZR 0)) 10%R in
      returned = 10%R
      /\ h' (0 * 4 + 0) = (ramp 4 (0 * 4 + 0)%Z + 10)%R
      /\ forall k : Z, k <> 0 * 4 + 0 -> h' k = ramp 4 k).
Proof.
  assert (H0 : 0 <= 0) by lia.
  assert (H1 : (0 < 10)%R) by lra.
  exact (conj H0 (conj H1
    (simulate_deposition_on_a_cell_corner 4 4 (ramp 4) 0 0 10%R H0 H0 H1))).
Defined.

(* ================================================================== *)
(** * More on one round, in exact arithmetic                            *)
(* ================================================================== *)

Section ExactRound.

Variable rand_stream : nat -> Z.
Variables (inner : nat) (height width : Z) (param : parameters (D := R)).

Local Open Scope R_scope.




End ExactRound.


(** The same in binary64: the drop of [simulate_drop_example_run] starts
    with the water 1 and the velocity 1 and ends with less water and more
    speed. *)
Lemma simulate_drop_loses_water_gains_speed_binary64 :
  match simulate_drop seeds 1000 10 8 8 slope8
          (new_drop (mk_vec2 5.5%float 4.5%float)) half_param 0 with
  | Returned s _ =>
      PrimFloat.leb 0 (water (w_drop s)) = true
      /\ PrimFloat.leb (water (w_drop s)) 1 = true
      /\ PrimFloat.leb 1 (velocity (w_drop s)) = true
  | _ => False
  end.
Proof. vm_compute. repeat split; reflexivity. Qed.

(* ================================================================== *)
(** * Loops over the whole grid                                         *)
(* ================================================================== *)

Lemma In_range (n k : Z) : In k (range n) <-> 0 <= k < n.
Proof.
  unfold range. rewrite in_map_iff. split.
  - intros [m [E Hm]]. apply in_seq in Hm. lia.
  - intros Hk. exists (Z.to_nat k). split; [lia |]. apply in_seq. lia.
Qed.

Lemma In_cells (width height x y : Z) :
  In (x, y) (cells width height) <-> 0 <= x < height /\ 0 <= y < width.
Proof.
  unfold cells. rewrite in_flat_map. split.
  - intros [x' [Hx Hin]]. apply in_map_iff in Hin.
    destruct Hin as [y' [E Hy]]. injection E as <- <-.
    apply In_range in Hx. apply In_range in Hy. tauto.
  - intros [Hx Hy]. exists x. split; [apply In_range; exact Hx |].
    apply in_map_iff. exists y. split; [reflexivity |].
    apply In_range. exact Hy.
Qed.

(** Rows of [h] cells, [w] of them, reached as [a[i][j]] of [a[w][h]], are
    the offsets [0 .. w * h - 1] in order. *)
Lemma block_in_order (w h : Z) :
  0 <= w -> 0 <= h ->
  map (fun c => at2 h (fst c) (snd c)) (cells h w) = range (w * h).
Proof.
  intros Hw Hh. unfold cells.
  assert (Hrows : forall rows : list Z,
    map (fun c => at2 h (fst c) (snd c))
        (flat_map (fun x => map (fun y => (x, y)) (range h)) rows)
    = flat_map (fun x => map (fun y => at2 h x y) (range h)) rows).
  { induction rows as [| x rows IH]; [reflexivity |].
    cbn [flat_map]. rewrite map_app, IH, map_map. reflexivity. }
  rewrite Hrows. unfold range at 2.
  rewrite Square.rows_in_order by assumption.
  rewrite Z2Nat.id by assumption. reflexivity.
Qed.

Section Copy.

Context {D : Type} {ops : DoubleOps D}.

Lemma copy_loop (src dest : heightmap (D := D)) (k : nat) (i : Z) :
  fold_left (fun d o => store d o (src o)) (map Z.of_nat (seq 0 k)) dest i
  = if (0 <=? i) && (i <? Z.of_nat k) then src i else dest i.
Proof.
  induction k as [| k IH].
  - cbn [seq map fold_left].
    destruct (Z.leb_spec 0 i), (Z.ltb_spec i (Z.of_nat 0)); cbn; try lia;
      reflexivity.
  - rewrite seq_S, map_app, fold_left_app. cbn [Nat.add map fold_left].
    unfold store at 1.
    destruct (Z.eqb_spec i (Z.of_nat k)) as [-> | N].
    + destruct (Z.leb_spec 0 (Z.of_nat k)),
               (Z.ltb_spec (Z.of_nat k) (Z.of_nat (S k)));
        cbn; try lia; reflexivity.
    + rewrite IH.
      destruct (Z.leb_spec 0 i), (Z.ltb_spec i (Z.of_nat k)),
               (Z.ltb_spec i (Z.of_nat (S k)));
        cbn; try lia; reflexivity.
Qed.

(** X13.  [copy_heightmap] indexes both arrays with the dimensions they are
    declared with, so, for every width and height, square or not, it copies
    the whole block of [w * h] doubles, each offset from the same offset of
    the source, and writes nothing outside it. *)
Theorem copy_heightmap_copies_the_block (w h : Z)
    (dest src : heightmap (D := D)) :
  0 <= w -> 0 <= h ->
  forall i : Z,
    copy_heightmap w h dest src i
    = if (0 <=? i) && (i <? w * h) then src i else dest i.
Proof.
  intros Hw Hh i. unfold copy_heightmap.
  rewrite (Square.fold_cells_offsets h _ (fun d o => store d o (src o))).
  - rewrite block_in_order by assumption. unfold range.
    rewrite copy_loop. rewrite Z2Nat.id by nia. reflexivity.
  - intros d [x y]. reflexivity.
Qed.

End Copy.

(** A grid of 3 by 2 cells, the one on which the generation misses a
    cell, is copied whole. *)
Lemma copy_heightmap_copies_the_block_witness :
  0 <= 3 /\ 0 <= 2
  /\ forall (dest src : heightmap (D := float)) (i : Z),
       copy_heightmap 3 2 dest src i
       = if (0 <=? i) && (i <? 3 * 2) then src i else dest i.
Proof.
  split; [lia |]. split; [lia |]. intros dest src.
  apply (copy_heightmap_copies_the_block 3 2 dest src); lia.
Defined.

(* ================================================================== *)
(** * The generated terrain and the buffer it is written to             *)
(* ================================================================== *)

Section Fresh.

Context {D : Type} {ops : DoubleOps D}.
Variable rand_stream : nat -> Z.
Variable exp2 : D -> D.
Variables (width height : Z).

(** A loop over cells whose body rewrites the cell it visits from the value
    of that cell gives, on two heightmaps that agree on a set of offsets
    holding the visited ones, two heightmaps that agree on that set. *)
Lemma fold_cells_agree
    (f : heightmap (D := D) -> Z * Z -> heightmap (D := D))
    (g : Z * Z -> D -> D) (P : Z -> Prop) (cs : list (Z * Z)) :
  (forall (h : heightmap) (c : Z * Z) (i : Z),
      f h c i = if i =? at2 height (fst c) (snd c)
                then g c (h (at2 height (fst c) (snd c)))
                else h i) ->
  (forall c : Z * Z, In c cs -> P (at2 height (fst c) (snd c))) ->
  forall h h' : heightmap,
    (forall i : Z, P i -> h i = h' i) ->
    forall i : Z, P i -> fold_left f cs h i = fold_left f cs h' i.
Proof.
  intros Hf. induction cs as [| c cs IH]; intros HP h h' Hagree i Pi.
  - apply Hagree. exact Pi.
  - cbn [fold_left]. apply IH; [intros c' Hc'; apply HP; right; exact Hc' | |
                                exact Pi].
    intros j Pj. rewrite !Hf.
    destruct (j =? at2 height (fst c) (snd c)).
    + f_equal. apply Hagree. apply HP. left. reflexivity.
    + apply Hagree. exact Pj.
Qed.

Lemma cells_visited (c : Z * Z) :
  In c (cells width height) ->
  In (at2 height (fst c) (snd c)) (visited width height).
Proof.
  intros Hc. unfold visited.
  apply (in_map (fun c => at2 height (fst c) (snd c))). exact Hc.
Qed.

(** The loops start at the offset 0 whenever they visit anything. *)
Lemma visited_origin (i : Z) :
  In i (visited width height) -> In (at2 height 0 0) (visited width height).
Proof.
  unfold visited. intros Hi. apply in_map_iff in Hi.
  destruct Hi as [[x y] [_ Hc]]. apply In_cells in Hc.
  apply (in_map (fun c => at2 height (fst c) (snd c)) _ (0, 0)).
  apply In_cells. lia.
Qed.

(** The first loop nest zeroes every offset that the loops visit. *)
Lemma clear_cells_zero (i : Z) (cs : list (Z * Z)) :
  In i (map (fun c => at2 height (fst c) (snd c)) cs) ->
  forall h : heightmap (D := D),
    fold_left (clear_cell height) cs h i = of_int 0.
Proof.
  induction cs as [| c cs IH]; intros Hin h; [destruct Hin |].
  cbn [fold_left].
  destruct (in_dec Z.eq_dec i (map (fun c => at2 height (fst c) (snd c)) cs))
    as [Hlater | Hlast].
  - apply IH. exact Hlater.
  - rewrite (fold_cells_frame height);
      [| intros h0 c0 N; apply clear_cell_frame; exact N | exact Hlast].
    destruct Hin as [E | Hin]; [| contradiction].
    destruct c as [x y]. cbn [fst snd] in E. subst i.
    unfold clear_cell, store. rewrite Z.eqb_refl. reflexivity.
Qed.

Lemma boss_cells_agree (center : vec2) (gw amp : D)
    (h h' : heightmap (D := D)) :
  (forall i : Z, In i (visited width height) -> h i = h' i) ->
  forall i : Z,
    In i (visited width height) ->
    fold_left (boss_cell exp2 height center gw amp) (cells width height) h i
    = fold_left (boss_cell exp2 height center gw amp) (cells width height)
                h' i.
Proof.
  apply (fold_cells_agree _
           (fun c v =>
              boss_cell exp2 height center gw amp (fun _ => v) c
                        (at2 height (fst c) (snd c)))
           (fun i => In i (visited width height))).
  - intros h0 [x y] j. cbn [fst snd]. unfold boss_cell, store.
    rewrite Z.eqb_refl. reflexivity.
  - intros c Hc. apply cells_visited. exact Hc.
Qed.

Lemma add_bosses_agree (wr ar : vec2) (n : nat) :
  forall (h h' : heightmap (D := D)) (r : nat),
    (forall i : Z, In i (visited width height) -> h i = h' i) ->
    forall i : Z,
      In i (visited width height) ->
      fst (add_bosses rand_stream exp2 n width height wr ar h r) i
      = fst (add_bosses rand_stream exp2 n width height wr ar h' r) i.
Proof.
  induction n as [| n IH]; intros h h' r Hagree i Hi.
  - apply Hagree. exact Hi.
  - cbn [add_bosses]. unfold random_vec2. apply IH; [| exact Hi].
    intros j Hj. apply boss_cells_agree; assumption.
Qed.

Lemma scale_cells_agree (scale : Z) (cs : list (Z * Z)) :
  (forall c : Z * Z,
      In c cs -> In (at2 height (fst c) (snd c)) (visited width height)) ->
  forall (h h' : heightmap (D := D)) (mn mx : D),
    (forall i : Z, In i (visited width height) -> h i = h' i) ->
    let st := fold_left (scale_cell height scale) cs (h, mn, mx) in
    let st' := fold_left (scale_cell height scale) cs (h', mn, mx) in
    (forall i : Z,
        In i (visited width height) -> fst (fst st) i = fst (fst st') i)
    /\ snd (fst st) = snd (fst st') /\ snd st = snd st'.
Proof.
  induction cs as [| c cs IH]; intros HP h h' mn mx Hagree.
  - cbn. split; [exact Hagree | split; reflexivity].
  - cbn [fold_left]. destruct c as [x y]. cbn [scale_cell].
    assert (Hc : h (at2 height x y) = h' (at2 height x y)).
    { apply Hagree. apply (HP (x, y)). left. reflexivity. }
    rewrite Hc. apply IH.
    + intros c' Hc'. apply HP. right. exact Hc'.
    + intros i Hi. unfold store. destruct (i =? at2 height x y);
        [reflexivity | apply Hagree; exact Hi].
Qed.

(** X14.  Whatever the arithmetic, the dimensions and the draws, the values
    that [generate_random_heightgaussian] leaves in the cells its loops
    visit do not depend on what the buffer held before the call: the first
    loop nest zeroes them, and every later loop reads visited cells only.
    The program calls it on an array that it has not initialized. *)
Theorem generate_forgets_the_buffer (h h' : heightmap (D := D))
    (num_bosses scale : Z) (wr ar : vec2) (i : Z) :
  In i (visited width height) ->
  generate_random_heightgaussian rand_stream exp2 width height h num_bosses
                                 scale wr ar i
  = generate_random_heightgaussian rand_stream exp2 width height h'
                                   num_bosses scale wr ar i.
Proof.
  intros Hi. unfold generate_random_heightgaussian.
  pose proof (add_bosses_agree wr ar (Z.to_nat num_bosses)
                (fold_left (clear_cell height) (cells width height) h)
                (fold_left (clear_cell height) (cells width height) h') 0%nat)
    as Hb.
  destruct (add_bosses rand_stream exp2 (Z.to_nat num_bosses) width height
              wr ar (fold_left (clear_cell height) (cells width height) h) 0)
    as [h1 r1].
  destruct (add_bosses rand_stream exp2 (Z.to_nat num_bosses) width height
              wr ar (fold_left (clear_cell height) (cells width height) h') 0)
    as [h1' r1'].
  cbn [fst] in Hb.
  assert (Hagree : forall j : Z, In j (visited width height) -> h1 j = h1' j).
  { apply Hb. intros j Hj. rewrite !clear_cells_zero by exact Hj.
    reflexivity. }
  unfold scale_and_normalize.
  rewrite <- (Hagree (at2 height 0 0)) by (apply (visited_origin i); exact Hi).
  pose proof (scale_cells_agree scale (cells width height) cells_visited
                h1 h1' (h1 (at2 height 0 0) * of_int scale)%D
                (h1 (at2 height 0 0) * of_int scale)%D Hagree) as Hs.
  cbv zeta in Hs.
  destruct (fold_left (scale_cell height scale) (cells width height)
              (h1, _, _)) as [[h2 mn] mx].
  destruct (fold_left (scale_cell height scale) (cells width height)
              (h1', _, _)) as [[h2' mn'] mx'].
  cbn [fst snd] in Hs. destruct Hs as [Hmap [<- <-]].
  apply (fold_cells_agree _
           (fun c v =>
              normalize_cell height mn mx (fun _ => v) c
                             (at2 height (fst c) (snd c)))
           (fun i => In i (visited width height))).
  - intros h0 [x y] j. cbn [fst snd]. unfold normalize_cell, store.
    rewrite Z.eqb_refl. reflexivity.
  - intros c Hc. apply cells_visited. exact Hc.
  - exact Hmap.
  - exact Hi.
Qed.

End Fresh.

(** The cell of offset 4 of a grid of 3 by 2 cells is visited. *)
Lemma generate_forgets_the_buffer_witness :
  In 4 (visited 3 2)
  /\ forall (rand_stream : nat -> Z) (exp2 : float -> float)
            (h h' : heightmap (D := float)) (num_bosses scale : Z)
            (wr ar : vec2),
       generate_random_heightgaussian rand_stream exp2 3 2 h num_bosses
                                      scale wr ar 4
       = generate_random_heightgaussian rand_stream exp2 3 2 h' num_bosses
                                        scale wr ar 4.
Proof.
  assert (Hin : In 4 (visited 3 2)).
  { change (visited 3 2) with [0; 1; 2; 2; 3; 4]. simpl. tauto. }
  split; [exact Hin |].
  intros rand_stream exp2 h h' num_bosses scale wr ar.
  exact (generate_forgets_the_buffer rand_stream exp2 3 2 h h' num_bosses
           scale wr ar 4 Hin).
Defined.

(* ================================================================== *)
(** * Many drops: the images on the way                                 *)
(* ================================================================== *)

(** Among [1 .. m], with [m <= n], only [n] is a multiple of [n]. *)
Lemma only_multiple (n : Z) (m : nat) :
  0 < n -> Z.of_nat m <= n ->
  filter (fun j => Z.rem j n =? 0) (map (fun k => 1 + Z.of_nat k) (seq 0 m))
  = if Z.of_nat m =? n then [n] else [].
Proof.
  intros Hn. induction m as [| m IH]; intros Hm.
  - cbn [seq map filter]. destruct (Z.eqb_spec (Z.of_nat 0) n); [lia |].
    reflexivity.
  - rewrite seq_S, map_app, filter_app, IH by lia.
    destruct (Z.eqb_spec (Z.of_nat m) n) as [E | _]; [lia |].
    cbn [Nat.add map filter app].
    destruct (Z.eqb_spec (Z.of_nat (S m)) n) as [E | N].
    + replace (1 + Z.of_nat m) with n by lia.
      rewrite Z.rem_same by lia. reflexivity.
    + rewrite Z.rem_small by lia.
      destruct (Z.eqb_spec (1 + Z.of_nat m) 0); [lia | reflexivity].
Qed.

Section Snapshots.

Context {D : Type} {ops : DoubleOps D}.
Variable rand_stream : nat -> Z.
Variables (inner : nat) (height width : Z) (param : parameters (D := D)).

(** What a run of the loop has saved: one entry for every round whose
    number is a multiple of the period, in order, each with the heightmap
    that the rounds before it left; and the heightmap it returns is the one
    of the loop without images. *)
Lemma simulate_erosion_rounds_log (every : Z) (todo : nat) :
  forall (i : Z) (h : heightmap) (r : nat) (saved : list (Z * heightmap))
         (h' : heightmap) (r' : nat) (saved' : list (Z * heightmap)),
    simulate_erosion_rounds rand_stream todo inner height width param every
                            i h r saved
    = Some (h', r', saved') ->
    simulate_erosion_drops rand_stream todo inner height width param h r
    = Some (h', r')
    /\ exists L : list (Z * heightmap),
         saved' = saved ++ L
         /\ map fst L
            = filter (fun j => Z.rem j every =? 0)
                     (map (fun k => i + Z.of_nat k) (seq 0 todo))
         /\ Forall
              (fun e =>
                 i <= fst e < i + Z.of_nat todo
                 /\ exists rj : nat,
                      simulate_erosion_drops rand_stream
                        (Z.to_nat (fst e - i)) inner height width param h r
                      = Some (snd e, rj))
              L.
Proof.
  induction todo as [| n IH]; intros i h r saved h' r' saved' E.
  - cbn in E. injection E as <- <- <-. split; [reflexivity |].
    exists []. rewrite app_nil_r. repeat split. constructor.
  - cbn [simulate_erosion_rounds] in E.
    destruct (every =? 0); [discriminate E |].
    cbn [simulate_erosion_drops].
    destruct (random_vec2 rand_stream width height r) as [position r1] eqn:RV.
    destruct (simulate_drop rand_stream 1000 inner height width h
                (new_drop position) param r1) as [s n1 | n1 |] eqn:Run;
      try discriminate E.
    apply IH in E. destruct E as [Hd [L [Es [Hi HF]]]].
    split; [exact Hd |].
    assert (Hlater : Forall
              (fun e =>
                 i <= fst e < i + Z.of_nat (S n)
                 /\ exists rj : nat,
                      simulate_erosion_drops rand_stream
                        (Z.to_nat (fst e - i)) inner height width param h r
                      = Some (snd e, rj)) L).
    { eapply Forall_impl; [| exact HF]. intros [j hj]. cbn [fst snd].
      intros [Hj [rj Ej]]. split; [lia |]. exists rj.
      replace (Z.to_nat (j - i)) with (S (Z.to_nat (j - (i + 1)))) by lia.
      cbn [simulate_erosion_drops]. rewrite RV, Run. exact Ej. }
    assert (Hnumbers :
      map (fun k => i + Z.of_nat k) (seq 0 (S n))
      = i :: map (fun k => i + 1 + Z.of_nat k) (seq 0 n)).
    { cbn [seq map]. f_equal; [lia |].
      rewrite <- seq_shift, map_map. apply map_ext. intros k. lia. }
    rewrite Hnumbers. cbn [filter].
    destruct (Z.rem i every =? 0).
    + exists ((i, h) :: L). split; [| split].
      * rewrite Es, <- app_assoc. reflexivity.
      * cbn [map fst]. f_equal. exact Hi.
      * constructor; [| exact Hlater]. cbn [fst snd]. split; [lia |].
        exists r. replace (Z.to_nat (i - i)) with 0%nat by lia. reflexivity.
    + exists L. split; [exact Es |]. split; [exact Hi | exact Hlater].
Qed.

(** X15.  Whatever the arithmetic, when [simulate_erosion_detailed]
    returns, the heightmap is the one that the drops alone produce: saving
    an image changes nothing.  The images are those of the rounds whose
    number, from 1 to [nb_drop], is a multiple of
    [nb_particule_before_save], in that order, and the image numbered [j]
    shows the terrain as the first [j - 1] drops left it, because a round
    saves before it simulates its drop. *)
Theorem simulate_erosion_detailed_saves_before_the_drop (h : heightmap)
    (nb_drop nb_particule_before_save : Z) :
  match simulate_erosion_detailed_images rand_stream inner height width h
          param nb_drop nb_particule_before_save with
  | Some (h', r', saved) =>
      simulate_erosion_detailed rand_stream inner height width h param
                                nb_drop
      = Some (h', r')
      /\ map fst saved
         = filter (fun j => Z.rem j nb_particule_before_save =? 0)
                  (range_incl 1 nb_drop)
      /\ Forall
           (fun e =>
              exists rj : nat,
                simulate_erosion_detailed rand_stream inner height width h
                                          param (fst e - 1)
                = Some (snd e, rj))
           saved
  | None => True
  end.
Proof.
  unfold simulate_erosion_detailed_images.
  destruct (simulate_erosion_rounds _ _ _ _ _ _ _ _ _ _ _)
    as [[[h' r'] saved] |] eqn:E; [| exact I].
  apply simulate_erosion_rounds_log in E.
  destruct E as [Hd [L [Es [Hi HF]]]]. cbn [app] in Es. subst L.
  split; [exact Hd |]. split.
  - rewrite Hi. unfold range_incl, range. rewrite map_map.
    replace (nb_drop - 1 + 1) with nb_drop by lia. reflexivity.
  - eapply Forall_impl; [| exact HF]. intros [j hj]. cbn [fst snd].
    intros [_ Ej]. exact Ej.
Qed.

(** X16.  [simulate_erosion] passes [nb_drop] as the period as well, so a
    run of one drop or more that returns has saved exactly one image, the
    one numbered [nb_drop], and that image shows the terrain before the
    last drop has run: the heightmap of a run of [nb_drop - 1] drops. *)
Theorem simulate_erosion_image_misses_the_last_drop (h : heightmap)
    (nb_drop : Z) :
  0 < nb_drop ->
  match simulate_erosion rand_stream inner height width h param nb_drop with
  | Some (h', r', saved) =>
      simulate_erosion_detailed rand_stream inner height width h param
                                nb_drop
      = Some (h', r')
      /\ exists (hb : heightmap) (rb : nat),
           simulate_erosion_detailed rand_stream inner height width h param
                                     (nb_drop - 1)
           = Some (hb, rb)
           /\ saved = [(nb_drop, hb)]
  | None => True
  end.
Proof.
  intros Hn. unfold simulate_erosion, simulate_erosion_detailed_images.
  destruct (simulate_erosion_rounds _ _ _ _ _ _ _ _ _ _ _)
    as [[[h' r'] saved] |] eqn:E; [| exact I].
  apply simulate_erosion_rounds_log in E.
  destruct E as [Hd [L [Es [Hi HF]]]]. cbn [app] in Es. subst L.
  split; [exact Hd |].
  rewrite only_multiple in Hi by lia.
  rewrite Z2Nat.id, Z.eqb_refl in Hi by lia.
  destruct saved as [| [j hj] [| e saved]]; try discriminate Hi.
  cbn [map fst] in Hi. injection Hi as ->.
  apply Forall_inv in HF. cbn [fst snd] in HF. destruct HF as [_ [rj Ej]].
  exists hj, rj. split; [exact Ej | reflexivity].
Qed.

(** With no drop at all the loop does not run: nothing is saved and the
    remainder by the period 0 is never computed. *)
Lemma simulate_erosion_no_drop (h : heightmap) :
  simulate_erosion rand_stream inner height width h param 0
  = Some (h, 0%nat, []).
Proof. reflexivity. Qed.

End Snapshots.

(** Four drops on the slope of 8 by 8 cells with an image every second
    round: the run returns after 8 draws of [rand()] with the images 2
    and 4.  With the period 4, which is what [simulate_erosion] passes, the
    only image is the one numbered 4. *)
Lemma simulate_erosion_binary64_example :
  match simulate_erosion_detailed_images seeds 10 8 8 slope8 half_param 4 2
  with
  | Some (_, r, saved) => r = 8%nat /\ map fst saved = [2; 4]
  | None => False
  end
  /\ match simulate_erosion seeds 10 8 8 slope8 half_param 4 with
     | Some (_, r, saved) => r = 8%nat /\ map fst saved = [4]
     | None => False
     end.
Proof. vm_compute. repeat split; reflexivity. Qed.

Lemma simulate_erosion_image_misses_the_last_drop_witness :
  0 < 4
  /\ match simulate_erosion seeds 10 8 8 slope8 half_param 4 with
     | Some (h', r', saved) =>
         simulate_erosion_detailed seeds 10 8 8 slope8 half_param 4
         = Some (h', r')
         /\ exists (hb : heightmap) (rb : nat),
              simulate_erosion_detailed seeds 10 8 8 slope8 half_param
                                        (4 - 1)
              = Some (hb, rb)
              /\ saved = [(4, hb)]
     | None => True
     end.
Proof.
  split; [lia |].
  apply (simulate_erosion_image_misses_the_last_drop seeds 10 8 8 half_param
           slope8 4).
  lia.
Defined.

Section ErosionFrame.

Context {D : Type} {ops : DoubleOps D}.
Variable rand_stream : nat -> Z.
Variables (inner : nat) (height width : Z) (param : parameters (D := D)).

Lemma simulate_erosion_drops_in_block (n : nat) :
  forall (h : heightmap) (r : nat) (h' : heightmap) (r' : nat),
    simulate_erosion_drops rand_stream n inner height width param h r
    = Some (h', r') ->
    forall i : Z, ~ 0 <= i < width * height -> h' i = h i.
Proof.
  induction n as [| n IH]; intros h r h' r' E i Hout.
  - cbn in E. injection E as <- _. reflexivity.
  - cbn [simulate_erosion_drops] in E.
    destruct (random_vec2 rand_stream width height r) as [position r1].
    unfold simulate_drop in E.
    pose proof (simulate_drop_loop_rule rand_stream inner height width param
                  (fun s _ => w_map s i = h i) (fun s _ => w_map s i = h i))
      as Rule.
    specialize (Rule
      (fun s s' k G HI B =>
         eq_trans (simulate_drop_body_in_block rand_stream inner height width
                     param s s' i G (or_introl B) Hout) HI)
      (fun s s' k G HI B =>
         eq_trans (simulate_drop_body_in_block rand_stream inner height width
                     param s s' i G (or_intror B) Hout) HI)
      (fun s k HI => HI)
      1000%nat (mk_world h (new_drop position) r1) 0%nat eq_refl).
    destruct (simulate_drop_loop rand_stream 1000 inner height width param
                (mk_world h (new_drop position) r1) 0) as [s k | k |];
      try discriminate E.
    rewrite (IH _ _ _ _ E i Hout). exact Rule.
Qed.

(** X17.  Whatever the arithmetic, the parameters and the draws, a run of
    [simulate_erosion_detailed] that returns has written inside the block
    of [width * height] doubles only, however many drops it simulated. *)
Theorem simulate_erosion_writes_in_block (h : heightmap) (nb_drop : Z) :
  match simulate_erosion_detailed rand_stream inner height width h param
          nb_drop with
  | Some (h', _) => forall i : Z, ~ 0 <= i < width * height -> h' i = h i
  | None => True
  end.
Proof.
  unfold simulate_erosion_detailed.
  destruct (simulate_erosion_drops _ _ _ _ _ _ _ _) as [[h' r'] |] eqn:E;
    [| exact I].
  apply (simulate_erosion_drops_in_block _ _ _ _ _ E).
Qed.

End ErosionFrame.

(* ================================================================== *)
(** * Normalization as a map of heights, in exact arithmetic            *)
(* ================================================================== *)

(** X18.  On a square grid of [n] by [n] cells whose scaled heights are
    not all equal, the last two loop nests of
    [generate_random_heightgaussian] find the least and the greatest scaled
    height, [mn < mx], and map every cell by the same increasing affine
    map: the cell that holds [v] before ends with
    [(v * scale - mn) / (mx - mn) * 255]. *)
Theorem scale_and_normalize_square_affine (n scale : Z)
    (h : heightmap (D := R)) :
  0 < n ->
  (exists i j : Z,
      0 <= i < n * n /\ 0 <= j < n * n
      /\ (h i * IZR scale)%R <> (h j * IZR scale)%R) ->
  exists mn mx : R,
    (mn < mx)%R
    /\ (exists i : Z, 0 <= i < n * n /\ (h i * IZR scale)%R = mn)
    /\ (exists i : Z, 0 <= i < n * n /\ (h i * IZR scale)%R = mx)
    /\ forall i : Z,
         0 <= i < n * n ->
         (mn <= h i * IZR scale <= mx)%R
         /\ scale_and_normalize n n scale h i
            = ((h i * IZR scale - mn) / (mx - mn) * 255)%R.
Proof.
  intros Hn [a [b [Ha [Hb Hab]]]].
  unfold scale_and_normalize. exact_ops.
  change (at2 n 0 0) with (0 * n + 0). replace (0 * n + 0) with 0 by lia.
  rewrite (Square.fold_cells_offsets n _ (scale_offset scale))
    by apply Square.scale_cell_offset.
  fold (visited n n). rewrite Square.visited_square by lia. unfold range.
  pose proof (Square.scale_loop scale h (h 0%Z * IZR scale)%R
                (Z.to_nat (n * n))) as Hs.
  destruct (fold_left (scale_offset scale) _ _) as [[h1 mn] mx].
  destruct Hs as [Hdone Hrest Hbounds Hstart Hmin Hmax].
  cbn [fst snd] in *. rewrite Z2Nat.id in * by nia.
  assert (H0 : 0 <= 0 < n * n) by nia.
  exists mn, mx. split; [| split; [| split]].
  - pose proof (Hbounds a Ha). pose proof (Hbounds b Hb).
    destruct (Rlt_dec mn mx) as [? | Hge]; [assumption |].
    exfalso. apply Hab. lra.
  - destruct Hmin as [E | [i [Hi E]]];
      [exists 0; split; [exact H0 | symmetry; exact E]
      | exists i; split; [exact Hi | symmetry; exact E]].
  - destruct Hmax as [E | [i [Hi E]]];
      [exists 0; split; [exact H0 | symmetry; exact E]
      | exists i; split; [exact Hi | symmetry; exact E]].
  - intros i Hi. split; [apply Hbounds; exact Hi |].
    rewrite (Square.fold_cells_offsets n _ (normalize_offset mn mx))
      by apply Square.normalize_cell_offset.
    fold (visited n n). rewrite Square.visited_square by lia. unfold range.
    rewrite Square.normalize_loop. rewrite Z2Nat.id by nia.
    destruct (Z.leb_spec 0 i), (Z.ltb_spec i (n * n)); cbn; try lia.
    rewrite Hdone by lia. reflexivity.
Qed.

(** The grid [ramp 2] of 2 by 2 cells, scaled by 10, holds 0 and 10. *)
Lemma scale_and_normalize_square_affine_witness :
  0 < 2
  /\ (exists i j : Z,
         0 <= i < 2 * 2 /\ 0 <= j < 2 * 2
         /\ (ramp 2 i * IZR 10)%R <> (ramp 2 j * IZR 10)%R)
  /\ exists mn mx : R,
       (mn < mx)%R
       /\ (exists i : Z, 0 <= i < 2 * 2 /\ (ramp 2 i * IZR 10)%R = mn)
       /\ (exists i : Z, 0 <= i < 2 * 2 /\ (ramp 2 i * IZR 10)%R = mx)
       /\ forall i : Z,
            0 <= i < 2 * 2 ->
            (mn <= ramp 2 i * IZR 10 <= mx)%R
            /\ scale_and_normalize 2 2 10 (ramp 2) i
               = ((ramp 2 i * IZR 10 - mn) / (mx - mn) * 255)%R.
Proof.
  assert (Hn : 0 < 2) by lia.
  assert (Hne : exists i j : Z,
             0 <= i < 2 * 2 /\ 0 <= j < 2 * 2
             /\ (ramp 2 i * IZR 10)%R <> (ramp 2 j * IZR 10)%R).
  { exists 0, 1. split; [lia |]. split; [lia |].
    unfold ramp. change (0 mod 2) with 0. change (1 mod 2) with 1. lra. }
  exact (conj Hn (conj Hne
           (scale_and_normalize_square_affine 2 10 (ramp 2) Hn Hne))).
Defined.

(* ================================================================== *)
(** * The image of a heightmap                                          *)
(* ================================================================== *)

(** A loop whose rounds each write the places they own, and one round [a]
    that alone owns the place [k]: after the loop, [k] holds what [a]
    wrote. *)
Lemma fold_last_write {A M : Type} (f : (Z -> M) -> A -> Z -> M)
    (own : A -> Z -> bool) (v : A -> M) (k : Z) (a : A) (l : list A) :
  (forall (m : Z -> M) (b : A) (j : Z), own b j = false -> f m b j = m j) ->
  (forall (m : Z -> M) (b : A) (j : Z), own b j = true -> f m b j = v b) ->
  own a k = true -> In a l ->
  (forall b : A, In b l -> own b k = true -> b = a) ->
  forall m : Z -> M, fold_left f l m k = v a.
Proof.
  intros Hframe Hown Ha.
  induction l as [| b l IH] using rev_ind; intros Hin Huniq m.
  - destruct Hin.
  - rewrite fold_left_app. cbn [fold_left].
    destruct (own b k) eqn:O.
    + rewrite (Hown _ _ _ O). f_equal. apply Huniq; [| exact O].
      apply in_or_app. right. left. reflexivity.
    + rewrite (Hframe _ _ _ O). apply IH.
      * apply in_app_or in Hin. destruct Hin as [Hin | [E | []]];
          [exact Hin |]. subst b. congruence.
      * intros c Hc. apply Huniq. apply in_or_app. left. exact Hc.
Qed.

Lemma fold_no_write {A M : Type} (f : (Z -> M) -> A -> Z -> M)
    (own : A -> Z -> bool) (k : Z) (l : list A) :
  (forall (m : Z -> M) (b : A) (j : Z), own b j = false -> f m b j = m j) ->
  (forall b : A, In b l -> own b k = false) ->
  forall m : Z -> M, fold_left f l m k = m k.
Proof.
  intros Hframe. induction l as [| b l IH]; intros Hnot m; [reflexivity |].
  cbn [fold_left]. rewrite IH by (intros c Hc; apply Hnot; right; exact Hc).
  apply Hframe. apply Hnot. left. reflexivity.
Qed.

Section Image.

Context {D : Type} {ops : DoubleOps D}.
Variables (width height : Z) (h : heightmap (D := D)).

Lemma pixel_cell_elsewhere (image : bytes) (c : Z * Z) (j : Z) :
  ((fst c * width + snd c) * 3 <=? j)
  && (j <? (fst c * width + snd c) * 3 + 3) = false ->
  pixel_cell width height h image c j = image j.
Proof.
  destruct c as [y x]. cbn [fst snd]. intros O.
  rewrite andb_false_iff, Z.leb_gt, Z.ltb_ge in O.
  unfold pixel_cell, store_byte.
  destruct (Z.eqb_spec j ((y * width + x) * 3 + 2)); [lia |].
  destruct (Z.eqb_spec j ((y * width + x) * 3 + 1)); [lia |].
  destruct (Z.eqb_spec j ((y * width + x) * 3)); [lia |].
  reflexivity.
Qed.

Lemma pixel_cell_here (image : bytes) (c : Z * Z) (j : Z) :
  ((fst c * width + snd c) * 3 <=? j)
  && (j <? (fst c * width + snd c) * 3 + 3) = true ->
  pixel_cell width height h image c j
  = to_uchar (h (at2 height (fst c) (snd c))).
Proof.
  destruct c as [y x]. cbn [fst snd]. intros O.
  rewrite andb_true_iff, Z.leb_le, Z.ltb_lt in O.
  unfold pixel_cell, store_byte.
  destruct (Z.eqb_spec j ((y * width + x) * 3 + 2)); [reflexivity |].
  destruct (Z.eqb_spec j ((y * width + x) * 3 + 1)); [reflexivity |].
  destruct (Z.eqb_spec j ((y * width + x) * 3)); [reflexivity |].
  lia.
Qed.

(** The byte of the channel [c] of the pixel [(x, y)]. *)
Lemma image_pixels_at (image : bytes) (x y c : Z) :
  0 <= x < width -> 0 <= y < height -> 0 <= c < 3 ->
  image_pixels width height h image ((y * width + x) * 3 + c)
  = to_uchar (h (y * height + x)).
Proof.
  intros Hx Hy Hc. unfold image_pixels.
  apply (fold_last_write (pixel_cell width height h)
           (fun c j => ((fst c * width + snd c) * 3 <=? j)
                       && (j <? (fst c * width + snd c) * 3 + 3))
           (fun c => to_uchar (h (at2 height (fst c) (snd c))))
           _ (y, x)).
  - intros m b j. apply pixel_cell_elsewhere.
  - intros m b j. apply pixel_cell_here.
  - cbn [fst snd]. rewrite andb_true_iff, Z.leb_le, Z.ltb_lt. lia.
  - apply In_cells. lia.
  - intros [y' x'] Hin O. apply In_cells in Hin. cbn [fst snd] in O.
    rewrite andb_true_iff, Z.leb_le, Z.ltb_lt in O.
    assert (E : y' * width + x' = y * width + x) by lia.
    assert (Ey : y' = y) by nia.
    subst y'. f_equal. lia.
Qed.

(** The loops write the [width * height * 3] bytes that [malloc] gave and
    no other. *)
Lemma image_pixels_frame (image : bytes) (j : Z) :
  ~ 0 <= j < width * height * 3 ->
  image_pixels width height h image j = image j.
Proof.
  intros Hout. unfold image_pixels.
  apply (fold_no_write (pixel_cell width height h)
           (fun c j => ((fst c * width + snd c) * 3 <=? j)
                       && (j <? (fst c * width + snd c) * 3 + 3))).
  - intros m b k. apply pixel_cell_elsewhere.
  - intros [y x] Hin. apply In_cells in Hin. cbn [fst snd].
    rewrite andb_false_iff, Z.leb_gt, Z.ltb_ge.
    destruct (Z_lt_le_dec j ((y * width + x) * 3)) as [Hlt | Hge];
      [left; exact Hlt | right].
    destruct (Z_lt_le_dec j ((y * width + x) * 3 + 3)) as [Hin3 | Hok];
      [| exact Hok].
    exfalso. apply Hout. nia.
Qed.

(** X19.  Whatever the arithmetic, the three bytes of the pixel [(x, y)]
    of the image that [save_heightmap_as_image] builds are equal, and are
    the conversion of the double at the offset [y * height + x] of the
    heightmap; bytes outside the [width * height * 3] of the buffer are not
    written.  The simulation keeps the cell [(x, y)] at the offset
    [y * width + x]: the pixel shows that cell when the grid is square. *)
Theorem image_pixels_of_the_heightmap (image : bytes) (x y c : Z) :
  0 <= x < width -> 0 <= y < height -> 0 <= c < 3 ->
  image_pixels width height h image ((y * width + x) * 3 + c)
  = to_uchar (h (y * height + x))
  /\ (width = height ->
      image_pixels width height h image ((y * width + x) * 3 + c)
      = to_uchar (H h width x y))
  /\ forall j : Z,
       ~ 0 <= j < width * height * 3 ->
       image_pixels width height h image j = image j.
Proof.
  intros Hx Hy Hc. split; [| split].
  - apply image_pixels_at; assumption.
  - intros E. rewrite image_pixels_at by assumption. unfold H. rewrite E.
    reflexivity.
  - apply image_pixels_frame.
Qed.

End Image.

(** On a grid of 3 by 2 cells that holds its own offsets, the pixel
    [(0, 1)] shows 2, the height of the cell [(2, 0)]; the cell [(0, 1)]
    of the simulation holds 3. *)
Lemma image_pixels_of_the_heightmap_witness :
  0 <= 0 < 3 /\ 0 <= 1 < 2 /\ 0 <= 0 < 3
  /\ image_pixels 3 2 (fun i => Binary64.of_int i) (fun _ => 0)
                  ((1 * 3 + 0) * 3 + 0)
     = 2
  /\ to_uchar (H (fun i => Binary64.of_int i) 3 0 1) = 3.
Proof.
  assert (Hx : 0 <= 0 < 3) by lia.
  assert (Hy : 0 <= 1 < 2) by lia.
  split; [exact Hx |]. split; [exact Hy |]. split; [exact Hx |].
  split; [| vm_compute; reflexivity].
  rewrite (proj1 (image_pixels_of_the_heightmap 3 2
                    (fun i => Binary64.of_int i) (fun _ => 0) 0 1 0
                    Hx Hy Hx)).
  vm_compute. reflexivity.
Defined.

(** The conversion to [unsigned char] of a height between 0 and 255 is its
    integer part: nothing wraps. *)
Lemma to_uchar_in_range (v : R) :
  (0 <= v <= 255)%R ->
  to_uchar v = Exact.to_int v /\ 0 <= Exact.to_int v <= 255.
Proof.
  intros [Hlo Hhi].
  destruct (ExactFacts.to_int_nonneg v Hlo) as [Hfloor Hceil].
  assert (Hz : 0 <= Exact.to_int v <= 255).
  { split.
    - apply Z.lt_succ_r. apply lt_IZR. rewrite succ_IZR. lra.
    - apply le_IZR. lra. }
  split; [| exact Hz].
  unfold to_uchar. exact_ops. apply Z.mod_small. lia.
Qed.

(** X20.  In exact arithmetic, on a square grid that the last two loop
    nests of [generate_random_heightgaussian] have normalized, the image
    of [save_heightmap_as_image] shows at the pixel [(x, y)], in each of
    its three channels, the integer part of the height of the cell
    [(x, y)], a number from 0 to 255: the conversion to [unsigned char]
    stays where C defines it. *)
Theorem normalized_image_shows_the_terrain (n scale : Z)
    (h : heightmap (D := R)) (image : bytes) (x y c : Z) :
  0 <= x < n -> 0 <= y < n -> 0 <= c < 3 ->
  (exists i j : Z,
      0 <= i < n * n /\ 0 <= j < n * n
      /\ (h i * IZR scale)%R <> (h j * IZR scale)%R) ->
  let g := scale_and_normalize n n scale h in
  image_pixels n n g image ((y * n + x) * 3 + c) = Exact.to_int (H g n x y)
  /\ 0 <= Exact.to_int (H g n x y) <= 255.
Proof.
  intros Hx Hy Hc Hne g.
  destruct (scale_and_normalize_square n scale h) as [Hrange _];
    [lia | exact Hne |].
  rewrite image_pixels_at by assumption. fold (H g n x y).
  apply to_uchar_in_range. apply Hrange. nia.
Qed.

(** The pixel [(1, 0)] of the grid [ramp 2], scaled by 10 and
    normalized. *)
Lemma normalized_image_shows_the_terrain_witness :
  0 <= 1 < 2 /\ 0 <= 0 < 2 /\ 0 <= 0 < 3
  /\ (exists i j : Z,
         0 <= i < 2 * 2 /\ 0 <= j < 2 * 2
         /\ (ramp 2 i * IZR 10)%R <> (ramp 2 j * IZR 10)%R)
  /\ forall image : bytes,
       let g := scale_and_normalize 2 2 10 (ramp 2) in
       image_pixels 2 2 g image ((0 * 2 + 1) * 3 + 0)
       = Exact.to_int (H g 2 1 0)
       /\ 0 <= Exact.to_int (H g 2 1 0) <= 255.
Proof.
  assert (Hx : 0 <= 1 < 2) by lia.
  assert (Hy : 0 <= 0 < 2) by lia.
  assert (Hc : 0 <= 0 < 3) by lia.
  assert (Hne : exists i j : Z,
             0 <= i < 2 * 2 /\ 0 <= j < 2 * 2
             /\ (ramp 2 i * IZR 10)%R <> (ramp 2 j * IZR 10)%R).
  { exists 0, 1. split; [lia |]. split; [lia |].
    unfold ramp. change (0 mod 2) with 0. change (1 mod 2) with 1. lra. }
  split; [exact Hx |]. split; [exact Hy |]. split; [exact Hc |].
  split; [exact Hne |]. intros image.
  exact (normalized_image_shows_the_terrain 2 10 (ramp 2) image 1 0 0
           Hx Hy Hc Hne).
Defined.

(* ================================================================== *)
(** * Names of directories: the room for the number                     *)
(* ================================================================== *)

Lemma length_append (s t : string) :
  String.length (s ++ t) = (String.length s + String.length t)%nat.
Proof.
  induction s as [| a s IH]; [reflexivity |].
  cbn [append String.length]. rewrite IH. reflexivity.
Qed.

Lemma digits_step (fuel : nat) (n : Z) :
  digits (S fuel) n
  = if n <? 10 then String (digit n) EmptyString
    else (digits fuel (n / 10) ++ String (digit (n mod 10)) EmptyString)
         %string.
Proof. reflexivity. Qed.

Lemma digits_not_empty (fuel : nat) (n : Z) :
  (1 <= String.length (digits (S fuel) n))%nat.
Proof.
  rewrite digits_step. destruct (n <? 10); [cbn; lia |].
  rewrite length_append. cbn [String.length]. lia.
Qed.

Lemma sprintf_d_length (i : Z) :
  (String.length (sprintf_d i) = 1)%nat <-> 0 <= i <= 9.
Proof.
  unfold sprintf_d. destruct (Z.ltb_spec i 0) as [Hneg | Hpos].
  - split; [| lia]. cbn [String.length].
    pose proof (digits_not_empty 9 (- i)). lia.
  - rewrite (digits_step 9 i). destruct (Z.ltb_spec i 10) as [Hlt | Hge].
    + split; [lia | reflexivity].
    + split; [| lia]. rewrite length_append.
      pose proof (digits_not_empty 8 (i / 10)). cbn [String.length]. lia.
Qed.

(** X21.  [name_directory] writes [_], the number and [/] into an array of
    4 bytes: it stays inside it exactly for the numbers 0 to 9.  For those,
    and when the array behind [dest] has room, it appends the character
    [_], the digit, [/] and the name. *)
Theorem name_directory_one_digit (room : Z) (dest : string) (i : Z)
    (name : string) (s : string) :
  name_directory room dest i name = Some s
  <-> 0 <= i <= 9
      /\ Z.of_nat (String.length dest + 3 + String.length name) + 1 <= room
      /\ s = (dest ++ String "_" (String (digit i) (String "/" name)))%string.
Proof.
  unfold name_directory.
  assert (Hlen : forall t : string,
            String.length ("_" ++ t ++ "/")%string
            = (String.length t + 2)%nat).
  { intros t. cbn [append String.length]. rewrite length_append.
    cbn [String.length]. lia. }
  rewrite Hlen.
  destruct (Z.leb_spec (Z.of_nat (String.length (sprintf_d i) + 2) + 1) 4)
    as [Hfit | Hover].
  - assert (Hone : (String.length (sprintf_d i) = 1)%nat).
    { pose proof (digits_not_empty 9 i). pose proof (digits_not_empty 9 (- i)).
      unfold sprintf_d in *. destruct (i <? 0); cbn [String.length] in *; lia. }
    pose proof (proj1 (sprintf_d_length i) Hone) as Hi.
    assert (Ed : sprintf_d i = String (digit i) EmptyString).
    { unfold sprintf_d. destruct (Z.ltb_spec i 0); [lia |].
      rewrite (digits_step 9 i).
      destruct (Z.ltb_spec i 10); [reflexivity | lia]. }
    rewrite Ed. cbn [append]. cbn [andb].
    assert (El : String.length
                   (dest ++ String "_" (String (digit i) (String "/" name)))
                 = (String.length dest + 3 + String.length name)%nat).
    { rewrite length_append. cbn [String.length]. lia. }
    rewrite El.
    destruct (Z.leb_spec
                (Z.of_nat (String.length dest + 3 + String.length name) + 1)
                room) as [Hroom | Hnone].
    + split.
      * intros E. injection E as <-.
        split; [exact Hi | split; [exact Hroom | reflexivity]].
      * intros [_ [_ ->]]. reflexivity.
    + split; [discriminate |]. intros [_ [Hr _]]. lia.
  - cbn [andb]. split; [discriminate |]. intros [Hi _].
    apply sprintf_d_length in Hi. lia.
Qed.

(** The directory of the third value of the inertia, as the sweep of the
    parameters builds it in [char path[1024]]. *)
Lemma name_directory_example :
  name_directory 1024 "./image/inertia" 2 "inertia"
  = Some "./image/inertia_2/inertia"%string
  /\ name_directory 1024 "./image/inertia" 10 "inertia" = None.
Proof. split; reflexivity. Qed.

(* ================================================================== *)
(** * Erosion needs a slope, in exact arithmetic                        *)
(* ================================================================== *)

Section FlatTerrain.

Local Open Scope R_scope.

Variable rand_stream : nat -> Z.
Variables (inner : nat) (height width : Z) (param : parameters (D := R)).

(** Depositing nothing changes nothing. *)
Lemma simulate_deposition_zero (h : heightmap) (pos : vec2) :
  simulate_deposition width height h pos 0 = (h, 0).
Proof.
  rewrite Mass.simulate_deposition_weights.
  rewrite !Mass.deposit_cell_nothing by lra. reflexivity.
Qed.

(** Eroding nothing leaves every height and the sediment as they were. *)
Lemma erode_zero (h : heightmap) (old_pos : vec2) (rad : Z) (sed : R) :
  (forall i : Z, fst (erode width height h old_pos rad 0 sed) i = h i)
  /\ snd (erode width height h old_pos rad 0 sed) = sed.
Proof.
  unfold erode. destruct (dlt d0 _); [| split; reflexivity].
  generalize (total_weight (erosion_weights width height old_pos rad)).
  intros total.
  generalize (erosion_weights width height old_pos rad). intros ws.
  assert (Hfold : forall (st : heightmap * R),
    (forall i : Z,
        fst (fold_left (erode_cell width 0 total) ws st) i = fst st i)
    /\ snd (fold_left (erode_cell width 0 total) ws st) = snd st).
  { induction ws as [| wt ws IH]; intros st; [split; reflexivity |].
    cbn [fold_left]. destruct (IH (erode_cell width 0 total st wt)) as [Hm Hs].
    destruct st as [h0 s0]. unfold erode_cell in *.
    destruct (used wt); [| split; assumption].
    cbn [fst snd] in *. exact_ops. split.
    - intros i. rewrite Hm. unfold H_set, H, store.
      destruct (Z.eqb_spec i (weight_y wt * width + weight_x wt)) as [-> | _];
        [| reflexivity].
      unfold Rdiv. ring.
    - rewrite Hs. unfold Rdiv. ring. }
  apply (Hfold (h, sed)).
Qed.

(** A round on a terrain that is level over the whole grid, for a drop
    that carries nothing. *)
Lemma flat_round (level : R) (s s' : world) :
  0 <= erosion param -> 0 <= capacity param ->
  simulate_drop_guard height width s = true ->
  (forall i : Z, (0 <= i < width * height)%Z -> w_map s i = level) ->
  sediment (w_drop s) = 0 /\ 0 <= water (w_drop s)
  /\ 0 <= velocity (w_drop s) ->
  simulate_drop_body rand_stream inner height width param s = Next s'
  \/ simulate_drop_body rand_stream inner height width param s = Break s' ->
  (forall i : Z, w_map s' i = w_map s i)
  /\ sediment (w_drop s') = 0
  /\ (0 <= water (w_drop s') <= water (w_drop s)
      \/ water (w_drop s') = water (w_drop s) * (1 - evaporation param))
  /\ 0 <= velocity (w_drop s').
Proof.
  intros Her Hcap G Hflat [Hsed [Hwat Hvel]].
  assert (Hv : verify_drop_pos (w_drop s) width height = true).
  { unfold simulate_drop_guard in G. rewrite !andb_true_iff in G. tauto. }
  apply verify_drop_pos_cells in Hv. clear G.
  unfold simulate_drop_body.
  destruct (new_position rand_stream inner width param s) as [[pos r] |];
    [| intros [E | E]; discriminate E].
  destruct (verify_drop_pos _ width height) eqn:V; cbn [negb].
  - assert (Hd : height_difference width (w_map s) pos (position (w_drop s))
                 = 0).
    { unfold height_difference, H.
      apply verify_drop_pos_cells in V. cbn [position] in V.
      rewrite !Hflat by nia. exact_ops. ring. }
    rewrite Hd. exact_ops.
    replace (Exact.ltb 0 0) with false
      by (unfold Exact.ltb; destruct (Rlt_dec 0 0); [lra | reflexivity]).
    unfold downhill. cbn [sediment velocity water position direction lifetime].
    rewrite Hsed.
    set (m := MAX (dneg 0) (slope param)).
    assert (Hm : 0 <= m).
    { unfold m, MAX. exact_ops. unfold Exact.ltb.
      destruct (Rlt_dec (slope param) (- 0)); lra. }
    set (c := (m * velocity (w_drop s) * water (w_drop s)
               * capacity param)%D).
    assert (Hc : 0 <= c).
    { unfold c. exact_ops.
      apply Rmult_le_pos; [| exact Hcap].
      apply Rmult_le_pos; [| exact Hwat].
      apply Rmult_le_pos; assumption. }
    assert (Hvel' : 0 <= dsqrt (velocity (w_drop s) * velocity (w_drop s)
                                + ABS 0 * gravity param)%D).
    { exact_ops. apply sqrt_pos. }
    destruct (dle c 0) eqn:Hle.
    + assert (Hc0 : c = 0).
      { revert Hle. exact_ops. unfold Exact.leb.
        destruct (Rle_dec c 0); [lra | discriminate]. }
      rewrite Hc0. exact_ops.
      replace ((0 - 0) * deposition param) with 0 by ring.
      rewrite simulate_deposition_zero.
      intros [E | E]; [| discriminate E]. injection E as <-.
      cbn [w_map w_drop sediment water velocity].
      split; [reflexivity |]. split; [ring |].
      split; [right; reflexivity | exact Hvel'].
    + set (gain := MIN ((c - 0) * erosion param)%D (dneg 0)).
      assert (Hgain : gain = 0).
      { unfold gain, MIN. exact_ops. unfold Exact.ltb.
        destruct (Rlt_dec ((c - 0) * erosion param) (- 0)) as [Hlt | _];
          [| ring].
        exfalso. assert (0 <= (c - 0) * erosion param)
          by (apply Rmult_le_pos; lra). lra. }
      rewrite Hgain.
      destruct (erode_zero (w_map s) (position (w_drop s)) (radius param) 0)
        as [Hmap Hs].
      destruct (erode width height (w_map s) (position (w_drop s))
                  (radius param) 0 0) as [h1 sed1].
      cbn [fst snd] in Hmap, Hs.
      intros [E | E]; [| discriminate E]. injection E as <-.
      cbn [w_map w_drop sediment water velocity].
      split; [exact Hmap |]. split; [exact Hs |].
      split; [right; reflexivity | exact Hvel'].
  - intros [E | E]; [discriminate E |]. injection E as <-.
    cbn [w_map w_drop sediment water velocity].
    split; [reflexivity |]. split; [exact Hsed |].
    split; [left; lra | exact Hvel].
Qed.

Lemma flat_drop (level : R) (h : heightmap) (position : vec2) (r : nat) :
  0 <= erosion param -> 0 <= capacity param ->
  0 <= evaporation param <= 1 ->
  (forall i : Z, (0 <= i < width * height)%Z -> h i = level) ->
  match simulate_drop rand_stream 1000 inner height width h
                      (new_drop position) param r with
  | Returned s' _ => forall i : Z, w_map s' i = h i
  | _ => True
  end.
Proof.
  intros Her Hcap Hev Hflat. unfold simulate_drop.
  assert (Hround : forall (s s' : world) (k : nat),
    simulate_drop_guard height width s = true ->
    (forall i : Z, w_map s i = h i) /\ sediment (w_drop s) = 0
    /\ 0 <= water (w_drop s) /\ 0 <= velocity (w_drop s) ->
    simulate_drop_body rand_stream inner height width param s = Next s'
    \/ simulate_drop_body rand_stream inner height width param s = Break s' ->
    (forall i : Z, w_map s' i = h i) /\ sediment (w_drop s') = 0
    /\ 0 <= water (w_drop s') /\ 0 <= velocity (w_drop s')).
  { intros s s' k G [Hmap [Hsed [Hwat Hvel]]] B.
    destruct (flat_round level s s' Her Hcap G) as [Hm [Hs [Hw Hv]]];
      [intros i Hi; rewrite Hmap; apply Hflat; exact Hi
      | repeat split; assumption | exact B |].
    split; [intros i; rewrite Hm; apply Hmap |].
    split; [exact Hs |]. split; [| exact Hv].
    destruct Hw as [Hw | ->]; [lra |].
    apply Rmult_le_pos; lra. }
  apply (simulate_drop_loop_rule rand_stream inner height width param
           (fun s _ => (forall i : Z, w_map s i = h i)
                       /\ sediment (w_drop s) = 0
                       /\ 0 <= water (w_drop s) /\ 0 <= velocity (w_drop s))
           (fun s _ => forall i : Z, w_map s i = h i)).
  - intros s s' k G HI B. apply (Hround s s' k G HI (or_introl B)).
  - intros s s' k G HI B. apply (Hround s s' k G HI (or_intror B)).
  - intros s k HI. apply HI.
  - unfold new_drop. cbn [w_map w_drop sediment water velocity]. exact_ops.
    repeat split; try reflexivity; lra.
Qed.

Lemma flat_drops (level : R) (n : nat) :
  0 <= erosion param -> 0 <= capacity param ->
  0 <= evaporation param <= 1 ->
  forall (h : heightmap) (r : nat) (h' : heightmap) (r' : nat),
    (forall i : Z, (0 <= i < width * height)%Z -> h i = level) ->
    simulate_erosion_drops rand_stream n inner height width param h r
    = Some (h', r') ->
    forall i : Z, h' i = h i.
Proof.
  intros Her Hcap Hev.
  induction n as [| n IH]; intros h r h' r' Hflat E i.
  - cbn in E. injection E as <- _. reflexivity.
  - cbn [simulate_erosion_drops] in E.
    destruct (random_vec2 rand_stream width height r) as [position r1].
    pose proof (flat_drop level h position r1 Her Hcap Hev Hflat) as Hrun.
    destruct (simulate_drop rand_stream 1000 inner height width h
                (new_drop position) param r1) as [s k | k |];
      try discriminate E.
    rewrite (IH _ _ _ _ (fun j Hj => eq_trans (Hrun j) (Hflat j Hj)) E i).
    apply Hrun.
Qed.

(** X22.  In exact arithmetic, with [erosion] and [capacity] not negative
    and [evaporation] in [[0, 1]], a terrain that is level over the whole
    grid is left as it is by [simulate_erosion_detailed], however many
    drops run: between two cells of the same height [h_diff] is zero, the
    drop never deposits because it carries nothing, and what it erodes is
    bounded by [-h_diff]. *)
Theorem flat_terrain_is_left_flat (level : R) (h : heightmap)
    (nb_drop : Z) :
  0 <= erosion param -> 0 <= capacity param ->
  0 <= evaporation param <= 1 ->
  (forall i : Z, (0 <= i < width * height)%Z -> h i = level) ->
  match simulate_erosion_detailed rand_stream inner height width h param
          nb_drop with
  | Some (h', _) => forall i : Z, h' i = h i
  | None => True
  end.
Proof.
  intros Her Hcap Hev Hflat. unfold simulate_erosion_detailed.
  destruct (simulate_erosion_drops _ _ _ _ _ _ _ _) as [[h' r'] |] eqn:E;
    [| exact I].
  apply (flat_drops level _ Her Hcap Hev _ _ _ _ Hflat E).
Qed.

End FlatTerrain.

(** A terrain of 4 by 4 cells at the level 5, three drops. *)
Lemma flat_terrain_is_left_flat_witness :
  (0 <= erosion uphill_param)%R /\ (0 <= capacity uphill_param)%R
  /\ (0 <= evaporation uphill_param <= 1)%R
  /\ (forall i : Z, 0 <= i < 4 * 4 -> (fun _ : Z => 5%R) i = 5%R)
  /\ match simulate_erosion_detailed seeds 10 4 4 (fun _ => 5%R)
             uphill_param 3 with
     | Some (h', _) => forall i : Z, h' i = 5%R
     | None => True
     end.
Proof.
  assert (H1 : (0 <= erosion uphill_param)%R) by (simpl; lra).
  assert (H2 : (0 <= capacity uphill_param)%R) by (simpl; lra).
  assert (H3 : (0 <= evaporation uphill_param <= 1)%R) by (simpl; lra).
  assert (H4 : forall i : Z,
             0 <= i < 4 * 4 -> (fun _ : Z => 5%R) i = 5%R)
    by (intros i _; reflexivity).
  exact (conj H1 (conj H2 (conj H3 (conj H4
    (flat_terrain_is_left_flat seeds 10 4 4 uphill_param 5%R
       (fun _ => 5%R) 3 H1 H2 H3 H4))))).
Defined.

(** The same in binary64: three drops on a terrain of 8 by 8 cells at the
    level 5 leave the 64 cells at 5. *)
Lemma flat_terrain_binary64_example :
  match simulate_erosion_detailed seeds 10 8 8 (fun _ => 5%float)
          half_param 3 with
  | Some (h', _) =>
      forallb (fun i => PrimFloat.eqb (h' i) 5%float) (range 64) = true
  | None => False
  end.
Proof. vm_compute. reflexivity. Qed.

(* ================================================================== *)
(** * What a deposit and an erosion book, in every arithmetic           *)
(* ================================================================== *)

Section Books.

Context {D : Type} {ops : DoubleOps D}.

(** One of the four blocks of [simulate_deposition]: the cell it names is
    raised by its share, the sum of what was dropped as well, and no other
    cell changes. *)
Lemma deposit_cell_at (width x y : Z) (to_drop w : D) (h : heightmap)
    (s : D) :
  (forall i : Z,
      fst (deposit_cell width x y to_drop w (h, s)) i
      = if i =? y * width + x then raised (h i) (share to_drop w) else h i)
  /\ snd (deposit_cell width x y to_drop w (h, s))
     = raised s (share to_drop w).
Proof.
  unfold deposit_cell, share.
  destruct (dlt d0 (dmul to_drop w)); cbn [fst snd raised].
  - split; [| reflexivity]. intros i. unfold H_set, H, store.
    destruct (Z.eqb_spec i (y * width + x)) as [-> | _]; reflexivity.
  - split; [| reflexivity]. intros i.
    destruct (i =? y * width + x); reflexivity.
Qed.

(** C3, as amended.  For every arithmetic, at a position whose cell
    [(x1, y1)] and its three neighbours [(x1, y1 + 1)], [(x1 + 1, y1)] and
    [(x1 + 1, y1 + 1)] lie in the grid, [simulate_deposition] clamps no
    index.  Unless the sum of the weights is at most [EPSILON], in which
    case nothing changes and [0.0] is returned, each of the four cells, which
    are four different doubles of the block, is raised by its own share
    [to_drop * w] (when that product is positive), no other double changes,
    and the value returned is the sum of the shares that were added,
    accumulated from [0.0] in the order [w11], [w12], [w21], [w22]. *)
Theorem simulate_deposition_raises_four_cells (width height : Z)
    (h : heightmap) (pos : vec2) (to_drop : D) :
  let x1 := to_int (vec2_x pos) in
  let y1 := to_int (vec2_y pos) in
  0 <= x1 -> x1 + 1 < width -> 0 <= y1 -> y1 + 1 < height ->
  let '(w11, w12, w21, w22) := bilinear_weights pos in
  let '(h', returned) := simulate_deposition width height h pos to_drop in
  if dle (bilinear_sum pos) EPSILON
  then (forall i : Z, h' i = h i) /\ returned = d0
  else
    h' (y1 * width + x1)
    = raised (h (y1 * width + x1)) (share to_drop w11)
    /\ h' ((y1 + 1) * width + x1)
       = raised (h ((y1 + 1) * width + x1)) (share to_drop w12)
    /\ h' (y1 * width + (x1 + 1))
       = raised (h (y1 * width + (x1 + 1))) (share to_drop w21)
    /\ h' ((y1 + 1) * width + (x1 + 1))
       = raised (h ((y1 + 1) * width + (x1 + 1))) (share to_drop w22)
    /\ (forall i : Z,
          i <> y1 * width + x1 -> i <> (y1 + 1) * width + x1 ->
          i <> y1 * width + (x1 + 1) -> i <> (y1 + 1) * width + (x1 + 1) ->
          h' i = h i)
    /\ returned
       = raised (raised (raised (raised d0 (share to_drop w11))
                                (share to_drop w12))
                        (share to_drop w21))
                (share to_drop w22)
    /\ 0 <= y1 * width + x1
    /\ (y1 + 1) * width + (x1 + 1) < width * height.
Proof.
  intros x1 y1 Hx0 Hx1 Hy0 Hy1.
  assert (Hx2 : MIN_int (x1 + 1) (width - 1) = x1 + 1).
  { unfold MIN_int. destruct (Z.ltb_spec (x1 + 1) (width - 1)); lia. }
  assert (Hy2 : MIN_int (y1 + 1) (height - 1) = y1 + 1).
  { unfold MIN_int. destruct (Z.ltb_spec (y1 + 1) (height - 1)); lia. }
  assert (Erow : (y1 + 1) * width = y1 * width + width) by ring.
  unfold bilinear_weights, bilinear_sum, simulate_deposition. fold x1 y1.
  rewrite Hx2, Hy2.
  set (dx := dsub (vec2_x pos) (of_int x1)).
  set (dy := dsub (vec2_y pos) (of_int y1)).
  set (sum_w := dadd _ (dmul dx dy)).
  destruct (dle sum_w EPSILON); cbv beta iota zeta.
  - split; reflexivity.
  - set (w11 := ddiv (dmul (dsub d1 dx) (dsub d1 dy)) sum_w).
    set (w12 := ddiv (dmul (dsub d1 dx) dy) sum_w).
    set (w21 := ddiv (dmul dx (dsub d1 dy)) sum_w).
    set (w22 := ddiv (dmul dx dy) sum_w).
    destruct (deposit_cell_at width x1 y1 to_drop w11 h d0) as [A1 B1].
    destruct (deposit_cell width x1 y1 to_drop w11 (h, d0)) as [h1 s1].
    destruct (deposit_cell_at width x1 (y1 + 1) to_drop w12 h1 s1)
      as [A2 B2].
    destruct (deposit_cell width x1 (y1 + 1) to_drop w12 (h1, s1))
      as [h2 s2].
    destruct (deposit_cell_at width (x1 + 1) y1 to_drop w21 h2 s2)
      as [A3 B3].
    destruct (deposit_cell width (x1 + 1) y1 to_drop w21 (h2, s2))
      as [h3 s3].
    destruct (deposit_cell_at width (x1 + 1) (y1 + 1) to_drop w22 h3 s3)
      as [A4 B4].
    destruct (deposit_cell width (x1 + 1) (y1 + 1) to_drop w22 (h3, s3))
      as [h4 s4].
    cbn [fst snd] in *.
    assert (Hcell : forall i : Z,
      h4 i
      = if i =? (y1 + 1) * width + (x1 + 1)
        then raised (h i) (share to_drop w22)
        else if i =? y1 * width + (x1 + 1)
             then raised (h i) (share to_drop w21)
             else if i =? (y1 + 1) * width + x1
                  then raised (h i) (share to_drop w12)
                  else if i =? y1 * width + x1
                       then raised (h i) (share to_drop w11)
                       else h i).
    { intros i. rewrite A4, A3, A2, A1.
      destruct (Z.eqb_spec i ((y1 + 1) * width + (x1 + 1))) as [E4 | N4];
        destruct (Z.eqb_spec i (y1 * width + (x1 + 1))) as [E3 | N3];
        destruct (Z.eqb_spec i ((y1 + 1) * width + x1)) as [E2 | N2];
        destruct (Z.eqb_spec i (y1 * width + x1)) as [E1 | N1];
        try reflexivity; exfalso; lia. }
    split; [| split; [| split; [| split; [| split; [| split; [| split]]]]]].
    + rewrite Hcell.
      destruct (Z.eqb_spec (y1 * width + x1) ((y1 + 1) * width + (x1 + 1)));
        [lia |].
      destruct (Z.eqb_spec (y1 * width + x1) (y1 * width + (x1 + 1)));
        [lia |].
      destruct (Z.eqb_spec (y1 * width + x1) ((y1 + 1) * width + x1));
        [lia |].
      rewrite Z.eqb_refl. reflexivity.
    + rewrite Hcell.
      destruct (Z.eqb_spec ((y1 + 1) * width + x1)
                           ((y1 + 1) * width + (x1 + 1))); [lia |].
      destruct (Z.eqb_spec ((y1 + 1) * width + x1) (y1 * width + (x1 + 1)));
        [lia |].
      rewrite Z.eqb_refl. reflexivity.
    + rewrite Hcell.
      destruct (Z.eqb_spec (y1 * width + (x1 + 1))
                           ((y1 + 1) * width + (x1 + 1))); [lia |].
      rewrite Z.eqb_refl. reflexivity.
    + rewrite Hcell, Z.eqb_refl. reflexivity.
    + intros i N1 N2 N3 N4. rewrite Hcell.
      destruct (Z.eqb_spec i ((y1 + 1) * width + (x1 + 1)));
        [contradiction |].
      destruct (Z.eqb_spec i (y1 * width + (x1 + 1))); [contradiction |].
      destruct (Z.eqb_spec i ((y1 + 1) * width + x1)); [contradiction |].
      destruct (Z.eqb_spec i (y1 * width + x1)); [contradiction |].
      reflexivity.
    + rewrite B4, B3, B2, B1. reflexivity.
    + nia.
    + nia.
Qed.

End Books.

(** Ten units at [(1.25, 1.5)] on the grid [ramp4], in binary64: the cell
    [(1, 1)] and its three neighbours are in the grid, the weights add up
    to 1, and the shares 3.75, 3.75, 1.25 and 1.25 add up to 10. *)
Lemma simulate_deposition_raises_four_cells_witness :
  0 <= to_int (vec2_x (mk_vec2 1.25%float 1.5%float))
  /\ to_int (vec2_x (mk_vec2 1.25%float 1.5%float)) + 1 < 4
  /\ 0 <= to_int (vec2_y (mk_vec2 1.25%float 1.5%float))
  /\ to_int (vec2_y (mk_vec2 1.25%float 1.5%float)) + 1 < 4
  /\ snd (simulate_deposition 4 4 ramp4 (mk_vec2 1.25%float 1.5%float)
            10%float)
     = 10%float.
Proof.
  assert (H1 : 0 <= to_int (vec2_x (mk_vec2 1.25%float 1.5%float)))
    by (change (to_int (vec2_x (mk_vec2 1.25%float 1.5%float))) with 1; lia).
  assert (H2 : to_int (vec2_x (mk_vec2 1.25%float 1.5%float)) + 1 < 4)
    by (change (to_int (vec2_x (mk_vec2 1.25%float 1.5%float))) with 1; lia).
  assert (H3 : 0 <= to_int (vec2_y (mk_vec2 1.25%float 1.5%float)))
    by (change (to_int (vec2_y (mk_vec2 1.25%float 1.5%float))) with 1; lia).
  assert (H4 : to_int (vec2_y (mk_vec2 1.25%float 1.5%float)) + 1 < 4)
    by (change (to_int (vec2_y (mk_vec2 1.25%float 1.5%float))) with 1; lia).
  split; [exact H1 |]. split; [exact H2 |]. split; [exact H3 |].
  split; [exact H4 |].
  pose proof (simulate_deposition_raises_four_cells 4 4 ramp4
                (mk_vec2 1.25%float 1.5%float) 10%float H1 H2 H3 H4) as T.
  unfold bilinear_weights in T. cbv beta iota zeta in T.
  destruct (simulate_deposition 4 4 ramp4 (mk_vec2 1.25%float 1.5%float)
              10%float) as [h' returned].
  change (dle (bilinear_sum (mk_vec2 1.25%float 1.5%float)) EPSILON)
    with false in T.
  destruct T as [_ [_ [_ [_ [_ [R _]]]]]]. cbn [snd]. rewrite R.
  vm_compute. reflexivity.
Defined.

(** C3, as stated, fails in binary64.  At [(1.3, 1.7)] on the grid [ramp4]
    of 4 by 4 cells the cell [(1, 1)] and its neighbours are in the grid.
    For the amount 10000000.3, which is the double
    [5368709281061274 * 2^-29], the call returns the next double,
    [5368709281061275 * 2^-29]: the difference is [2^-29], more than 1e-9. *)
Lemma simulate_deposition_beyond_tolerance :
  to_int (vec2_x (mk_vec2 0x1.4cccccccccccdp+0%float
                          0x1.b333333333333p+0%float)) = 1
  /\ to_int (vec2_y (mk_vec2 0x1.4cccccccccccdp+0%float
                             0x1.b333333333333p+0%float)) = 1
  /\ PrimFloat.ltb 0 0x1.312d00999999ap+23 = true
  /\ Prim2SF 0x1.312d00999999ap+23
     = S754_finite false 5368709281061274 (-29)
  /\ Prim2SF (snd (simulate_deposition 4 4 ramp4
                     (mk_vec2 0x1.4cccccccccccdp+0%float
                              0x1.b333333333333p+0%float)
                     0x1.312d00999999ap+23%float))
     = S754_finite false 5368709281061275 (-29)
  /\ PrimFloat.ltb 0x1.12e0be826d695p-30
       (PrimFloat.sub
          (snd (simulate_deposition 4 4 ramp4
                  (mk_vec2 0x1.4cccccccccccdp+0%float
                           0x1.b333333333333p+0%float)
                  0x1.312d00999999ap+23%float))
          0x1.312d00999999ap+23)
     = true.
Proof. vm_compute. repeat split; reflexivity. Qed.

Section Ledger.

Context {D : Type} {ops : DoubleOps D}.



End Ledger.


(* ================================================================== *)
(** * When a drop returns                                               *)
(* ================================================================== *)


Section Returns.

Local Open Scope R_scope.

Variable rand_stream : nat -> Z.
Variables (inner : nat) (height width : Z) (param : parameters (D := R)).

(** [rand()] never returns twice in a row a value that [random_double]
    maps to [EPSILON] or less. *)
Hypothesis draws :
  forall k : nat,
    EPSILON < random_double (rand_stream k)
    \/ EPSILON < random_double (rand_stream (S k)).

(** Every loop inside the body is allowed 64 rounds.  In exact arithmetic
    one is enough; in double arithmetic the loops that re-issue a deposit
    may need a few, each round leaving about [1e-16] of what it placed. *)
Hypothesis inner_rounds : (64 <= inner)%nat.






End Returns.


(** In binary64 the loops that re-issue a deposit do run, which in exact
    arithmetic they never do.  The drop [heavy] moves up to the cell
    [(2, 1)] of [tall] with less sediment than the step is high; of its
    [3.3e11 = 5406720000000000 * 2^-14] the first deposit places all but
    [2^-14], which is more than [EPSILON], and one round of
    [while (drop.sediment > EPSILON)] places the rest.  With no round
    allowed to that loop the model reports that it has not ended; with one
    round, or 64, the drop returns from its first step with no sediment. *)
Lemma simulate_drop_reissues_in_binary64 :
  Prim2SF (sediment heavy) = S754_finite false 5406720000000000 (-14)
  /\ Prim2SF (snd (simulate_deposition 4 4 tall (position heavy)
                                       (sediment heavy)))
     = S754_finite false 5406719999999999 (-14)
  /\ simulate_drop (fun _ => 0) 1000 0 4 4 tall heavy full_inertia 0 = Hung 1
  /\ (forall inner : nat,
        In inner [1; 2; 64]%nat ->
        match simulate_drop (fun _ => 0) 1000 inner 4 4 tall heavy
                            full_inertia 0 with
        | Returned s n => n = 1%nat /\ sediment (w_drop s) = 0%float
        | _ => False
        end).
Proof.
  split; [vm_compute; reflexivity |].
  split; [vm_compute; reflexivity |].
  split; [vm_compute; reflexivity |].
  intros inner [E | [E | [E | []]]]; subst inner; vm_compute;
    split; reflexivity.
Qed.
